(** * JsonMcpTool: dot-notation paths over JSON documents

    A shallow embedding of the Go packages [pathresolver], [jsonhandler]
    and [operations], and the properties of their path resolution, of the
    document edits and of the file layer (cache and atomic write). *)

From Stdlib Require Import ZArith Floats.SpecFloat Strings.Ascii Strings.Byte.
From stdpp Require Import gmap strings list fin_maps.

Set Warnings "-register-all".
Local Open Scope string_scope.
Local Open Scope Z_scope.

(** ** Go values

    [json.Unmarshal] into [interface{}] yields nil, bool, float64, string,
    [[]interface{}] and [map[string]interface{}]. *)

Inductive Value :=
  | VNull
  | VBool (b : bool)
  | VNumber (f : spec_float)
  | VString (s : string)
  | VArray (l : list Value)
  | VObject (m : gmap string Value).

(** A value of static type [map[string]interface{}]: the nil map (what
    [json.Unmarshal] leaves for the text [null]) or a map. *)
Inductive GoMap :=
  | nilMap
  | mkMap (m : gmap string Value).

(** Reading a nil map behaves as reading an empty one. *)
Definition entries (d : GoMap) : gmap string Value :=
  match d with
  | nilMap => ∅
  | mkMap m => m
  end.

(** The conversion of a [map[string]interface{}] to [interface{}]. *)
Definition toValue (d : GoMap) : Value := VObject (entries d).

Definition isNil (d : GoMap) : bool :=
  match d with
  | nilMap => true
  | mkMap _ => false
  end.

(** ** Package strings *)

Module strings.

(** [strings.Split(s, sep)] for a one-byte separator: "a..b" gives
    ["a"; ""; "b"], and the empty string gives [""]. *)
Fixpoint Split (s : string) (sep : ascii) : list string :=
  match s with
  | EmptyString => [EmptyString]
  | String c rest =>
      if decide (c = sep) then EmptyString :: Split rest sep
      else match Split rest sep with
           | piece :: pieces => String c piece :: pieces
           | [] => [String c EmptyString]
           end
  end.

(** [strings.Join(elems, sep)]. *)
Fixpoint Join (elems : list string) (sep : string) : string :=
  match elems with
  | [] => ""
  | [e] => e
  | e :: rest => e +:+ sep +:+ Join rest sep
  end.

(** [strings.Contains(s, sep)] for a one-byte [sep]. *)
Fixpoint ContainsByte (s : string) (sep : ascii) : bool :=
  match s with
  | EmptyString => false
  | String c rest => if decide (c = sep) then true else ContainsByte rest sep
  end.

End strings.

Definition dot : ascii := "."%char.

(** ** Errors

    The sentinel errors of the three packages. Two sentinels of different
    packages with the same text are different errors for [errors.Is]. *)

Inductive Sentinel :=
  (* pathresolver *)
  | PR_ErrInvalidPath | PR_ErrKeyNotFound | PR_ErrPathError
  | PR_ErrPathConflict | PR_ErrNotObject
  (* jsonhandler *)
  | JH_ErrFileNotFound | JH_ErrInvalidJSON | JH_ErrFileReadError
  | JH_ErrFileWriteError | JH_ErrParseError | JH_ErrUnknownError
  (* operations *)
  | OP_ErrKeyNotFound | OP_ErrKeyExists | OP_ErrInvalidPath
  | OP_ErrInvalidJSON | OP_ErrFileNotFound | OP_ErrAddKeyError
  | OP_ErrUpdateKeyError | OP_ErrRemoveKeyError | OP_ErrRenameKeyError
  | OP_ErrSameKey.

Global Instance Sentinel_eq_dec : EqDecision Sentinel.
Proof. solve_decision. Defined.

(** The text given to [errors.New]. *)
Definition sentinel_text (s : Sentinel) : string :=
  match s with
  | PR_ErrInvalidPath => "INVALID_PATH"
  | PR_ErrKeyNotFound => "KEY_NOT_FOUND"
  | PR_ErrPathError => "PATH_ERROR"
  | PR_ErrPathConflict => "PATH_CONFLICT"
  | PR_ErrNotObject => "NOT_OBJECT"
  | JH_ErrFileNotFound => "FILE_NOT_FOUND"
  | JH_ErrInvalidJSON => "INVALID_JSON"
  | JH_ErrFileReadError => "FILE_READ_ERROR"
  | JH_ErrFileWriteError => "FILE_WRITE_ERROR"
  | JH_ErrParseError => "PARSE_ERROR"
  | JH_ErrUnknownError => "UNKNOWN_ERROR"
  | OP_ErrKeyNotFound => "KEY_NOT_FOUND"
  | OP_ErrKeyExists => "KEY_EXISTS"
  | OP_ErrInvalidPath => "INVALID_PATH"
  | OP_ErrInvalidJSON => "INVALID_JSON"
  | OP_ErrFileNotFound => "FILE_NOT_FOUND"
  | OP_ErrAddKeyError => "ADD_KEY_ERROR"
  | OP_ErrUpdateKeyError => "UPDATE_KEY_ERROR"
  | OP_ErrRemoveKeyError => "REMOVE_KEY_ERROR"
  | OP_ErrRenameKeyError => "RENAME_KEY_ERROR"
  | OP_ErrSameKey => "SAME_KEY"
  end.

(** An error value: the sentinel it wraps (through the one [%w] of the
    [fmt.Errorf] that built it, if any) and its message. *)
Record error := mkError {
  wraps : option Sentinel;
  message : string
}.

(** [fmt.Errorf("%w" + rest, s, ...)], [rest] already formatted. *)
Definition Errorf_w (s : Sentinel) (rest : string) : error :=
  {| wraps := Some s; message := sentinel_text s +:+ rest |}.

(** [fmt.Errorf(text, ...)] without [%w], [text] already formatted. *)
Definition Errorf (text : string) : error :=
  {| wraps := None; message := text |}.

(** [errors.Is(err, target)] for a sentinel target. *)
Definition errors_Is (err : error) (target : Sentinel) : bool :=
  bool_decide (wraps err = Some target).

(** The error kind a caller reads off an error: the upper-case code its
    message starts with, up to the first colon. *)
Definition kind (err : error) : string :=
  match strings.Split (message err) ":"%char with
  | code :: _ => code
  | [] => ""
  end.

(** What a call does: return a result, return an error, or panic. *)
Inductive Outcome (A : Type) :=
  | Ok (a : A)
  | Err (e : error)
  | Panic (msg : string).
Arguments Ok {A} a.
Arguments Err {A} e.
Arguments Panic {A} msg.

Global Instance Outcome_bind : MBind Outcome := λ A B f o,
  match o with
  | Ok a => f a
  | Err e => Err e
  | Panic msg => Panic msg
  end.

Global Instance Outcome_fmap : FMap Outcome := λ A B f o,
  match o with
  | Ok a => Ok (f a)
  | Err e => Err e
  | Panic msg => Panic msg
  end.

Definition is_Ok {A} (o : Outcome A) : bool :=
  match o with
  | Ok _ => true
  | _ => false
  end.

Definition is_Err {A} (o : Outcome A) : bool :=
  match o with
  | Err _ => true
  | _ => false
  end.

(** ** Package pathresolver *)

Module pathresolver.

Definition ErrInvalidPath := PR_ErrInvalidPath.
Definition ErrKeyNotFound := PR_ErrKeyNotFound.
Definition ErrPathError := PR_ErrPathError.
Definition ErrPathConflict := PR_ErrPathConflict.
Definition ErrNotObject := PR_ErrNotObject.

(** A map of a freshly parsed document is reached from the root in one
    way only, so the model names a map reference by the keys that lead
    to it from the root. *)
Definition Ref := list string.

(** Write through a reference: apply [f] to the map at [ref]. *)
Fixpoint modify (ref : Ref) (f : gmap string Value → gmap string Value)
    (m : gmap string Value) : gmap string Value :=
  match ref with
  | [] => f m
  | k :: ref' =>
      match m !! k with
      | Some (VObject child) => <[k := VObject (modify ref' f child)]> m
      | _ => m
      end
  end.

Definition ValidatePath (keyPath : string) : option error :=
  if decide (keyPath = "") then
    Some (Errorf_w ErrInvalidPath ": Key path cannot be empty")
  else None.

Definition SplitPath (keyPath : string) : list string :=
  if decide (keyPath = "") then [] else strings.Split keyPath dot.

(** The loop of [NavigateToKey]: [keys] is the whole split path, [i] the
    index of the next key, [rest] the keys from [i] on, [ref] the keys
    followed so far. *)
Fixpoint navigate_loop (keyPath : string) (keys : list string) (i : nat)
    (rest : list string) (ref : Ref) (current : Value)
    : Outcome (Ref * Value) :=
  match rest with
  | [] => Ok (ref, current)
  | key :: rest' =>
      match current with
      | VObject currentMap =>
          match currentMap !! key with
          | Some value =>
              navigate_loop keyPath keys (S i) rest' (ref ++ [key])%list value
          | None =>
              Err (Errorf_w ErrKeyNotFound
                     (": Key '" +:+ keyPath +:+ "' not found"))
          end
      | _ =>
          let partialPath := strings.Join (take i keys) "." in
          Err (Errorf_w ErrPathError
                 (": Cannot navigate through non-object value at '"
                  +:+ partialPath +:+ "'"))
      end
  end.

(** [NavigateToKey], returning with the value the place it was read
    from (Go returns a map by reference). *)
Definition NavigateToKeyRef (data : Value) (keyPath : string)
    : Outcome (Ref * Value) :=
  match ValidatePath keyPath with
  | Some err => Err err
  | None =>
      match data with
      | VObject dataMap =>
          match dataMap !! keyPath with
          | Some value => Ok ([keyPath], value)
          | None =>
              let keys := SplitPath keyPath in
              navigate_loop keyPath keys 0 keys [] data
          end
      | _ => Err (Errorf_w ErrPathError ": Root data is not an object")
      end
  end.

Definition NavigateToKey (data : Value) (keyPath : string) : Outcome Value :=
  snd <$> NavigateToKeyRef data keyPath.

(** [NavigateToParent]: the parent map (as a reference and as its
    current content) and the final key. *)
Definition NavigateToParent (data : Value) (keyPath : string)
    : Outcome (Ref * gmap string Value * string) :=
  match ValidatePath keyPath with
  | Some err => Err err
  | None =>
      let keys := SplitPath keyPath in
      match data with
      | VObject dataMap =>
          if decide (length keys = 1%nat) then
            Ok ([], dataMap, default "" (head keys))
          else
            let parentPath :=
              strings.Join (take (length keys - 1) keys) "." in
            match NavigateToKeyRef data parentPath with
            | Ok (ref, VObject parentMap) =>
                Ok (ref, parentMap, default "" (last keys))
            | Ok (_, _) =>
                Err (Errorf_w ErrPathError
                       (": Parent at '" +:+ parentPath
                        +:+ "' is not an object"))
            | Err err => Err err
            | Panic msg => Panic msg
            end
      | _ => Err (Errorf_w ErrPathError ": Root data is not an object")
      end
  end.

Definition KeyExists (data : Value) (keyPath : string) : bool :=
  match ValidatePath keyPath with
  | Some _ => false
  | None =>
      match data with
      | VObject dataMap =>
          match dataMap !! keyPath with
          | Some _ => true
          | None => is_Ok (NavigateToKey data keyPath)
          end
      | _ => false
      end
  end.

(** The loop of [CreateNestedPath] over [keys[:len(keys)-1]]; it returns
    [current] with the intermediate objects in place. *)
Fixpoint create_loop (keys : list string) (i : nat) (rest : list string)
    (current : gmap string Value) : Outcome (gmap string Value) :=
  match rest with
  | [] => Ok current
  | key :: rest' =>
      match current !! key with
      | Some (VObject valueMap) =>
          child ← create_loop keys (S i) rest' valueMap;
          Ok (<[key := VObject child]> current)
      | Some _ =>
          let partialPath := strings.Join (take (S i) keys) "." in
          Err (Errorf_w ErrPathConflict
                 (": Cannot create nested path through non-object value at '"
                  +:+ partialPath +:+ "'"))
      | None =>
          child ← create_loop keys (S i) rest' ∅;
          Ok (<[key := VObject child]> current)
      end
  end.

(** [CreateNestedPath]: the document with the intermediate objects
    created, and the reference to the innermost one. *)
Definition CreateNestedPath (data : gmap string Value) (keyPath : string)
    : Outcome (gmap string Value * Ref) :=
  match ValidatePath keyPath with
  | Some err => Err err
  | None =>
      let keys := SplitPath keyPath in
      if decide (length keys = 1%nat) then Ok (data, [])
      else
        let inner := take (length keys - 1) keys in
        data' ← create_loop keys 0 inner data;
        Ok (data', inner)
  end.

(** [RemoveKeyAtPath]: the removed value and the document without it. *)
Definition RemoveKeyAtPath (data : gmap string Value) (keyPath : string)
    : Outcome (Value * gmap string Value) :=
  match ValidatePath keyPath with
  | Some err => Err err
  | None =>
      match data !! keyPath with
      | Some value => Ok (value, delete keyPath data)
      | None =>
          '(ref, parent, finalKey) ← NavigateToParent (VObject data) keyPath;
          match parent !! finalKey with
          | None =>
              Err (Errorf_w ErrKeyNotFound
                     (": Key '" +:+ keyPath +:+ "' not found"))
          | Some value => Ok (value, modify ref (delete finalKey) data)
          end
      end
  end.

(** The entry [RemoveKeyAtPath] deletes, as the reference of its map
    followed by its key: the entry of the root under the whole path when
    there is one, the entry under the final key of the parent otherwise. *)
Definition removedEntry (data : gmap string Value) (keyPath : string)
    : option Ref :=
  match data !! keyPath with
  | Some _ => Some [keyPath]
  | None =>
      match NavigateToParent (VObject data) keyPath with
      | Ok (ref, _, finalKey) => Some (ref ++ [finalKey])%list
      | _ => None
      end
  end.

(** [SetValueAtPath]: the document after [parent[finalKey] = value]. *)
Definition SetValueAtPath (data : gmap string Value) (keyPath : string)
    (value : Value) (createPath : bool) : Outcome (gmap string Value) :=
  if createPath then
    '(data', ref) ← CreateNestedPath data keyPath;
    let finalKey := default "" (last (SplitPath keyPath)) in
    Ok (modify ref (<[finalKey := value]>) data')
  else
    '(ref, _, finalKey) ← NavigateToParent (VObject data) keyPath;
    Ok (modify ref (<[finalKey := value]>) data).

(** [GetAllKeysAtPath]; [keyPath] is the optional path ([nil] for the
    root). Go's [range] over a map visits every key once, in an order it
    does not fix: [visit] is the order of this call. *)
Definition GetAllKeysAtPath (visit : gmap string Value → list string)
    (data : Value) (keyPath : option string) : Outcome (list string) :=
  target ← match keyPath with
           | None => Ok data
           | Some path => NavigateToKey data path
           end;
  match target with
  | VObject targetMap => Ok (visit targetMap)
  | _ =>
      let pathDesc :=
        match keyPath with
        | None => "root"
        | Some path => "'" +:+ path +:+ "'"
        end in
      Err (Errorf_w ErrNotObject
             (": Value at " +:+ pathDesc
              +:+ " is not an object, cannot list keys"))
  end.

End pathresolver.

(** ** The file system and encoding/json

    The file system is a finite map from path names to files. A file has
    its bytes and its modification time; [os.ReadFile] may fail on it, and
    a path may exist without [os.Stat] being able to reach it. *)

Record DiskFile := mkDiskFile {
  content : list byte;
  modTime : Z;
  readError : option string
}.

Inductive Entry :=
  | Regular (f : DiskFile)
  | Inaccessible (msg : string).

Inductive StatResult :=
  | StatNotExist
  | StatError (msg : string)
  | StatInfo (f : DiskFile).

Definition os_Stat (fs : gmap string Entry) (path : string) : StatResult :=
  match fs !! path with
  | None => StatNotExist
  | Some (Inaccessible msg) => StatError msg
  | Some (Regular f) => StatInfo f
  end.

Inductive ReadResult :=
  | ReadError (msg : string)
  | ReadBytes (data : list byte).

Definition os_ReadFile (fs : gmap string Entry) (path : string) : ReadResult :=
  match fs !! path with
  | None => ReadError "no such file or directory"
  | Some (Inaccessible msg) => ReadError msg
  | Some (Regular f) =>
      match readError f with
      | Some msg => ReadError msg
      | None => ReadBytes (content f)
      end
  end.

(** The bytes of the file at [path], if there is one. *)
Definition onDisk (fs : gmap string Entry) (path : string) : option (list byte) :=
  match fs !! path with
  | Some (Regular f) => Some (content f)
  | _ => None
  end.

(** [json.Unmarshal(data, &m)] for [m] a [map[string]interface{}]. *)
Inductive UnmarshalMapResult :=
  | UnmarshalMapError (msg : string)
  | UnmarshalledMap (d : GoMap).

(** [json.Unmarshal(data, &v)] for [v] an [interface{}]: the error, when
    there is one, is a [*json.SyntaxError] with its byte offset or another
    error. *)
Inductive UnmarshalAnyResult :=
  | SyntaxError (msg : string) (Offset : Z)
  | OtherUnmarshalError (msg : string)
  | Unmarshalled (v : Value).

(** Package encoding/json is not part of the repository: the functions
    used from it are parameters. [Encode data indent] is what an encoder
    with [SetIndent("", indent)] and [SetEscapeHTML(false)] writes. *)
Record JSON := mkJSON {
  Unmarshal_map : list byte → UnmarshalMapResult;
  Unmarshal_any : list byte → UnmarshalAnyResult;
  Encode : GoMap → string → list byte
}.

(** What the environment does during the one [SaveJSON] of a call: the
    name [os.CreateTemp] picks, the step that fails (if any) with the
    text of its error, and the modification time the written file gets.
    [encoder.Encode] fails at [AtEncode] on a write error and on a value
    it cannot serialise. *)
Inductive Stage := AtCreateTemp | AtEncode | AtClose | AtRename.

Global Instance Stage_eq_dec : EqDecision Stage.
Proof. solve_decision. Defined.

Record WriteIO := mkWriteIO {
  tempName : string;
  failure : option (Stage * string);
  writeTime : Z
}.

Definition failsAt (io : WriteIO) (st : Stage) : option string :=
  match failure io with
  | Some (st', msg) => if decide (st' = st) then Some msg else None
  | None => None
  end.

(** ** Package jsonhandler *)

Module jsonhandler.

Definition ErrFileNotFound := JH_ErrFileNotFound.
Definition ErrInvalidJSON := JH_ErrInvalidJSON.
Definition ErrFileReadError := JH_ErrFileReadError.
Definition ErrFileWriteError := JH_ErrFileWriteError.
Definition ErrParseError := JH_ErrParseError.
Definition ErrUnknownError := JH_ErrUnknownError.

(** The handler; its mutex is not modelled, the calls are sequential.
    [fileMTime] counts from the zero [time.Time]. *)
Record JSONHandler := mkJSONHandler {
  filePath : string;
  cachedData : GoMap;
  fileMTime : Z
}.

Definition NewJSONHandler (filePath : string) : JSONHandler :=
  {| filePath := filePath; cachedData := nilMap; fileMTime := 0 |}.

Record ValidationError := mkValidationError {
  Message : string;
  Line : Z;
  Column : Z
}.

(** [ParseTime] is wall-clock time and is left out. *)
Record PerformanceMetrics := mkPerformanceMetrics {
  FileSize : Z
}.

Record ValidationResult := mkValidationResult {
  Valid : bool;
  File : string;
  Error : option ValidationError;
  ErrorType : string;
  Performance : option PerformanceMetrics
}.

Record FileInfo := mkFileInfo {
  Exists : bool;
  Path : string;
  SizeBytes : Z;
  IsCached : bool
}.

(** What one [LoadJSON] did: its result, the handler afterwards, and
    whether it called [os.ReadFile]. *)
Record Loaded := mkLoaded {
  loadResult : Outcome GoMap;
  loadHandler : JSONHandler;
  didRead : bool
}.

Fixpoint spaces (n : nat) : string :=
  match n with
  | O => ""
  | S n' => spaces n' +:+ " "
  end.

Definition getIndentString (indent : Z) : string :=
  spaces (Z.to_nat indent).

(** The loop of [getLineColumn]: [rest] is [data[i:]]. Line and column
    never exceed [len(data) + 1], so Go's [int] does not wrap. *)
Fixpoint lineColumn_loop (rest : list byte) (i offset line col : Z) : Z * Z :=
  match rest with
  | [] => (line, col)
  | b :: rest' =>
      if bool_decide (i < offset) then
        if Byte.eqb b x0a then lineColumn_loop rest' (i + 1) offset (line + 1) 1
        else lineColumn_loop rest' (i + 1) offset line (col + 1)
      else (line, col)
  end.

Definition getLineColumn (data : list byte) (offset : Z) : Z * Z :=
  lineColumn_loop data 0 offset 1 1.

Section WithJSON.
Context (J : JSON).

Definition LoadJSON (h : JSONHandler) (fs : gmap string Entry)
    (useCache : bool) : Loaded :=
  match os_Stat fs (filePath h) with
  | StatNotExist =>
      mkLoaded (Err (Errorf_w ErrFileNotFound
                       (": File " +:+ filePath h +:+ " not found")))
               h false
  | StatError msg =>
      mkLoaded (Err (Errorf_w ErrFileReadError
                       (": Failed to stat " +:+ filePath h +:+ ": " +:+ msg)))
               h false
  | StatInfo fileInfo =>
      let currentMTime := modTime fileInfo in
      if useCache && negb (isNil (cachedData h))
         && bool_decide (fileMTime h = currentMTime) then
        mkLoaded (Ok (cachedData h)) h false
      else
        match os_ReadFile fs (filePath h) with
        | ReadError msg =>
            mkLoaded (Err (Errorf_w ErrFileReadError
                             (": Failed to read " +:+ filePath h
                              +:+ ": " +:+ msg)))
                     h true
        | ReadBytes data =>
            match Unmarshal_map J data with
            | UnmarshalMapError msg =>
                mkLoaded (Err (Errorf_w ErrInvalidJSON
                                 (": File " +:+ filePath h
                                  +:+ " contains invalid JSON: " +:+ msg)))
                         h true
            | UnmarshalledMap jsonData =>
                let h' :=
                  if useCache then
                    {| filePath := filePath h;
                       cachedData := jsonData;
                       fileMTime := currentMTime |}
                  else h in
                mkLoaded (Ok jsonData) h' true
            end
        end
  end.

(** [SaveJSON]: the error (or none), the handler and the file system
    afterwards. The deferred function closes the temporary file and
    removes its name on every way out. *)
Definition SaveJSON (io : WriteIO) (h : JSONHandler)
    (fs : gmap string Entry) (data : GoMap) (indent : Z)
    : option error * JSONHandler * gmap string Entry :=
  let tempPath := tempName io in
  let createError :=
    match failsAt io AtCreateTemp with
    | Some msg => Some msg
    | None => if fs !! tempPath is Some _ then Some "file exists" else None
    end in
  match createError with
  | Some msg =>
      (Some (Errorf_w ErrFileWriteError
               (": Failed to create temp file: " +:+ msg)), h, fs)
  | None =>
      let fs1 := <[tempPath := Regular (mkDiskFile [] (writeTime io) None)]> fs in
      match failsAt io AtEncode with
      | Some msg =>
          (Some (Errorf_w ErrFileWriteError
                   (": Failed to encode JSON: " +:+ msg)),
           h, delete tempPath fs1)
      | None =>
          let written :=
            Regular (mkDiskFile (Encode J data (getIndentString indent))
                                (writeTime io) None) in
          let fs2 := <[tempPath := written]> fs1 in
          match failsAt io AtClose with
          | Some msg =>
              (Some (Errorf_w ErrFileWriteError
                       (": Failed to close temp file: " +:+ msg)),
               h, delete tempPath fs2)
          | None =>
              match failsAt io AtRename with
              | Some msg =>
                  (Some (Errorf_w ErrFileWriteError
                           (": Failed to rename temp file: " +:+ msg)),
                   h, delete tempPath fs2)
              | None =>
                  let fs3 := <[filePath h := written]> (delete tempPath fs2) in
                  let mtime :=
                    match os_Stat fs3 (filePath h) with
                    | StatInfo fileInfo => modTime fileInfo
                    | _ => fileMTime h
                    end in
                  (None,
                   {| filePath := filePath h;
                      cachedData := data;
                      fileMTime := mtime |},
                   delete tempPath fs3)
              end
          end
      end
  end.

(** [ValidateJSONSyntax]. When [os.Stat] fails with another error than
    not-exist, [fileInfo] is nil and [fileInfo.Size()] panics. *)
Definition ValidateJSONSyntax (h : JSONHandler) (fs : gmap string Entry)
    : Outcome ValidationResult :=
  match os_Stat fs (filePath h) with
  | StatNotExist =>
      Ok (mkValidationResult false (filePath h)
            (Some (mkValidationError
                     ("File " +:+ filePath h +:+ " not found") 0 0))
            "FILE_NOT_FOUND" None)
  | StatError _ =>
      Panic "runtime error: invalid memory address or nil pointer dereference"
  | StatInfo fileInfo =>
      let fileSize := Z.of_nat (length (content fileInfo)) in
      if bool_decide (fileSize = 0) then
        Ok (mkValidationResult false (filePath h)
              (Some (mkValidationError "File is empty" 1 1))
              "PARSE_ERROR" None)
      else
        match os_ReadFile fs (filePath h) with
        | ReadError msg =>
            Ok (mkValidationResult false (filePath h)
                  (Some (mkValidationError
                           ("Failed to read file: " +:+ msg) 0 0))
                  "FILE_READ_ERROR" None)
        | ReadBytes data =>
            if bool_decide (length data = 0%nat) then
              Ok (mkValidationResult false (filePath h)
                    (Some (mkValidationError
                             "File contains only whitespace" 1 1))
                    "PARSE_ERROR" None)
            else
              match Unmarshal_any J data with
              | SyntaxError msg Offset =>
                  let '(line, col) := getLineColumn data Offset in
                  Ok (mkValidationResult false (filePath h)
                        (Some (mkValidationError msg line col))
                        "PARSE_ERROR" None)
              | OtherUnmarshalError msg =>
                  Ok (mkValidationResult false (filePath h)
                        (Some (mkValidationError msg 0 0))
                        "PARSE_ERROR" None)
              | Unmarshalled _ =>
                  Ok (mkValidationResult true (filePath h) None ""
                        (Some (mkPerformanceMetrics fileSize)))
              end
        end
  end.

Definition ClearCache (h : JSONHandler) : JSONHandler :=
  {| filePath := filePath h; cachedData := nilMap; fileMTime := 0 |}.

Definition GetFileInfo (h : JSONHandler) (fs : gmap string Entry) : FileInfo :=
  match os_Stat fs (filePath h) with
  | StatInfo fileInfo =>
      mkFileInfo true (filePath h) (Z.of_nat (length (content fileInfo)))
                 (negb (isNil (cachedData h)))
  | _ => mkFileInfo false (filePath h) 0 (negb (isNil (cachedData h)))
  end.

End WithJSON.

End jsonhandler.

(** ** Package operations *)

Module operations.

Definition ErrKeyNotFound := OP_ErrKeyNotFound.
Definition ErrKeyExists := OP_ErrKeyExists.
Definition ErrInvalidPath := OP_ErrInvalidPath.
Definition ErrInvalidJSON := OP_ErrInvalidJSON.
Definition ErrFileNotFound := OP_ErrFileNotFound.
Definition ErrAddKeyError := OP_ErrAddKeyError.
Definition ErrUpdateKeyError := OP_ErrUpdateKeyError.
Definition ErrRemoveKeyError := OP_ErrRemoveKeyError.
Definition ErrRenameKeyError := OP_ErrRenameKeyError.
Definition ErrSameKey := OP_ErrSameKey.

(** The text of Go's panic for a write into a nil map. *)
Definition nilMapPanic : string := "assignment to entry in nil map".

Section WithJSON.
Context (J : JSON).

(** The first lines of every operation: a new handler, and
    [LoadJSON(true)] on it. *)
Definition load (fs : gmap string Entry) (filePath : string) : Outcome GoMap :=
  jsonhandler.loadResult
    (jsonhandler.LoadJSON J (jsonhandler.NewJSONHandler filePath) fs true).

(** The handler after that load, on which the operation saves. *)
Definition loadedHandler (fs : gmap string Entry) (filePath : string)
    : jsonhandler.JSONHandler :=
  jsonhandler.loadHandler
    (jsonhandler.LoadJSON J (jsonhandler.NewJSONHandler filePath) fs true).

Definition GetKey (fs : gmap string Entry) (filePath keyPath : string)
    : Outcome Value :=
  match load fs filePath with
  | Err err => Err err
  | Panic msg => Panic msg
  | Ok data =>
      match pathresolver.NavigateToKey (toValue data) keyPath with
      | Ok value => Ok value
      | Panic msg => Panic msg
      | Err err =>
          if errors_Is err pathresolver.ErrKeyNotFound then
            Err (Errorf_w ErrKeyNotFound
                   (": Key '" +:+ keyPath +:+ "' not found in " +:+ filePath))
          else if errors_Is err pathresolver.ErrInvalidPath then
            Err (Errorf_w ErrInvalidPath (": " +:+ message err))
          else Err (Errorf ("PATH_ERROR: " +:+ message err))
      end
  end.

(** The one save of a mutating operation, its error wrapped in the
    sentinel of the operation. *)
Definition save (io : WriteIO) (fs : gmap string Entry) (filePath : string)
    (data : GoMap) (opError : Sentinel) : Outcome () * gmap string Entry :=
  match jsonhandler.SaveJSON J io (loadedHandler fs filePath) fs data 2 with
  | (Some err, _, fs') =>
      (Err (Errorf_w opError (": Failed to save file: " +:+ message err)), fs')
  | (None, _, fs') => (Ok (), fs')
  end.

(** [AddKey]. On the nil map of a [null] document nothing exists;
    [SetValueAtPath] still rejects the empty path, and with any other
    path its first write to the document panics. *)
Definition AddKey (io : WriteIO) (fs : gmap string Entry)
    (filePath keyPath : string) (value : Value)
    : Outcome () * gmap string Entry :=
  match load fs filePath with
  | Err err => (Err err, fs)
  | Panic msg => (Panic msg, fs)
  | Ok data =>
      if pathresolver.KeyExists (toValue data) keyPath then
        (Err (Errorf_w ErrKeyExists
                (": Key '" +:+ keyPath +:+ "' already exists in " +:+ filePath)),
         fs)
      else
        let set :=
          if isNil data && negb (bool_decide (keyPath = "")) then Panic nilMapPanic
          else pathresolver.SetValueAtPath (entries data) keyPath value true in
        match set with
        | Panic msg => (Panic msg, fs)
        | Err err =>
            if errors_Is err pathresolver.ErrPathConflict then
              (Err (Errorf ("PATH_CONFLICT: " +:+ message err)), fs)
            else
              (Err (Errorf_w ErrAddKeyError
                      (": Failed to add key '" +:+ keyPath +:+ "': "
                       +:+ message err)), fs)
        | Ok data' => save io fs filePath (mkMap data') ErrAddKeyError
        end
  end.

Definition UpdateKey (io : WriteIO) (fs : gmap string Entry)
    (filePath keyPath : string) (value : Value)
    : Outcome () * gmap string Entry :=
  match load fs filePath with
  | Err err => (Err err, fs)
  | Panic msg => (Panic msg, fs)
  | Ok data =>
      match pathresolver.ValidatePath keyPath with
      | Some err => (Err (Errorf_w ErrInvalidPath (": " +:+ message err)), fs)
      | None =>
          if negb (pathresolver.KeyExists (toValue data) keyPath) then
            (Err (Errorf_w ErrKeyNotFound
                    (": Key '" +:+ keyPath +:+ "' not found in " +:+ filePath)),
             fs)
          else
            match pathresolver.SetValueAtPath (entries data) keyPath value false with
            | Panic msg => (Panic msg, fs)
            | Err err =>
                if errors_Is err pathresolver.ErrKeyNotFound then
                  (Err (Errorf_w ErrKeyNotFound
                          (": Key '" +:+ keyPath +:+ "' not found in "
                           +:+ filePath)), fs)
                else
                  (Err (Errorf_w ErrUpdateKeyError
                          (": Failed to update key '" +:+ keyPath +:+ "': "
                           +:+ message err)), fs)
            | Ok data' => save io fs filePath (mkMap data') ErrUpdateKeyError
            end
      end
  end.

(** [RenameKey] stores the value read at the old path at the new one
    without a copy: a map is then in the document twice, as one map.
    When the new path runs through that map, the map holds itself from
    then on. The removal of the old path takes it out of the document
    when it deletes the entry the map is reached by; when it deletes
    another entry (the one under a key of the root that is the parent
    path with its dots), the map stays, and [encoder.Encode] fails on
    it. [holdsItself] says whether the document to save holds such a
    map; in every other case the document is a tree again and
    [data2] is what is saved. *)
Definition holdsItself (data : Value) (oldPath newPath : string)
    (data1 : gmap string Value) : bool :=
  match pathresolver.NavigateToKeyRef data oldPath with
  | Ok (oldRef, VObject _) =>
      let keys := pathresolver.SplitPath newPath in
      bool_decide (oldRef `prefix_of` take (length keys - 1) keys)
      && match pathresolver.removedEntry data1 oldPath with
         | Some removed => negb (bool_decide (removed `prefix_of` oldRef))
         | None => false
         end
  | _ => false
  end.

(** The error of [encoder.Encode] for a map that holds itself. *)
Definition cycleError : string :=
  "json: unsupported value: encountered a cycle via map[string]interface {}".

(** The save of a document with such a map: once the temporary file is
    created, [encoder.Encode] fails before it writes anything. *)
Definition encodingCycle (io : WriteIO) : WriteIO :=
  {| tempName := tempName io;
     failure := match failure io with
                | Some (AtCreateTemp, msg) => Some (AtCreateTemp, msg)
                | _ => Some (AtEncode, cycleError)
                end;
     writeTime := writeTime io |}.

Definition RenameKey (io : WriteIO) (fs : gmap string Entry)
    (filePath oldPath newPath : string) : Outcome () * gmap string Entry :=
  if decide (oldPath = newPath) then
    (Err (Errorf_w ErrSameKey ": Old and new key paths cannot be the same"), fs)
  else
    match pathresolver.ValidatePath oldPath with
    | Some err => (Err (Errorf_w ErrInvalidPath (": " +:+ message err)), fs)
    | None =>
    match pathresolver.ValidatePath newPath with
    | Some err => (Err (Errorf_w ErrInvalidPath (": " +:+ message err)), fs)
    | None =>
    match load fs filePath with
    | Err err => (Err err, fs)
    | Panic msg => (Panic msg, fs)
    | Ok data =>
        if negb (pathresolver.KeyExists (toValue data) oldPath) then
          (Err (Errorf_w ErrKeyNotFound
                  (": Key '" +:+ oldPath +:+ "' not found in " +:+ filePath)),
           fs)
        else if pathresolver.KeyExists (toValue data) newPath then
          (Err (Errorf_w ErrKeyExists
                  (": Key '" +:+ newPath +:+ "' already exists in "
                   +:+ filePath)), fs)
        else
          match pathresolver.NavigateToKey (toValue data) oldPath with
          | Panic msg => (Panic msg, fs)
          | Err err =>
              (Err (Errorf_w ErrRenameKeyError
                      (": Failed to get value at '" +:+ oldPath +:+ "': "
                       +:+ message err)), fs)
          | Ok value =>
              match pathresolver.SetValueAtPath (entries data) newPath value true with
              | Panic msg => (Panic msg, fs)
              | Err err =>
                  (Err (Errorf_w ErrRenameKeyError
                          (": Failed to set value at '" +:+ newPath +:+ "': "
                           +:+ message err)), fs)
              | Ok data1 =>
                  match pathresolver.RemoveKeyAtPath data1 oldPath with
                  | Panic msg => (Panic msg, fs)
                  | Err err =>
                      (Err (Errorf_w ErrRenameKeyError
                              (": Failed to remove old key '" +:+ oldPath
                               +:+ "': " +:+ message err)), fs)
                  | Ok (_, data2) =>
                      let io' :=
                        if holdsItself (toValue data) oldPath newPath data1
                        then encodingCycle io else io in
                      save io' fs filePath (mkMap data2) ErrRenameKeyError
                  end
              end
          end
    end
    end
    end.

Definition RemoveKey (io : WriteIO) (fs : gmap string Entry)
    (filePath keyPath : string) : Outcome Value * gmap string Entry :=
  match load fs filePath with
  | Err err => (Err err, fs)
  | Panic msg => (Panic msg, fs)
  | Ok data =>
      match pathresolver.ValidatePath keyPath with
      | Some err => (Err (Errorf_w ErrInvalidPath (": " +:+ message err)), fs)
      | None =>
          if negb (pathresolver.KeyExists (toValue data) keyPath) then
            (Err (Errorf_w ErrKeyNotFound
                    (": Key '" +:+ keyPath +:+ "' not found in " +:+ filePath)),
             fs)
          else
            match pathresolver.RemoveKeyAtPath (entries data) keyPath with
            | Panic msg => (Panic msg, fs)
            | Err err =>
                (Err (Errorf_w ErrRemoveKeyError
                        (": Failed to remove key '" +:+ keyPath +:+ "': "
                         +:+ message err)), fs)
            | Ok (removedValue, data') =>
                match save io fs filePath (mkMap data') ErrRemoveKeyError with
                | (Ok _, fs') => (Ok removedValue, fs')
                | (Err err, fs') => (Err err, fs')
                | (Panic msg, fs') => (Panic msg, fs')
                end
            end
      end
  end.

Definition ListKeys (visit : gmap string Value → list string)
    (fs : gmap string Entry) (filePath : string) (keyPath : option string)
    : Outcome (list string) :=
  match load fs filePath with
  | Err err => Err err
  | Panic msg => Panic msg
  | Ok data =>
      match pathresolver.GetAllKeysAtPath visit (toValue data) keyPath with
      | Ok keys => Ok keys
      | Panic msg => Panic msg
      | Err err =>
          if errors_Is err pathresolver.ErrKeyNotFound then
            let pathDesc :=
              match keyPath with
              | None => "root"
              | Some path => "'" +:+ path +:+ "'"
              end in
            Err (Errorf_w ErrKeyNotFound
                   (": Key " +:+ pathDesc +:+ " not found in " +:+ filePath))
          else if errors_Is err pathresolver.ErrNotObject then
            Err (Errorf ("NOT_OBJECT: " +:+ message err))
          else Err err
      end
  end.

Definition KeyExists (fs : gmap string Entry) (filePath keyPath : string)
    : Outcome bool :=
  match load fs filePath with
  | Err err => Err err
  | Panic msg => Panic msg
  | Ok data => Ok (pathresolver.KeyExists (toValue data) keyPath)
  end.

(** [ValidateJSON]; the result is copied field by field into the
    [ValidationResult] of this package, which has the same fields. *)
Definition ValidateJSON (fs : gmap string Entry) (filePath : string)
    : Outcome jsonhandler.ValidationResult :=
  let handler := jsonhandler.NewJSONHandler filePath in
  let fileInfo := jsonhandler.GetFileInfo handler fs in
  result ← jsonhandler.ValidateJSONSyntax J handler fs;
  let performance :=
    match jsonhandler.Performance result with
    | Some p =>
        if jsonhandler.Valid result && jsonhandler.Exists fileInfo then
          Some (jsonhandler.mkPerformanceMetrics (jsonhandler.SizeBytes fileInfo))
        else Some p
    | None => None
    end in
  Ok (jsonhandler.mkValidationResult
        (jsonhandler.Valid result) (jsonhandler.File result)
        (jsonhandler.Error result) (jsonhandler.ErrorType result)
        performance).

End WithJSON.

End operations.

(** ** Definitions used to state the properties *)

(** Following [keys] down from [v], one map lookup per key. *)
Fixpoint descend (keys : list string) (v : Value) : option Value :=
  match keys with
  | [] => Some v
  | key :: keys' =>
      match v with
      | VObject m =>
          match m !! key with
          | Some child => descend keys' child
          | None => None
          end
      | _ => None
      end
  end.

Definition is_object (v : Value) : bool :=
  match v with
  | VObject _ => true
  | _ => false
  end.

(** An [Outcome bool] that is a returned [true]. *)
Definition returns_true (o : Outcome bool) : bool :=
  match o with
  | Ok b => b
  | _ => false
  end.

(** [vle v w]: [w] is [v] with entries added to some of its objects, at
    any depth. *)
Inductive vle : Value → Value → Prop :=
  | vle_refl v : vle v v
  | vle_object (m m' : gmap string Value) :
      (∀ k x, m !! k = Some x → ∃ x', m' !! k = Some x' ∧ vle x x') →
      vle (VObject m) (VObject m').

(** The position of a byte offset as the specification words it: the
    line is one more than the line feeds among the first [offset] bytes,
    the column one more than the bytes after the last of them. *)
Definition upTo (data : list byte) (offset : Z) : list byte :=
  take (Z.to_nat offset) data.

Fixpoint countLF (bs : list byte) : Z :=
  match bs with
  | [] => 0
  | b :: bs' => (if Byte.eqb b x0a then 1 else 0) + countLF bs'
  end.

(** The bytes after the last line feed of [bs] (all of [bs] if none). *)
Fixpoint afterLastLF (bs : list byte) : list byte :=
  match bs with
  | [] => []
  | b :: bs' =>
      if Z.eqb (countLF bs') 0 then
        if Byte.eqb b x0a then bs' else b :: bs'
      else afterLastLF bs'
  end.

Definition lineAt (data : list byte) (offset : Z) : Z :=
  1 + countLF (upTo data offset).

Definition columnAt (data : list byte) (offset : Z) : Z :=
  1 + Z.of_nat (length (afterLastLF (upTo data offset))).

(** The first of the segments of [s]. *)
Definition firstSegment (s : string) : string :=
  default "" (head (strings.Split s dot)).

(** [J] reads back the text it writes for [d] at the indentation the
    operations use. *)
Definition reads_back (J : JSON) (d : GoMap) : Prop :=
  Unmarshal_map J (Encode J d (jsonhandler.getIndentString 2)) = UnmarshalledMap d.

(** The file a successful [SaveJSON] leaves at the path of the handler. *)
Definition written (J : JSON) (io : WriteIO) (data : GoMap) (indent : Z)
    : Entry :=
  Regular (mkDiskFile (Encode J data (jsonhandler.getIndentString indent))
                      (writeTime io) None).

(** ** A stand-in for encoding/json in the examples *)

Definition spec_float_eqb (f g : spec_float) : bool :=
  match f, g with
  | S754_zero s, S754_zero t => Bool.eqb s t
  | S754_infinity s, S754_infinity t => Bool.eqb s t
  | S754_nan, S754_nan => true
  | S754_finite s m e, S754_finite t n d =>
      Bool.eqb s t && Pos.eqb m n && Z.eqb e d
  | _, _ => false
  end.

Fixpoint Value_eqb (v w : Value) {struct v} : bool :=
  match v, w with
  | VNull, VNull => true
  | VBool a, VBool b => Bool.eqb a b
  | VNumber f, VNumber g => spec_float_eqb f g
  | VString s, VString t => bool_decide (s = t)
  | VArray l, VArray k =>
      (fix all2 (l k : list Value) : bool :=
         match l, k with
         | [], [] => true
         | x :: l', y :: k' => Value_eqb x y && all2 l' k'
         | _, _ => false
         end) l k
  | VObject m, VObject n =>
      bool_decide (dom m = dom n)
      && map_fold (λ key x acc,
                     acc && match n !! key with
                            | Some y => Value_eqb x y
                            | None => false
                            end) true m
  | _, _ => false
  end.

Definition GoMap_eqb (d e : GoMap) : bool :=
  match d, e with
  | nilMap, nilMap => true
  | mkMap m, mkMap n => Value_eqb (VObject m) (VObject n)
  | _, _ => false
  end.

Local Instance byte_EqDecision : EqDecision byte := byte_eq_dec.

Definition bytes_eqb (a b : list byte) : bool :=
  bool_decide (a = b).

(** A [JSON] that knows the texts of [texts] and the document each one
    stands for; any other text is malformed at its first byte. *)
Definition tableJSON (texts : list (list byte * GoMap)) : JSON :=
  {| Unmarshal_map bs :=
       match find (λ e, bytes_eqb bs e.1) texts with
       | Some e => UnmarshalledMap e.2
       | None => UnmarshalMapError "invalid character"
       end;
     Unmarshal_any bs :=
       match find (λ e, bytes_eqb bs e.1) texts with
       | Some e => Unmarshalled (toValue e.2)
       | None => SyntaxError "invalid character" 1
       end;
     Encode d indent :=
       match find (λ e, GoMap_eqb d e.2) texts with
       | Some e => e.1
       | None => []
       end |}.

(** A directory with the one readable file [path]. *)
Definition oneFile (path : string) (data : list byte) (mtime : Z)
    : gmap string Entry :=
  {[ path := Regular (mkDiskFile data mtime None) ]}.

(** A save during which no step fails. *)
Definition plainWrite : WriteIO :=
  {| tempName := "1234.tmp"; failure := None; writeTime := 20 |}.

Definition number (n : positive) : Value := VNumber (S754_finite false n 0).

(** ** Documents and files of the examples *)

(** A document whose root has the key "a.b" and also a nested a, b. *)
Definition bothWays : gmap string Value :=
  {[ "a.b" := VString "literal";
     "a" := VObject {[ "b" := VString "nested" ]} ]}.

Definition bothWaysText : list byte := [x62; x6f; x74; x68].

Definition bothWaysJSON : JSON := tableJSON [(bothWaysText, mkMap bothWays)].

Definition dottedInside : gmap string Value :=
  {[ "a" := VObject {[ "b.c" := VString "x" ]} ]}.

Definition dottedInsideText : list byte := [x69; x6e].

(** That document without the dotted key; a document with a dotted key
    two objects down and one with a dotted key beside a plain key that
    holds a number, each with the document without the dotted key; and
    the texts that stand for the six. *)
Definition plainInside : gmap string Value :=
  {[ "a" := VObject ∅ ]}.

Definition deepDotted : gmap string Value :=
  {[ "a" := VObject {[ "b" := VObject {[ "c.d" := VString "x" ]} ]} ]}.

Definition deepPlain : gmap string Value :=
  {[ "a" := VObject {[ "b" := VObject ∅ ]} ]}.

Definition besideDotted : gmap string Value :=
  {[ "a" := VObject {[ "b.c" := VString "x"; "b" := number 5 ]} ]}.

Definition besidePlain : gmap string Value :=
  {[ "a" := VObject {[ "b" := number 5 ]} ]}.

Definition plainInsideText : list byte := [x70; x6c].
Definition deepDottedText : list byte := [x64; x64].
Definition deepPlainText : list byte := [x64; x70].
Definition besideDottedText : list byte := [x62; x64].
Definition besidePlainText : list byte := [x62; x70].

Definition nestedJSON : JSON :=
  tableJSON [(dottedInsideText, mkMap dottedInside);
             (plainInsideText, mkMap plainInside);
             (deepDottedText, mkMap deepDotted);
             (deepPlainText, mkMap deepPlain);
             (besideDottedText, mkMap besideDotted);
             (besidePlainText, mkMap besidePlain)].

(** The document and file of the test "navigate through non-object". *)
Definition simpleDoc : gmap string Value :=
  {[ "simple" := VString "value" ]}.

Definition simpleText : list byte := [x73].

Definition simpleJSON : JSON := tableJSON [(simpleText, mkMap simpleDoc)].

(** The document of the test "add existing key should fail". *)
Definition dashboardDoc : gmap string Value :=
  {[ "dashboard" := VObject {[ "title" := VString "Dashboard" ]} ]}.

Definition dashboardText : list byte := [x64; x61; x73; x68].

Definition dashboardJSON : JSON := tableJSON [(dashboardText, mkMap dashboardDoc)].

(** A handler whose cache was filled at time 10, and the file at that
    time and after an edit from outside at time 11. *)
Definition cachedHandler : jsonhandler.JSONHandler :=
  jsonhandler.mkJSONHandler "i18n.json" (mkMap dashboardDoc) 10.

Definition editedDoc : gmap string Value :=
  {[ "key" := VString "modified" ]}.

Definition editedText : list byte := [x65; x64].

Definition cacheJSON : JSON :=
  tableJSON [(dashboardText, mkMap dashboardDoc); (editedText, mkMap editedDoc)].

(** The table of the test of [getLineColumn], on its three lines of text. *)
Definition threeLines : list byte :=
  [x7b; x0a; x20; x20; x22; x6b; x65; x79; x22; x3a; x20; x22; x76; x61; x6c;
   x75; x65; x22; x2c; x0a; x20; x20; x22; x65; x72; x72; x6f; x72; x22].

(** A parser that reports the end of the input for every text. *)
Definition truncatedJSON : JSON :=
  {| Unmarshal_map _ := UnmarshalMapError "unexpected end of JSON input";
     Unmarshal_any bs :=
       SyntaxError "unexpected end of JSON input" (Z.of_nat (length bs));
     Encode _ _ := [] |}.

(** A document with an object under "a", the file that holds it, and the
    texts of the documents the operations below write. *)
Definition underA : gmap string Value :=
  {[ "a" := VObject {[ "x" := number 1 ]} ]}.

Definition movedUnderA : gmap string Value :=
  {[ "a" := VObject {[ "b" := VObject {[ "x" := number 1 ]} ]} ]}.

Definition underAText : list byte := [x61].
Definition emptyText : list byte := [x7b; x7d].
Definition movedText : list byte := [x61; x62].

Definition renameJSON : JSON :=
  tableJSON [(underAText, mkMap underA); (emptyText, mkMap ∅);
             (movedText, mkMap movedUnderA)].

(** A document with an object under "a", "b", "c" and, in the root, the
    key "a.b" with its dots. *)
Definition twoParents : gmap string Value :=
  {[ "a.b" := VObject {[ "c" := number 1 ]};
     "a" := VObject {[ "b" := VObject {[ "c" := VObject {[ "x" := number 1 ]} ]} ]} ]}.

Definition twoParentsText : list byte := [x74; x77; x6f].

Definition twoParentsJSON : JSON := tableJSON [(twoParentsText, mkMap twoParents)].

(** A document where "title" moves to "heading", and the texts of the
    documents written on the way. *)
Definition titleDoc : gmap string Value :=
  {[ "title" := VString "Dashboard"; "other" := VNull ]}.

Definition bothDoc : gmap string Value :=
  {[ "title" := VString "Dashboard"; "heading" := VString "Dashboard";
     "other" := VNull ]}.

Definition headingDoc : gmap string Value :=
  {[ "heading" := VString "Dashboard"; "other" := VNull ]}.

Definition titleJSON : JSON :=
  tableJSON [([x74], mkMap titleDoc); ([x62], mkMap bothDoc);
             ([x68], mkMap headingDoc)].

(** A document with a literal dotted key, as in the test data of
    [operations], and the document with both readings of "a.b" after
    the nested one has been overwritten. *)
Definition dottedDoc : gmap string Value :=
  {[ "simple" := VString "value";
     "key.with.dots" := VString "dotted key value" ]}.

Definition dottedText : list byte := [x64; x6f; x74].

Definition bothWaysUpdated : gmap string Value :=
  {[ "a.b" := VString "literal";
     "a" := VObject {[ "b" := VString "new" ]} ]}.

Definition updatedText : list byte := [x75; x70].

Definition updateJSON : JSON :=
  tableJSON [(dottedText, mkMap dottedDoc); (bothWaysText, mkMap bothWays);
             (updatedText, mkMap bothWaysUpdated)].

(** ** Definitions used to state the further properties *)

(** No key of the object [m] has a dot in it. *)
Definition dot_free_keys (m : gmap string Value) : Prop :=
  ∀ k, is_Some (m !! k) → strings.ContainsByte k dot = false.

(** [visit] is an order in which [range] can go over a map: every key
    once. *)
Definition visits_each_key_once (visit : gmap string Value → list string) : Prop :=
  ∀ m, NoDup (visit m) ∧ ∀ k, k ∈ visit m ↔ is_Some (m !! k).

(** One such order. *)
Definition listedVisit (m : gmap string Value) : list string :=
  (map_to_list m).*1.

(** The sample document of the tests of [operations], in part. *)
Definition sampleDoc : gmap string Value :=
  {[ "dashboard" := VObject {[ "title" := VString "Dashboard";
                               "stats" := VObject {[ "users" := VString "Total Users" ]} ]};
     "alerts" := VObject {[ "success" := VString "Operation completed successfully" ]};
     "count" := number 42 ]}.

Definition sampleText : list byte := [x73; x61; x6d].

(** A document where "count" is a number, and the documents written by
    adding "dashboard.subtitle" and by updating or removing
    "dashboard.title". *)
Definition sampleAdded : gmap string Value :=
  {[ "dashboard" := VObject {[ "title" := VString "Dashboard";
                               "subtitle" := VString "Overview";
                               "stats" := VObject {[ "users" := VString "Total Users" ]} ]};
     "alerts" := VObject {[ "success" := VString "Operation completed successfully" ]};
     "count" := number 42 ]}.

Definition sampleUpdated : gmap string Value :=
  {[ "dashboard" := VObject {[ "title" := VString "Control Panel";
                               "stats" := VObject {[ "users" := VString "Total Users" ]} ]};
     "alerts" := VObject {[ "success" := VString "Operation completed successfully" ]};
     "count" := number 42 ]}.

Definition sampleRemoved : gmap string Value :=
  {[ "dashboard" := VObject {[ "stats" := VObject {[ "users" := VString "Total Users" ]} ]};
     "alerts" := VObject {[ "success" := VString "Operation completed successfully" ]};
     "count" := number 42 ]}.

Definition sampleJSON : JSON :=
  tableJSON [(sampleText, mkMap sampleDoc); ([x61; x64], mkMap sampleAdded);
             ([x75; x70; x64], mkMap sampleUpdated);
             ([x72; x65; x6d], mkMap sampleRemoved)].

Definition sampleFS : gmap string Entry := oneFile "i18n.json" sampleText 10.

(** The document written by renaming "dashboard.title" to
    "dashboard.heading". *)
Definition sampleRenamed : gmap string Value :=
  {[ "dashboard" := VObject {[ "heading" := VString "Dashboard";
                               "stats" := VObject {[ "users" := VString "Total Users" ]} ]};
     "alerts" := VObject {[ "success" := VString "Operation completed successfully" ]};
     "count" := number 42 ]}.

Definition sampleRenameJSON : JSON :=
  tableJSON [(sampleText, mkMap sampleDoc); ([x72; x65; x6e], mkMap sampleRenamed)].

(** A file that holds [null], which parses to a nil map. *)
Definition nullText : list byte := [x6e; x75; x6c; x6c].

Definition nullJSON : JSON := tableJSON [(nullText, nilMap)].

Definition nullFS : gmap string Entry := oneFile "null.json" nullText 10.

(** * Properties *)

(** ** Splitting and joining *)

Lemma Split_not_nil s sep : strings.Split s sep ≠ [].
Proof.
  destruct s as [|c rest]; simpl; [done|].
  case_decide; [done|]. by destruct (strings.Split rest sep).
Qed.

Lemma Split_cons_sep rest sep :
  strings.Split (String sep rest) sep = "" :: strings.Split rest sep.
Proof. simpl. by rewrite decide_True. Qed.

(** A piece without the separator, the separator, and the rest. *)
Lemma Split_app_sep s1 s2 sep :
  strings.ContainsByte s1 sep = false →
  strings.Split (s1 +:+ String sep s2) sep = s1 :: strings.Split s2 sep.
Proof.
  induction s1 as [|c s1 IH]; intros Hno.
  - apply Split_cons_sep.
  - simpl in Hno. change (String c s1 +:+ String sep s2)
      with (String c (s1 +:+ String sep s2)).
    simpl. destruct (decide (c = sep)) as [|Hne]; [done|].
    by rewrite IH.
Qed.

Lemma ContainsByte_not_empty s sep :
  strings.ContainsByte s sep = true → s ≠ "".
Proof. by destruct s. Qed.

Lemma SplitPath_not_nil keyPath :
  keyPath ≠ "" → pathresolver.SplitPath keyPath ≠ [].
Proof.
  intros Hne. unfold pathresolver.SplitPath.
  rewrite decide_False by done. apply Split_not_nil.
Qed.

Lemma ValidatePath_None keyPath :
  keyPath ≠ "" → pathresolver.ValidatePath keyPath = None.
Proof. intros Hne. unfold pathresolver.ValidatePath. by rewrite decide_False. Qed.

Lemma ValidatePath_empty :
  pathresolver.ValidatePath "" =
  Some (Errorf_w PR_ErrInvalidPath ": Key path cannot be empty").
Proof. reflexivity. Qed.

Lemma ValidatePath_Some keyPath err :
  pathresolver.ValidatePath keyPath = Some err → keyPath = "".
Proof. unfold pathresolver.ValidatePath. by case_decide. Qed.

(** ** The navigation loop *)

Section Navigation.
Import pathresolver.
Implicit Types (keys rest pre post : list string) (ref : Ref).
Implicit Types (current x : Value) (m : gmap string Value).

(** The loop returns exactly when every key is found on the way. *)
Lemma navigate_loop_Ok keyPath keys i rest ref current :
  ∀ r x, navigate_loop keyPath keys i rest ref current = Ok (r, x) ↔
         descend rest current = Some x ∧ r = (ref ++ rest)%list.
Proof.
  revert i ref current.
  induction rest as [|key rest IH]; intros i ref current r x; simpl.
  - rewrite app_nil_r. split; [intros [= <- <-]|intros [[= <-] ->]]; done.
  - destruct current as [| | | | |m]; try (split; [done|intros [? _]; done]).
    destruct (m !! key) as [child|]; [|split; [done|intros [? _]; done]].
    rewrite IH, <- app_assoc. done.
Qed.

Lemma navigate_loop_is_Ok keyPath keys i rest ref current :
  is_Ok (navigate_loop keyPath keys i rest ref current)
  = bool_decide (is_Some (descend rest current)).
Proof.
  destruct (navigate_loop keyPath keys i rest ref current) as [[r x]| |] eqn:E;
    simpl; symmetry.
  - apply navigate_loop_Ok in E as [E _]. apply bool_decide_eq_true. eauto.
  - apply bool_decide_eq_false. intros [x Hx].
    pose proof (proj2 (navigate_loop_Ok keyPath keys i rest ref current _ x)
                  (conj Hx eq_refl)) as E'. congruence.
  - apply bool_decide_eq_false. intros [x Hx].
    pose proof (proj2 (navigate_loop_Ok keyPath keys i rest ref current _ x)
                  (conj Hx eq_refl)) as E'. congruence.
Qed.

(** After the keys [pre] have been found, the loop goes on with the
    rest, its index advanced by their number. *)
Lemma navigate_loop_app keyPath keys pre post :
  ∀ i ref current x,
    descend pre current = Some x →
    navigate_loop keyPath keys i (pre ++ post) ref current
    = navigate_loop keyPath keys (i + length pre) post (ref ++ pre)%list x.
Proof.
  induction pre as [|key pre IH]; intros i ref current x Hd; simpl in *.
  - injection Hd as ->. by rewrite Nat.add_0_r, app_nil_r.
  - destruct current as [| | | | |m]; try done.
    destruct (m !! key) as [child|]; [|done].
    rewrite (IH _ _ _ _ Hd), <- app_assoc. simpl. by rewrite Nat.add_succ_r.
Qed.

Lemma descend_app pre post current :
  descend (pre ++ post) current = descend pre current ≫= descend post.
Proof.
  revert current. induction pre as [|key pre IH]; intros current; simpl; [done|].
  destruct current as [| | | | |m]; try done.
  by destruct (m !! key).
Qed.

(** What [NavigateToKey] returns, case by case. *)
Lemma NavigateToKey_literal m keyPath v :
  keyPath ≠ "" → m !! keyPath = Some v →
  NavigateToKey (VObject m) keyPath = Ok v.
Proof.
  intros Hne Hm. unfold NavigateToKey, NavigateToKeyRef.
  by rewrite ValidatePath_None, Hm by done.
Qed.

Lemma NavigateToKey_split m keyPath :
  keyPath ≠ "" → m !! keyPath = None →
  NavigateToKey (VObject m) keyPath
  = snd <$> navigate_loop keyPath (SplitPath keyPath) 0 (SplitPath keyPath) []
              (VObject m).
Proof.
  intros Hne Hm. unfold NavigateToKey, NavigateToKeyRef.
  by rewrite ValidatePath_None, Hm by done.
Qed.

Lemma KeyExists_spec data keyPath :
  KeyExists data keyPath = is_Ok (NavigateToKey data keyPath).
Proof.
  unfold KeyExists, NavigateToKey, NavigateToKeyRef.
  destruct (ValidatePath keyPath); [done|].
  destruct data as [| | | | |m]; try done.
  by destruct (m !! keyPath).
Qed.

(** A path exists when it is a key of the root or its split path can be
    followed down. *)
Lemma KeyExists_descend m keyPath :
  keyPath ≠ "" →
  KeyExists (VObject m) keyPath = true ↔
  is_Some (m !! keyPath) ∨ is_Some (descend (SplitPath keyPath) (VObject m)).
Proof.
  intros Hne. unfold KeyExists. rewrite ValidatePath_None by done.
  destruct (m !! keyPath) as [v|] eqn:Hm.
  - split; [eauto|done].
  - rewrite NavigateToKey_split by done.
    destruct (navigate_loop _ _ _ _ _ _) as [[r x]| |] eqn:E; simpl.
    + apply navigate_loop_Ok in E as [E _]. split; [eauto|done].
    + split; [done|]. intros [[? ?]|[x Hx]]; [done|].
      pose proof (proj2 (navigate_loop_Ok keyPath (SplitPath keyPath) 0
        (SplitPath keyPath) [] (VObject m) _ x) (conj Hx eq_refl)). congruence.
    + split; [done|]. intros [[? ?]|[x Hx]]; [done|].
      pose proof (proj2 (navigate_loop_Ok keyPath (SplitPath keyPath) 0
        (SplitPath keyPath) [] (VObject m) _ x) (conj Hx eq_refl)). congruence.
Qed.

Lemma KeyExists_nil keyPath : KeyExists (toValue nilMap) keyPath = false.
Proof.
  unfold KeyExists, toValue; simpl.
  destruct (ValidatePath keyPath) eqn:Hv; [done|].
  rewrite lookup_empty.
  assert (keyPath ≠ "") as Hne.
  { intros ->. by rewrite ValidatePath_empty in Hv. }
  rewrite NavigateToKey_split by done.
  destruct (SplitPath keyPath) as [|key keys] eqn:Hs.
  - by apply SplitPath_not_nil in Hs.
  - simpl. by rewrite lookup_empty.
Qed.

End Navigation.

(** ** Loading a document in an operation *)

Section Loading.
Context (J : JSON).
Implicit Types (fs : gmap string Entry) (data : GoMap).

(** An operation starts from an empty cache, so it reads the file. *)
Lemma load_Ok fs filePath data :
  operations.load J fs filePath = Ok data ↔
  ∃ f, fs !! filePath = Some (Regular f) ∧ readError f = None
       ∧ Unmarshal_map J (content f) = UnmarshalledMap data.
Proof.
  unfold operations.load, jsonhandler.LoadJSON, os_Stat, os_ReadFile; simpl.
  destruct (fs !! filePath) as [[f|msg]|]; simpl.
  - destruct (readError f) as [msg|] eqn:HR; simpl.
    + split; [done|]. intros (f' & [= <-] & ? & _). congruence.
    + destruct (Unmarshal_map J (content f)) as [msg|d] eqn:HU; simpl.
      * split; [done|]. intros (f' & [= <-] & _ & HU'). congruence.
      * split.
        -- intros [= ->]. eauto.
        -- intros (f' & [= <-] & _ & HU'). congruence.
  - split; [done|]. by intros (f' & ? & _).
  - split; [done|]. by intros (f' & ? & _).
Qed.

Lemma load_not_Panic fs filePath msg :
  operations.load J fs filePath ≠ Panic msg.
Proof.
  unfold operations.load, jsonhandler.LoadJSON, os_Stat, os_ReadFile; simpl.
  destruct (fs !! filePath) as [[f|?]|]; simpl; try done.
  destruct (readError f); simpl; [done|].
  by destruct (Unmarshal_map J (content f)).
Qed.

(** The errors of a load are those of the file, never of a key path. *)
Lemma load_Err fs filePath err :
  operations.load J fs filePath = Err err →
  wraps err = Some JH_ErrFileNotFound ∨ wraps err = Some JH_ErrFileReadError
  ∨ wraps err = Some JH_ErrInvalidJSON.
Proof.
  unfold operations.load, jsonhandler.LoadJSON, os_Stat, os_ReadFile; simpl.
  destruct (fs !! filePath) as [[f|?]|]; simpl.
  - destruct (readError f); simpl; [intros [= <-]; auto|].
    destruct (Unmarshal_map J (content f)); simpl; [|done].
    intros [= <-]; auto.
  - intros [= <-]; auto.
  - intros [= <-]; auto.
Qed.

(** The handler an operation saves on is the one of its file. *)
Lemma loadedHandler_filePath fs filePath :
  jsonhandler.filePath (operations.loadedHandler J fs filePath) = filePath.
Proof.
  unfold operations.loadedHandler, jsonhandler.LoadJSON, os_Stat, os_ReadFile.
  simpl. destruct (fs !! filePath) as [[f|?]|]; simpl; try done.
  destruct (readError f); simpl; [done|].
  by destruct (Unmarshal_map J (content f)).
Qed.

Lemma GetKey_is_Ok fs filePath keyPath :
  is_Ok (operations.GetKey J fs filePath keyPath)
  = match operations.load J fs filePath with
    | Ok data => is_Ok (pathresolver.NavigateToKey (toValue data) keyPath)
    | _ => false
    end.
Proof.
  unfold operations.GetKey.
  destruct (operations.load J fs filePath) as [data| |]; try done.
  destruct (pathresolver.NavigateToKey (toValue data) keyPath) as [v|err|];
    try done.
  by repeat case_match.
Qed.

End Loading.

(** ** Existence and lookup agree *)

(** C10. The existence check answers true exactly when the lookup of the
    same path in the same document returns a value: as functions on a
    document in memory, for every value [data] and path, and as operations
    on a file. This covers the empty path (false, and an error), a literal
    dotted key (true, and its value) and a path through a value that is not
    an object (false, and an error). *)
Theorem KeyExists_agrees_with_lookup (J : JSON) (fs : gmap string Entry)
    (filePath keyPath : string) :
  (∀ data : Value,
     pathresolver.KeyExists data keyPath
     = is_Ok (pathresolver.NavigateToKey data keyPath))
  ∧ returns_true (operations.KeyExists J fs filePath keyPath)
    = is_Ok (operations.GetKey J fs filePath keyPath).
Proof.
  split; [intros data; apply KeyExists_spec|].
  rewrite GetKey_is_Ok. unfold operations.KeyExists.
  destruct (operations.load J fs filePath) as [data| |]; simpl; try done.
  apply KeyExists_spec.
Qed.

(** The three cases named by C10, on a document in memory. *)
Example KeyExists_agrees_cases :
  let data := VObject {[ "simple" := VString "value";
                         "key.with.dots" := VString "dotted key value" ]} in
  (pathresolver.KeyExists data "" = false
   ∧ is_Ok (pathresolver.NavigateToKey data "") = false)
  ∧ (pathresolver.KeyExists data "key.with.dots" = true
     ∧ pathresolver.NavigateToKey data "key.with.dots"
       = Ok (VString "dotted key value"))
  ∧ (pathresolver.KeyExists data "simple.invalid" = false
     ∧ is_Ok (pathresolver.NavigateToKey data "simple.invalid") = false).
Proof. vm_compute. done. Qed.

(** ** Literal keys of the root *)

(** C1. When the root object of the loaded document has the key [k], and
    [k] has a dot in it, [GetKey] with the path [k] returns the entry of
    the root for [k], whatever splitting [k] at its dots would lead to. *)
Theorem GetKey_literal_root_key (J : JSON) (fs : gmap string Entry)
    (filePath k : string) (data : GoMap) (v : Value) :
  operations.load J fs filePath = Ok data →
  strings.ContainsByte k dot = true →
  entries data !! k = Some v →
  operations.GetKey J fs filePath k = Ok v.
Proof.
  intros Hload Hdot Hk. unfold operations.GetKey. rewrite Hload.
  unfold toValue.
  by rewrite (NavigateToKey_literal _ _ v) by eauto using ContainsByte_not_empty.
Qed.

Lemma GetKey_literal_root_key_witness :
  descend ["a"; "b"] (VObject bothWays) = Some (VString "nested")
  ∧ operations.GetKey bothWaysJSON (oneFile "i18n.json" bothWaysText 10)
      "i18n.json" "a.b" = Ok (VString "literal").
Proof.
  split; [reflexivity|].
  apply (GetKey_literal_root_key bothWaysJSON _ _ _ (mkMap bothWays));
    reflexivity.
Defined.

(** ** Dotted keys below the root *)

Lemma append_sep_not_empty s1 s2 c : s1 +:+ String c s2 ≠ "".
Proof. by destruct s1. Qed.

Lemma SplitPath_app_dot k1 k2 :
  strings.ContainsByte k1 dot = false →
  pathresolver.SplitPath (k1 +:+ "." +:+ k2)
  = k1 :: firstSegment k2 :: tail (strings.Split k2 dot).
Proof.
  intros Hno. unfold pathresolver.SplitPath.
  change (k1 +:+ "." +:+ k2) with (k1 +:+ String dot k2).
  rewrite decide_False by apply append_sep_not_empty.
  rewrite Split_app_sep by done. unfold firstSegment.
  pose proof (Split_not_nil k2 dot). by destruct (strings.Split k2 dot).
Qed.

(** ** A value that is not an object on the way *)

(** C3 as it is stated fails: the lookup of "simple.invalid" in a
    document whose "simple" is a string fails with PATH_ERROR, an error
    that does not wrap KEY_NOT_FOUND and names 'simple', the part of the
    path walked so far, not the whole path. *)
Lemma GetKey_through_non_object_not_KEY_NOT_FOUND :
  ∃ err,
    pathresolver.NavigateToKey (VObject simpleDoc) "simple.invalid"
    = Err (Errorf_w PR_ErrPathError
             ": Cannot navigate through non-object value at 'simple'")
    ∧ operations.GetKey simpleJSON (oneFile "doc.json" simpleText 10)
        "doc.json" "simple.invalid" = Err err
    ∧ kind err = "PATH_ERROR"
    ∧ kind err ≠ "KEY_NOT_FOUND"
    ∧ errors_Is err OP_ErrKeyNotFound = false
    ∧ errors_Is err PR_ErrKeyNotFound = false
    ∧ message err
      = "PATH_ERROR: PATH_ERROR: Cannot navigate through non-object value at 'simple'".
Proof. eexists. vm_compute. repeat split; done. Qed.

(** C3, amended. Let the path not be a key of the root, and let the first
    [i] segments of the split path lead to a value [x], with segments
    left. If [x] is not an object, [NavigateToKey] fails with PATH_ERROR
    and its message names the first [i] segments joined by dots;
    [GetKey] turns this into an error that wraps no sentinel, with
    PATH_ERROR put in front of that message. If [x] is an object without
    the next segment, both fail with KEY_NOT_FOUND and name the whole
    path. *)
Theorem GetKey_through_non_object (J : JSON) (fs : gmap string Entry)
    (filePath keyPath : string) (data : GoMap) (i : nat) (x : Value) :
  let keys := pathresolver.SplitPath keyPath in
  let partialPath := strings.Join (take i keys) "." in
  operations.load J fs filePath = Ok data →
  keyPath ≠ "" →
  entries data !! keyPath = None →
  (i < length keys)%nat →
  descend (take i keys) (toValue data) = Some x →
  (is_object x = false →
     pathresolver.NavigateToKey (toValue data) keyPath
     = Err (Errorf_w PR_ErrPathError
              (": Cannot navigate through non-object value at '"
               +:+ partialPath +:+ "'"))
     ∧ operations.GetKey J fs filePath keyPath
       = Err (Errorf ("PATH_ERROR: PATH_ERROR"
                      +:+ ": Cannot navigate through non-object value at '"
                      +:+ partialPath +:+ "'")))
  ∧ (∀ m, x = VObject m → m !! default "" (keys !! i) = None →
     pathresolver.NavigateToKey (toValue data) keyPath
     = Err (Errorf_w PR_ErrKeyNotFound (": Key '" +:+ keyPath +:+ "' not found"))
     ∧ operations.GetKey J fs filePath keyPath
       = Err (Errorf_w OP_ErrKeyNotFound
                (": Key '" +:+ keyPath +:+ "' not found in " +:+ filePath))).
Proof.
  intros keys partialPath Hload Hne Hwhole Hi Hd.
  assert (pathresolver.NavigateToKey (toValue data) keyPath
          = snd <$> pathresolver.navigate_loop keyPath keys i (drop i keys)
                      (take i keys) x) as Hnav.
  { unfold toValue. rewrite NavigateToKey_split by done. fold keys.
    rewrite <- (take_drop i keys) at 2.
    rewrite (navigate_loop_app _ _ _ _ _ _ _ x) by done.
    rewrite length_take, Nat.min_l by lia. done. }
  destruct (drop i keys) as [|key rest] eqn:Hdrop.
  { apply (f_equal length) in Hdrop. rewrite length_drop in Hdrop.
    simpl in Hdrop. lia. }
  assert (keys !! i = Some key) as Hkey.
  { rewrite <- (take_drop i keys), lookup_app_r by (rewrite length_take; lia).
    rewrite length_take, Nat.min_l, Nat.sub_diag, Hdrop by lia. done. }
  unfold operations.GetKey. rewrite Hload, Hnav. split.
  - intros Hx. destruct x; try done.
  - intros m -> Hm. rewrite Hkey in Hm. simpl in *. by rewrite Hm.
Qed.

Lemma GetKey_through_non_object_witness :
  (pathresolver.NavigateToKey (VObject simpleDoc) "simple.invalid.key"
   = Err (Errorf_w PR_ErrPathError
            ": Cannot navigate through non-object value at 'simple'")
   ∧ operations.GetKey simpleJSON (oneFile "doc.json" simpleText 10)
       "doc.json" "simple.invalid.key"
     = Err (Errorf
              "PATH_ERROR: PATH_ERROR: Cannot navigate through non-object value at 'simple'"))
  ∧ (pathresolver.NavigateToKey (VObject simpleDoc) "other.key"
     = Err (Errorf_w PR_ErrKeyNotFound ": Key 'other.key' not found")
     ∧ operations.GetKey simpleJSON (oneFile "doc.json" simpleText 10)
         "doc.json" "other.key"
       = Err (Errorf_w OP_ErrKeyNotFound
                ": Key 'other.key' not found in doc.json")).
Proof.
  split.
  - apply (GetKey_through_non_object simpleJSON (oneFile "doc.json" simpleText 10)
             "doc.json" "simple.invalid.key" (mkMap simpleDoc) 1
             (VString "value")); try reflexivity; try done.
    vm_compute. lia.
  - apply (proj2 (GetKey_through_non_object simpleJSON
                    (oneFile "doc.json" simpleText 10) "doc.json" "other.key"
                    (mkMap simpleDoc) 0 (VObject simpleDoc)
                    eq_refl ltac:(done) eq_refl ltac:(vm_compute; lia) eq_refl)
             simpleDoc); reflexivity.
Defined.

(** ** The existence check as an operation *)

(** C4 as it is stated fails: on the empty path the operation returns
    false and no error, where the claim has it fail with INVALID_PATH. *)
Lemma KeyExists_empty_path_no_error :
  pathresolver.ValidatePath ""
  = Some (Errorf_w PR_ErrInvalidPath ": Key path cannot be empty")
  ∧ pathresolver.KeyExists (VObject simpleDoc) "" = false
  ∧ operations.KeyExists simpleJSON (oneFile "doc.json" simpleText 10)
      "doc.json" "" = Ok false
  ∧ operations.KeyExists simpleJSON (oneFile "doc.json" simpleText 10)
      "doc.json" ""
    ≠ Err (Errorf_w OP_ErrInvalidPath
             ": INVALID_PATH: Key path cannot be empty").
Proof. split_and!; try reflexivity. discriminate. Qed.

(** C4, amended. When the file loads, [KeyExists] returns a boolean and no
    error: true exactly when the lookup of the path succeeds, so false for
    an absent key, and false for the empty path. When it returns an error,
    the error is the one of loading the file (file not found, read error
    or invalid JSON) and never INVALID_PATH. *)
Theorem KeyExists_fails_only_on_load (J : JSON) (fs : gmap string Entry)
    (filePath keyPath : string) :
  (∀ data, operations.load J fs filePath = Ok data →
     operations.KeyExists J fs filePath keyPath
     = Ok (is_Ok (pathresolver.NavigateToKey (toValue data) keyPath))
     ∧ operations.KeyExists J fs filePath "" = Ok false)
  ∧ (∀ err, operations.KeyExists J fs filePath keyPath = Err err →
       operations.load J fs filePath = Err err
       ∧ errors_Is err OP_ErrInvalidPath = false
       ∧ errors_Is err PR_ErrInvalidPath = false
       ∧ (wraps err = Some JH_ErrFileNotFound
          ∨ wraps err = Some JH_ErrFileReadError
          ∨ wraps err = Some JH_ErrInvalidJSON)).
Proof.
  unfold operations.KeyExists. split.
  - intros data ->. by rewrite KeyExists_spec.
  - intros err. destruct (operations.load J fs filePath) as [data|e|] eqn:Hload;
      try done.
    intros [= ->]. pose proof (load_Err _ _ _ _ Hload) as Hw.
    unfold errors_Is. repeat split; try done;
      apply bool_decide_eq_false; destruct Hw as [->|[->| ->]]; done.
Qed.

Lemma KeyExists_fails_only_on_load_witness :
  (operations.KeyExists simpleJSON (oneFile "doc.json" simpleText 10)
     "doc.json" "absent.key" = Ok false
   ∧ operations.KeyExists simpleJSON (oneFile "doc.json" simpleText 10)
       "doc.json" "" = Ok false)
  ∧ operations.load simpleJSON ∅ "doc.json"
    = Err (Errorf_w JH_ErrFileNotFound ": File doc.json not found").
Proof.
  split.
  - apply (proj1 (KeyExists_fails_only_on_load simpleJSON
                    (oneFile "doc.json" simpleText 10) "doc.json" "absent.key")
             (mkMap simpleDoc)).
    reflexivity.
  - apply (proj2 (KeyExists_fails_only_on_load simpleJSON ∅ "doc.json" "absent.key")
             (Errorf_w JH_ErrFileNotFound ": File doc.json not found")).
    reflexivity.
Defined.

(** ** Saving *)

Section Saving.
Context (J : JSON).
Implicit Types (fs : gmap string Entry) (h : jsonhandler.JSONHandler).

(** A save that returns an error leaves the directory and the handler
    as they were. *)
Lemma SaveJSON_error io h fs data indent err h' fs' :
  jsonhandler.SaveJSON J io h fs data indent = (Some err, h', fs') →
  fs' = fs ∧ h' = h ∧ wraps err = Some JH_ErrFileWriteError.
Proof.
  unfold jsonhandler.SaveJSON, failsAt.
  destruct (fs !! tempName io) as [e|] eqn:Ht;
    destruct (failure io) as [[[] msg]|]; simpl;
    intros [= <- <- <-]; repeat split;
    rewrite ?insert_insert_eq, ?delete_insert_eq; by apply delete_id.
Qed.

(** A save returns no error exactly when no step fails and the
    temporary name is new; the file is then at the path of the handler,
    and the temporary name is gone. *)
Lemma SaveJSON_success io h fs data indent h' fs' :
  jsonhandler.SaveJSON J io h fs data indent = (None, h', fs') ↔
  failure io = None ∧ fs !! tempName io = None
  ∧ fs' = delete (tempName io)
            (<[jsonhandler.filePath h := written J io data indent]> fs)
  ∧ h' = jsonhandler.mkJSONHandler (jsonhandler.filePath h) data (writeTime io).
Proof.
  unfold jsonhandler.SaveJSON, failsAt, written, os_Stat.
  destruct (fs !! tempName io) as [e|] eqn:Ht;
    destruct (failure io) as [[[] msg]|]; simpl;
    try (split; [done|intros (? & ? & _); done]).
  rewrite lookup_insert_eq, insert_insert_eq, delete_insert_eq. simpl.
  rewrite (delete_id fs) by done.
  split; [intros [= <- <-]; done|intros (_ & _ & -> & ->); done].
Qed.

Lemma save_error io fs filePath data opError :
  let r := operations.save J io fs filePath data opError in
  is_Ok r.1 = true ∨ r.2 = fs.
Proof.
  unfold operations.save.
  destruct (jsonhandler.SaveJSON _ _ _ _ _ _) as [[[err|] h'] fs'] eqn:E; simpl.
  - right. by apply SaveJSON_error in E as [-> _].
  - by left.
Qed.

(** The save of an operation on a file that is there: what is on disk
    afterwards is the encoded document. *)
Lemma save_Ok io fs filePath data opError fs' :
  is_Some (fs !! filePath) →
  operations.save J io fs filePath data opError = (Ok (), fs') ↔
  failure io = None ∧ fs !! tempName io = None
  ∧ fs' = <[filePath := written J io data 2]> fs.
Proof.
  intros Hfile. unfold operations.save.
  destruct (jsonhandler.SaveJSON _ _ _ _ _ _) as [[[err|] h'] fs''] eqn:E; simpl.
  - split; [done|]. intros (Hf & Ht & _).
    pose proof (proj2 (SaveJSON_success io (operations.loadedHandler J fs filePath)
      fs data 2 _ _) (conj Hf (conj Ht (conj eq_refl eq_refl)))) as E'.
    congruence.
  - apply SaveJSON_success in E as (Hf & Ht & -> & _).
    rewrite loadedHandler_filePath.
    assert (tempName io ≠ filePath) as Hne.
    { intros Heq. rewrite Heq in Ht. rewrite Ht in Hfile. by destruct Hfile. }
    rewrite delete_insert_ne, delete_id by done.
    split; [intros [= <-]; done|intros (_ & _ & ->); done].
Qed.

End Saving.

(** ** Mutations that fail *)

Section FailedMutations.
Context (J : JSON).
Implicit Types (fs : gmap string Entry) (io : WriteIO).

Local Ltac failed_or_saved :=
  repeat match goal with
         | |- context [operations.save] => apply save_error
         | |- _ ∨ (?fs = ?fs) => by right
         | |- context [match ?x with _ => _ end] => destruct x; simpl
         | |- context [if ?b then _ else _] => destruct b; simpl
         end.

Lemma AddKey_fails_unchanged io fs filePath keyPath value :
  let r := operations.AddKey J io fs filePath keyPath value in
  is_Ok r.1 = true ∨ r.2 = fs.
Proof. unfold operations.AddKey. simpl. failed_or_saved. Qed.

Lemma UpdateKey_fails_unchanged io fs filePath keyPath value :
  let r := operations.UpdateKey J io fs filePath keyPath value in
  is_Ok r.1 = true ∨ r.2 = fs.
Proof. unfold operations.UpdateKey. simpl. failed_or_saved. Qed.

Lemma RenameKey_fails_unchanged io fs filePath oldPath newPath :
  let r := operations.RenameKey J io fs filePath oldPath newPath in
  is_Ok r.1 = true ∨ r.2 = fs.
Proof. unfold operations.RenameKey. simpl. failed_or_saved. Qed.

Lemma RemoveKey_fails_unchanged io fs filePath keyPath :
  let r := operations.RemoveKey J io fs filePath keyPath in
  is_Ok r.1 = true ∨ r.2 = fs.
Proof.
  unfold operations.RemoveKey. simpl.
  destruct (operations.load J fs filePath) as [data| |]; simpl; [|by right..].
  destruct (pathresolver.ValidatePath keyPath); simpl; [by right|].
  destruct (negb _); simpl; [by right|].
  destruct (pathresolver.RemoveKeyAtPath _ _) as [[removed data']| |]; simpl;
    [|by right..].
  pose proof (save_error J io fs filePath (mkMap data') OP_ErrRemoveKeyError) as Hs.
  simpl in Hs. by destruct (operations.save _ _ _ _ _ _) as [[?| |] fs'].
Qed.

End FailedMutations.

(** C6. When the path exists in the loaded document, [AddKey] fails with
    KEY_EXISTS and the directory, with the bytes of the file, is as it
    was. And each of the four mutating operations, on any file and with
    any behaviour of the file system during its save, either succeeds or
    leaves the directory as it was: this covers a failure before the save
    and a failure of the save itself. *)
Theorem AddKey_existing_path_unchanged (J : JSON) (io : WriteIO)
    (fs : gmap string Entry) (filePath keyPath : string) (value : Value)
    (data : GoMap) :
  operations.load J fs filePath = Ok data →
  pathresolver.KeyExists (toValue data) keyPath = true →
  operations.AddKey J io fs filePath keyPath value
  = (Err (Errorf_w OP_ErrKeyExists
            (": Key '" +:+ keyPath +:+ "' already exists in " +:+ filePath)), fs)
  ∧ onDisk (operations.AddKey J io fs filePath keyPath value).2 filePath
    = onDisk fs filePath
  ∧ (∀ io' fs0 file p v,
       is_Ok (operations.AddKey J io' fs0 file p v).1 = true
       ∨ (operations.AddKey J io' fs0 file p v).2 = fs0)
  ∧ (∀ io' fs0 file p v,
       is_Ok (operations.UpdateKey J io' fs0 file p v).1 = true
       ∨ (operations.UpdateKey J io' fs0 file p v).2 = fs0)
  ∧ (∀ io' fs0 file p q,
       is_Ok (operations.RenameKey J io' fs0 file p q).1 = true
       ∨ (operations.RenameKey J io' fs0 file p q).2 = fs0)
  ∧ (∀ io' fs0 file p,
       is_Ok (operations.RemoveKey J io' fs0 file p).1 = true
       ∨ (operations.RemoveKey J io' fs0 file p).2 = fs0).
Proof.
  intros Hload Hexists.
  assert (operations.AddKey J io fs filePath keyPath value
          = (Err (Errorf_w OP_ErrKeyExists
                    (": Key '" +:+ keyPath +:+ "' already exists in "
                     +:+ filePath)), fs)) as Hadd.
  { unfold operations.AddKey. by rewrite Hload, Hexists. }
  rewrite Hadd. split_and!; try done.
  - intros. apply AddKey_fails_unchanged.
  - intros. apply UpdateKey_fails_unchanged.
  - intros. apply RenameKey_fails_unchanged.
  - intros. apply RemoveKey_fails_unchanged.
Qed.

Lemma AddKey_existing_path_unchanged_witness :
  operations.AddKey dashboardJSON plainWrite
    (oneFile "i18n.json" dashboardText 10) "i18n.json" "dashboard.title"
    (VString "Should Fail")
  = (Err (Errorf_w OP_ErrKeyExists
            ": Key 'dashboard.title' already exists in i18n.json"),
     oneFile "i18n.json" dashboardText 10).
Proof.
  apply (AddKey_existing_path_unchanged dashboardJSON plainWrite
           (oneFile "i18n.json" dashboardText 10) "i18n.json" "dashboard.title"
           (VString "Should Fail") (mkMap dashboardDoc)); reflexivity.
Defined.

(** ** The cache of a handler *)

Section Cache.
Context (J : JSON).
Implicit Types (fs : gmap string Entry) (h : jsonhandler.JSONHandler).

(** A load with the cache allowed, the file being there: it answers from
    the cache when there is an entry and its time is the time of the
    file. *)
Lemma LoadJSON_from_cache h fs f :
  os_Stat fs (jsonhandler.filePath h) = StatInfo f →
  isNil (jsonhandler.cachedData h) = false →
  jsonhandler.fileMTime h = modTime f →
  jsonhandler.LoadJSON J h fs true
  = jsonhandler.mkLoaded (Ok (jsonhandler.cachedData h)) h false.
Proof.
  intros Hstat Hnil Htime. unfold jsonhandler.LoadJSON.
  by rewrite Hstat, Hnil, bool_decide_true.
Qed.

(** Otherwise it reads the file, and a file that can be read and parsed
    becomes the result and the new cache entry. *)
Lemma LoadJSON_reads h fs f :
  os_Stat fs (jsonhandler.filePath h) = StatInfo f →
  isNil (jsonhandler.cachedData h) = true ∨ jsonhandler.fileMTime h ≠ modTime f →
  jsonhandler.didRead (jsonhandler.LoadJSON J h fs true) = true
  ∧ ∀ d, readError f = None →
         Unmarshal_map J (content f) = UnmarshalledMap d →
         jsonhandler.LoadJSON J h fs true
         = jsonhandler.mkLoaded (Ok d)
             (jsonhandler.mkJSONHandler (jsonhandler.filePath h) d (modTime f))
             true.
Proof.
  intros Hstat Hmiss. unfold jsonhandler.LoadJSON.
  rewrite Hstat, andb_true_l.
  assert (negb (isNil (jsonhandler.cachedData h))
          && bool_decide (jsonhandler.fileMTime h = modTime f) = false) as ->.
  { destruct Hmiss as [->|Hne]; [done|].
    rewrite bool_decide_false by done. apply andb_false_r. }
  simpl. unfold os_ReadFile. unfold os_Stat in Hstat.
  destruct (fs !! jsonhandler.filePath h) as [[f'|?]|]; try done.
  injection Hstat as ->. split.
  - destruct (readError f); [done|]. by destruct (Unmarshal_map J (content f)).
  - by intros d -> ->.
Qed.

End Cache.

(** C8. For a handler and a file that is there: [LoadJSON(true)] returns
    without reading the file exactly when the handler has a cache entry
    whose recorded time is the modification time of the file, and it then
    returns that entry; otherwise it reads the file, and the parsed
    content is the result and the new entry. After a [SaveJSON] of a
    document that returns no error, the temporary name not being the
    path of the handler itself, the handler holds the document and the
    modification time of the file now on disk, and [LoadJSON(true)] on it
    returns the document without reading; and when the file is later
    found with another modification time, [LoadJSON(true)] reads it and
    returns what it parses to. When the file is not there or cannot be
    reached, [LoadJSON(true)] returns an error and reads nothing. *)
Theorem LoadJSON_cache_and_SaveJSON (J : JSON) (h : jsonhandler.JSONHandler)
    (fs : gmap string Entry) :
  (∀ f, os_Stat fs (jsonhandler.filePath h) = StatInfo f →
     (jsonhandler.didRead (jsonhandler.LoadJSON J h fs true) = false
      ↔ isNil (jsonhandler.cachedData h) = false
        ∧ jsonhandler.fileMTime h = modTime f)
     ∧ (isNil (jsonhandler.cachedData h) = false
        ∧ jsonhandler.fileMTime h = modTime f →
        jsonhandler.LoadJSON J h fs true
        = jsonhandler.mkLoaded (Ok (jsonhandler.cachedData h)) h false)
     ∧ (∀ d, ¬ (isNil (jsonhandler.cachedData h) = false
                ∧ jsonhandler.fileMTime h = modTime f) →
          readError f = None →
          Unmarshal_map J (content f) = UnmarshalledMap d →
          jsonhandler.LoadJSON J h fs true
          = jsonhandler.mkLoaded (Ok d)
              (jsonhandler.mkJSONHandler (jsonhandler.filePath h) d (modTime f))
              true))
  ∧ (∀ io m indent h' fs',
       tempName io ≠ jsonhandler.filePath h →
       jsonhandler.SaveJSON J io h fs (mkMap m) indent = (None, h', fs') →
       jsonhandler.cachedData h' = mkMap m
       ∧ (∃ f', os_Stat fs' (jsonhandler.filePath h') = StatInfo f'
                ∧ jsonhandler.fileMTime h' = modTime f'
                ∧ content f'
                  = Encode J (mkMap m) (jsonhandler.getIndentString indent))
       ∧ jsonhandler.LoadJSON J h' fs' true
         = jsonhandler.mkLoaded (Ok (mkMap m)) h' false
       ∧ (∀ fs'' f'' d,
            os_Stat fs'' (jsonhandler.filePath h') = StatInfo f'' →
            modTime f'' ≠ jsonhandler.fileMTime h' →
            jsonhandler.didRead (jsonhandler.LoadJSON J h' fs'' true) = true
            ∧ (readError f'' = None →
               Unmarshal_map J (content f'') = UnmarshalledMap d →
               jsonhandler.loadResult (jsonhandler.LoadJSON J h' fs'' true)
               = Ok d)))
  ∧ ((∀ f, os_Stat fs (jsonhandler.filePath h) ≠ StatInfo f) →
     is_Ok (jsonhandler.loadResult (jsonhandler.LoadJSON J h fs true)) = false
     ∧ jsonhandler.didRead (jsonhandler.LoadJSON J h fs true) = false).
Proof.
  split_and!.
  - intros f Hstat.
    destruct (isNil (jsonhandler.cachedData h)) eqn:Hnil;
      [|destruct (decide (jsonhandler.fileMTime h = modTime f)) as [Heq|Hne]].
    + destruct (LoadJSON_reads J h fs f Hstat) as [Hread Hparsed]; [by left|].
      rewrite Hread. split_and!.
      * split; [done|intros [? _]; done].
      * intros [? _]; done.
      * intros d _. apply Hparsed.
    + rewrite (LoadJSON_from_cache J h fs f) by done. simpl. split_and!.
      * done.
      * done.
      * intros d Hnot. by destruct Hnot.
    + destruct (LoadJSON_reads J h fs f Hstat) as [Hread Hparsed]; [by right|].
      rewrite Hread. split_and!.
      * split; [done|intros [_ ?]; done].
      * intros [_ ?]; done.
      * intros d _. apply Hparsed.
  - intros io m indent h' fs' Htemp Hsave.
    apply SaveJSON_success in Hsave as (_ & _ & -> & ->). simpl.
    assert (os_Stat (delete (tempName io)
                       (<[jsonhandler.filePath h := written J io (mkMap m) indent]> fs))
              (jsonhandler.filePath h)
            = StatInfo (mkDiskFile
                          (Encode J (mkMap m) (jsonhandler.getIndentString indent))
                          (writeTime io) None)) as Hstat.
    { unfold os_Stat. by rewrite lookup_delete_ne, lookup_insert_eq. }
    split_and!.
    + done.
    + eexists. by split; [apply Hstat|].
    + by apply (LoadJSON_from_cache J
                  (jsonhandler.mkJSONHandler (jsonhandler.filePath h) (mkMap m)
                     (writeTime io)) _ _ Hstat).
    + intros fs'' f'' d Hstat'' Hne.
      destruct (LoadJSON_reads J
                  (jsonhandler.mkJSONHandler (jsonhandler.filePath h) (mkMap m)
                     (writeTime io)) fs'' f'' Hstat'') as [Hread Hparsed].
      { right. simpl in *. congruence. }
      split; [done|]. intros Hr Hu. by rewrite (Hparsed d Hr Hu).
  - intros Hnone. unfold jsonhandler.LoadJSON.
    destruct (os_Stat fs (jsonhandler.filePath h)) as [|msg|f] eqn:Hstat;
      [done|done|by destruct (Hnone f)].
Qed.

Lemma LoadJSON_cache_and_SaveJSON_witness :
  let saved := jsonhandler.mkJSONHandler "i18n.json" (mkMap editedDoc) 20 in
  jsonhandler.LoadJSON cacheJSON cachedHandler
    (oneFile "i18n.json" dashboardText 10) true
  = jsonhandler.mkLoaded (Ok (mkMap dashboardDoc)) cachedHandler false
  ∧ jsonhandler.LoadJSON cacheJSON cachedHandler
      (oneFile "i18n.json" editedText 11) true
    = jsonhandler.mkLoaded (Ok (mkMap editedDoc))
        (jsonhandler.mkJSONHandler "i18n.json" (mkMap editedDoc) 11) true
  ∧ jsonhandler.SaveJSON cacheJSON plainWrite cachedHandler
      (oneFile "i18n.json" dashboardText 10) (mkMap editedDoc) 2
    = (None, saved, oneFile "i18n.json" editedText 20)
  ∧ jsonhandler.LoadJSON cacheJSON saved (oneFile "i18n.json" editedText 20) true
    = jsonhandler.mkLoaded (Ok (mkMap editedDoc)) saved false
  ∧ jsonhandler.didRead
      (jsonhandler.LoadJSON cacheJSON saved
         (oneFile "i18n.json" dashboardText 30) true) = true.
Proof.
  intros saved.
  pose proof (proj1 (proj2 (LoadJSON_cache_and_SaveJSON cacheJSON cachedHandler
             (oneFile "i18n.json" dashboardText 10))) plainWrite editedDoc 2
             saved (oneFile "i18n.json" editedText 20)) as Hsaved.
  split_and!.
  - apply (proj1 (proj2 (proj1 (LoadJSON_cache_and_SaveJSON cacheJSON cachedHandler
             (oneFile "i18n.json" dashboardText 10)) _ eq_refl))).
    split; reflexivity.
  - apply (proj2 (proj2 (proj1 (LoadJSON_cache_and_SaveJSON cacheJSON cachedHandler
             (oneFile "i18n.json" editedText 11)) _ eq_refl))).
    + intros [_ Hsame]. vm_compute in Hsame. discriminate Hsame.
    + reflexivity.
    + reflexivity.
  - reflexivity.
  - apply Hsaved; [vm_compute; discriminate|reflexivity].
  - destruct Hsaved as (_ & _ & _ & Hedit); [vm_compute; discriminate|reflexivity|].
    apply (Hedit (oneFile "i18n.json" dashboardText 30)
             (mkDiskFile dashboardText 30 None) (mkMap dashboardDoc));
      [reflexivity|vm_compute; discriminate].
Defined.

(** ** Positions of syntax errors *)

Lemma countLF_nonneg bs : 0 ≤ countLF bs.
Proof. induction bs as [|b bs IH]; simpl; [done|]. destruct (Byte.eqb b x0a); lia. Qed.

Lemma afterLastLF_no_LF bs : countLF bs = 0 → afterLastLF bs = bs.
Proof.
  destruct bs as [|b bs]; simpl; [done|]. intros Hc.
  pose proof (countLF_nonneg bs).
  destruct (Byte.eqb b x0a); [lia|].
  by replace (countLF bs) with 0 by lia.
Qed.

(** The loop from index [i], in terms of the bytes it goes over. *)
Lemma lineColumn_loop_spec rest :
  ∀ i offset line col,
    let seen := take (Z.to_nat (offset - i)) rest in
    jsonhandler.lineColumn_loop rest i offset line col
    = (line + countLF seen,
       if Z.eqb (countLF seen) 0 then col + Z.of_nat (length seen)
       else 1 + Z.of_nat (length (afterLastLF seen))).
Proof.
  induction rest as [|b rest IH]; intros i offset line col; simpl.
  - rewrite take_nil. simpl. f_equal; lia.
  - case_bool_decide as Hlt.
    + replace (Z.to_nat (offset - i)) with (S (Z.to_nat (offset - (i + 1)))) by lia.
      simpl. pose proof (countLF_nonneg (take (Z.to_nat (offset - (i + 1))) rest)).
      set (seen := take (Z.to_nat (offset - (i + 1))) rest) in *.
      destruct (Byte.eqb b x0a) eqn:Hb; rewrite IH; fold seen; simpl;
        rewrite ?Hb, ?Z.add_0_l;
        repeat match goal with
               | |- context [Z.eqb ?a ?b] => destruct (Z.eqb_spec a b)
               end;
        try lia; f_equal; lia.
    + replace (Z.to_nat (offset - i)) with 0%nat by lia. simpl. f_equal; lia.
Qed.

Lemma getLineColumn_spec data offset :
  jsonhandler.getLineColumn data offset
  = (lineAt data offset, columnAt data offset).
Proof.
  unfold jsonhandler.getLineColumn, lineAt, columnAt, upTo.
  rewrite lineColumn_loop_spec, Z.sub_0_r. f_equal.
  destruct (Z.eqb_spec (countLF (take (Z.to_nat offset) data)) 0) as [H0|H0]; [|done].
  by rewrite afterLastLF_no_LF.
Qed.

Example getLineColumn_test :
  map (jsonhandler.getLineColumn threeLines) [0; 1; 2; 4; 21]
  = [(1, 1); (1, 2); (2, 1); (2, 3); (3, 2)].
Proof. reflexivity. Qed.

(** C9. For a file that is there: when it is empty, [ValidateJSON]
    returns valid = false with the error type PARSE_ERROR at line 1,
    column 1; when it is not empty and can be read, and the parser fails
    with a syntax error at a byte offset, the result is valid = false,
    PARSE_ERROR, with the line and the column of that offset as the
    specification words them: one more than the number of line feeds
    among the bytes before the offset, and one more than the number of
    bytes after the last of these line feeds. [getLineColumn] computes
    this pair for every input. *)
Theorem ValidateJSON_error_position (J : JSON) (fs : gmap string Entry)
    (filePath : string) (f : DiskFile) :
  fs !! filePath = Some (Regular f) →
  (content f = [] →
     operations.ValidateJSON J fs filePath
     = Ok (jsonhandler.mkValidationResult false filePath
             (Some (jsonhandler.mkValidationError "File is empty" 1 1))
             "PARSE_ERROR" None))
  ∧ (∀ msg offset,
       content f ≠ [] → readError f = None →
       Unmarshal_any J (content f) = SyntaxError msg offset →
       operations.ValidateJSON J fs filePath
       = Ok (jsonhandler.mkValidationResult false filePath
               (Some (jsonhandler.mkValidationError msg
                        (lineAt (content f) offset)
                        (columnAt (content f) offset)))
               "PARSE_ERROR" None))
  ∧ (∀ data offset,
       jsonhandler.getLineColumn data offset
       = (lineAt data offset, columnAt data offset)).
Proof.
  intros Hfile. split_and!.
  - intros Hempty.
    unfold operations.ValidateJSON, jsonhandler.ValidateJSONSyntax, os_Stat.
    simpl. by rewrite Hfile, Hempty.
  - intros msg offset Hne Hread Hsyntax.
    unfold operations.ValidateJSON, jsonhandler.ValidateJSONSyntax, os_Stat,
      os_ReadFile.
    simpl. rewrite Hfile, Hread, Hsyntax, getLineColumn_spec.
    destruct (content f); [done|]. done.
  - apply getLineColumn_spec.
Qed.

Lemma ValidateJSON_error_position_witness :
  operations.ValidateJSON truncatedJSON (oneFile "empty.json" [] 10) "empty.json"
  = Ok (jsonhandler.mkValidationResult false "empty.json"
          (Some (jsonhandler.mkValidationError "File is empty" 1 1))
          "PARSE_ERROR" None)
  ∧ operations.ValidateJSON truncatedJSON (oneFile "cut.json" threeLines 10)
      "cut.json"
    = Ok (jsonhandler.mkValidationResult false "cut.json"
            (Some (jsonhandler.mkValidationError
                     "unexpected end of JSON input" 3 10))
            "PARSE_ERROR" None).
Proof.
  split.
  - apply (proj1 (ValidateJSON_error_position truncatedJSON
                    (oneFile "empty.json" [] 10) "empty.json"
                    (mkDiskFile [] 10 None) eq_refl)).
    reflexivity.
  - apply (proj1 (proj2 (ValidateJSON_error_position truncatedJSON
                           (oneFile "cut.json" threeLines 10) "cut.json"
                           (mkDiskFile threeLines 10 None) eq_refl))
             "unexpected end of JSON input" 29); done.
Defined.

(** ** Documents that grow *)

Section Growth.
Import pathresolver.
Implicit Types (m c : gmap string Value) (keys inner : list string).

Lemma vle_object_inv m w :
  vle (VObject m) w →
  ∃ m', w = VObject m'
        ∧ ∀ k x, m !! k = Some x → ∃ x', m' !! k = Some x' ∧ vle x x'.
Proof.
  inversion 1 as [|m0 m' Hsub]; subst.
  - exists m. split; [done|]. intros k x Hk. exists x. split; [done|constructor].
  - eauto.
Qed.

Lemma vle_insert_fresh m k x :
  m !! k = None → vle (VObject m) (VObject (<[k := x]> m)).
Proof.
  intros Hk. constructor. intros k' y Hy. exists y. split; [|constructor].
  rewrite lookup_insert_ne; [done|]. intros ->. congruence.
Qed.

Lemma vle_insert_child m k y y' :
  m !! k = Some y → vle y y' → vle (VObject m) (VObject (<[k := y']> m)).
Proof.
  intros Hk Hle. constructor. intros k' z Hz.
  destruct (decide (k = k')) as [<-|Hne].
  - rewrite lookup_insert_eq. exists y'. split; [done|]. congruence.
  - rewrite lookup_insert_ne by done. exists z. split; [done|constructor].
Qed.

(** What can be followed down in a document can be followed down in a
    grown one. *)
Lemma descend_vle keys :
  ∀ v w x, vle v w → descend keys v = Some x →
           ∃ x', descend keys w = Some x' ∧ vle x x'.
Proof.
  induction keys as [|key keys IH]; intros v w x Hle Hd; simpl in *.
  - injection Hd as <-. eauto.
  - destruct v as [| | | | |m]; try done.
    apply vle_object_inv in Hle as (m' & -> & Hsub).
    destruct (m !! key) as [child|] eqn:Hk; [|done].
    destruct (Hsub _ _ Hk) as (child' & -> & Hle'). eauto.
Qed.

Lemma KeyExists_vle m m' keyPath :
  vle (VObject m) (VObject m') →
  KeyExists (VObject m) keyPath = true → KeyExists (VObject m') keyPath = true.
Proof.
  intros Hle Hex.
  assert (keyPath ≠ "") as Hne.
  { intros ->. by vm_compute in Hex. }
  apply KeyExists_descend in Hex; [|done]. apply KeyExists_descend; [done|].
  destruct Hex as [[x Hx]|[x Hx]].
  - left. apply vle_object_inv in Hle as (m0 & [= <-] & Hsub).
    destruct (Hsub _ _ Hx) as (x' & -> & _). eauto.
  - right. destruct (descend_vle _ _ _ _ Hle Hx) as (x' & -> & _). eauto.
Qed.

(** Writing through the reference a creation returns. *)
Lemma modify_insert_child m k child inner f :
  modify (k :: inner) f (<[k := VObject child]> m)
  = <[k := VObject (modify inner f child)]> m.
Proof. simpl. by rewrite lookup_insert_eq, insert_insert_eq. Qed.

(** Creating the inner objects of a path that cannot be followed down,
    and storing a value under its final key, makes the document grow. *)
Lemma create_loop_vle keys finalKey value inner :
  ∀ i m m',
    descend (inner ++ [finalKey]) (VObject m) = None →
    create_loop keys i inner m = Ok m' →
    vle (VObject m) (VObject (modify inner (<[finalKey := value]>) m')).
Proof.
  induction inner as [|k inner IH]; intros i m m' Hd Hc; simpl in *.
  - injection Hc as <-. apply vle_insert_fresh. by destruct (m !! finalKey).
  - destruct (m !! k) as [[| | | | |c]|] eqn:Hk; try done.
    + destruct (create_loop keys (S i) inner c) as [child| |] eqn:Hchild; try done.
      injection Hc as <-. rewrite lookup_insert_eq, insert_insert_eq.
      eapply vle_insert_child; [done|]. by eapply IH.
    + destruct (create_loop keys (S i) inner ∅) as [child| |] eqn:Hchild; try done.
      injection Hc as <-. rewrite lookup_insert_eq, insert_insert_eq.
      by apply vle_insert_fresh.
Qed.

Lemma snoc_take_last (keys : list string) :
  keys ≠ [] →
  (take (length keys - 1) keys ++ [default "" (last keys)])%list = keys.
Proof.
  intros Hne. destruct (exists_last Hne) as (front & final & ->).
  rewrite length_app, last_snoc. simpl.
  replace (length front + 1 - 1)%nat with (length front) by lia.
  by rewrite take_app_length.
Qed.

(** [SetValueAtPath] with creation, at a path that does not exist, makes
    the document grow: every path that existed exists afterwards. *)
Lemma SetValueAtPath_create_vle m keyPath value m' :
  KeyExists (VObject m) keyPath = false →
  SetValueAtPath m keyPath value true = Ok m' →
  vle (VObject m) (VObject m').
Proof.
  intros Hex Hset. unfold SetValueAtPath, CreateNestedPath in Hset.
  destruct (ValidatePath keyPath) as [err|] eqn:Hv; [done|].
  assert (keyPath ≠ "") as Hne.
  { intros ->. by rewrite ValidatePath_empty in Hv. }
  assert (descend (SplitPath keyPath) (VObject m) = None) as Hd.
  { destruct (descend (SplitPath keyPath) (VObject m)) as [x|] eqn:Hd; [|done].
    assert (KeyExists (VObject m) keyPath = true) as Hyes; [|congruence].
    apply KeyExists_descend; eauto. }
  pose proof (snoc_take_last _ (SplitPath_not_nil _ Hne)) as Hsnoc.
  case_decide as Hlen; simpl in Hset.
  - injection Hset as <-.
    destruct (SplitPath keyPath) as [|k [|??]]; try done. simpl in *.
    apply vle_insert_fresh. by destruct (m !! k).
  - destruct (create_loop _ _ _ _) as [data'| |] eqn:Hc; try done.
    simpl in Hset. injection Hset as <-.
    eapply create_loop_vle; [|done]. by rewrite Hsnoc.
Qed.

End Growth.

(** ** Renaming *)

Section Rename.
Context (J : JSON).
Implicit Types (fs : gmap string Entry) (io : WriteIO).

(** The save of a document with a map that holds itself fails, and the
    directory is as it was. *)
Lemma save_encodingCycle io fs filePath data opError :
  ∃ err, operations.save J (operations.encodingCycle io) fs filePath data opError
         = (Err err, fs).
Proof.
  unfold operations.save.
  destruct (jsonhandler.SaveJSON _ _ _ _ _ _) as [[[err|] h'] fs'] eqn:E.
  - apply SaveJSON_error in E as (-> & _). eauto.
  - apply SaveJSON_success in E as (Hfail & _). revert Hfail.
    unfold operations.encodingCycle. simpl. by destruct (failure io) as [[[] msg]|].
Qed.

(** What has happened when [RenameKey] returns no error. *)
Lemma RenameKey_Ok io fs filePath oldPath newPath fs' :
  operations.RenameKey J io fs filePath oldPath newPath = (Ok (), fs') →
  ∃ data value data1 removed data2,
    oldPath ≠ "" ∧ newPath ≠ ""
    ∧ operations.load J fs filePath = Ok data
    ∧ pathresolver.KeyExists (toValue data) oldPath = true
    ∧ pathresolver.KeyExists (toValue data) newPath = false
    ∧ pathresolver.NavigateToKey (toValue data) oldPath = Ok value
    ∧ pathresolver.SetValueAtPath (entries data) newPath value true = Ok data1
    ∧ pathresolver.RemoveKeyAtPath data1 oldPath = Ok (removed, data2)
    ∧ operations.holdsItself (toValue data) oldPath newPath data1 = false
    ∧ operations.save J io fs filePath (mkMap data2) OP_ErrRenameKeyError
      = (Ok (), fs').
Proof.
  unfold operations.RenameKey. case_decide; [done|].
  destruct (pathresolver.ValidatePath oldPath) eqn:Hold; [done|].
  destruct (pathresolver.ValidatePath newPath) eqn:Hnew; [done|].
  destruct (operations.load J fs filePath) as [data| |]; [|done..].
  destruct (pathresolver.KeyExists (toValue data) oldPath) eqn:Hexo; [|done].
  destruct (pathresolver.KeyExists (toValue data) newPath) eqn:Hexn; [done|].
  cbn [negb].
  destruct (pathresolver.NavigateToKey (toValue data) oldPath)
    as [value| |] eqn:Hnav; [|intros [=]..].
  destruct (pathresolver.SetValueAtPath (entries data) newPath value true)
    as [data1| |] eqn:Hset; [|intros [=]..].
  destruct (pathresolver.RemoveKeyAtPath data1 oldPath)
    as [[removed data2]| |] eqn:Hrem; [|intros [=]..].
  destruct (operations.holdsItself (toValue data) oldPath newPath data1) eqn:Hcycle.
  { destruct (save_encodingCycle io fs filePath (mkMap data2) operations.ErrRenameKeyError)
      as [err ->]. intros [=]. }
  intros Hsave. exists data, value, data1, removed, data2. split_and!; try done.
  - intros ->. by rewrite ValidatePath_empty in Hold.
  - intros ->. by rewrite ValidatePath_empty in Hnew.
Qed.

End Rename.

(** C5 does not hold of the code. In the document with an object under
    "a", the path "a" exists and "a.b" does not. [RenameKey] from "a" to
    "a.b" returns no error, and the document it saves is empty: the
    value [GetKey] returned at "a" is not at "a.b", where [GetKey] then
    fails with KEY_NOT_FOUND, nor anywhere else. Reading "a", removing
    it and adding the value at "a.b", the sequence of the claim, leaves
    the value at "a.b". *)
Theorem RenameKey_loses_the_value :
  let fs := oneFile "doc.json" underAText 10 in
  let renamed := oneFile "doc.json" emptyText 20 in
  let moved := oneFile "doc.json" movedText 20 in
  let value := VObject {[ "x" := number 1 ]} in
  operations.GetKey renameJSON fs "doc.json" "a" = Ok value
  ∧ operations.KeyExists renameJSON fs "doc.json" "a" = Ok true
  ∧ operations.KeyExists renameJSON fs "doc.json" "a.b" = Ok false
  ∧ operations.RenameKey renameJSON plainWrite fs "doc.json" "a" "a.b"
    = (Ok (), renamed)
  ∧ operations.load renameJSON renamed "doc.json" = Ok (mkMap ∅)
  ∧ operations.GetKey renameJSON renamed "doc.json" "a.b"
    = Err (Errorf_w OP_ErrKeyNotFound ": Key 'a.b' not found in doc.json")
  ∧ operations.KeyExists renameJSON renamed "doc.json" "a" = Ok false
  ∧ operations.RemoveKey renameJSON plainWrite fs "doc.json" "a"
    = (Ok value, renamed)
  ∧ operations.AddKey renameJSON plainWrite renamed "doc.json" "a.b" value
    = (Ok (), moved)
  ∧ operations.GetKey renameJSON moved "doc.json" "a.b" = Ok value.
Proof. vm_compute. split_and!; done. Qed.

(** Where the new path runs through the object at the old path and the
    removal deletes another entry, the one in the object under the key
    "a.b" of the root, the object that holds itself stays in the
    document: the save fails in [encoder.Encode], and the file is as it
    was. *)
Example RenameKey_map_that_holds_itself :
  let fs := oneFile "doc.json" twoParentsText 10 in
  operations.KeyExists twoParentsJSON fs "doc.json" "a.b.c" = Ok true
  ∧ operations.KeyExists twoParentsJSON fs "doc.json" "a.b.c.d" = Ok false
  ∧ operations.RenameKey twoParentsJSON plainWrite fs "doc.json" "a.b.c" "a.b.c.d"
    = (Err (Errorf_w OP_ErrRenameKeyError
              ": Failed to save file: FILE_WRITE_ERROR: Failed to encode JSON: json: unsupported value: encountered a cycle via map[string]interface {}"),
       fs).
Proof. vm_compute. split_and!; done. Qed.

(** X20. [RenameKey] with the same old and new path fails with SAME_KEY
    and the directory is as it was, for every path and file. And whenever
    [RenameKey] returns no error, the encoder reading back the document
    with the value added, the directory it leaves is the one left by:
    reading the value at the old path with [GetKey], adding it at the
    new path with [AddKey], then removing the old path with
    [RemoveKey], each of which returns no error; [RenameKey] makes the
    two changes in one write. *)
Theorem RenameKey_as_get_add_remove (J : JSON) (io : WriteIO)
    (fs : gmap string Entry) (filePath oldPath newPath : string) :
  (∀ p, operations.RenameKey J io fs filePath p p
        = (Err (Errorf_w OP_ErrSameKey
                  ": Old and new key paths cannot be the same"), fs))
  ∧ (∀ fs',
       (∀ data value data1,
          operations.load J fs filePath = Ok data →
          pathresolver.NavigateToKey (toValue data) oldPath = Ok value →
          pathresolver.SetValueAtPath (entries data) newPath value true
          = Ok data1 →
          reads_back J (mkMap data1)) →
       operations.RenameKey J io fs filePath oldPath newPath = (Ok (), fs') →
       ∃ value fs1 removed,
         operations.GetKey J fs filePath oldPath = Ok value
         ∧ operations.AddKey J io fs filePath newPath value = (Ok (), fs1)
         ∧ operations.RemoveKey J io fs1 filePath oldPath = (Ok removed, fs')).
Proof.
  split.
  { intros p. unfold operations.RenameKey. by rewrite decide_True. }
  intros fs' Hback Hrename.
  apply RenameKey_Ok in Hrename
    as (data & value & data1 & removed & data2 & Hold & Hnew & Hload & Hexo
        & Hexn & Hnav & Hset & Hrem & _ & Hsave).
  pose proof (proj1 (load_Ok J _ _ _) Hload) as (f & Hfile & Hread & Hparse).
  apply save_Ok in Hsave as (Hfail & Htemp & ->); [|by rewrite Hfile].
  assert (tempName io ≠ filePath) as Hne by (intros <-; congruence).
  destruct data as [|m].
  { by rewrite KeyExists_nil in Hexo. }
  change (entries (mkMap m)) with m in *.
  exists value, (<[filePath := written J io (mkMap data1) 2]> fs), removed.
  split_and!.
  - unfold operations.GetKey. by rewrite Hload, Hnav.
  - unfold operations.AddKey. rewrite Hload, Hexn.
    change (isNil (mkMap m)) with false. cbn [andb].
    change (entries (mkMap m)) with m. rewrite Hset.
    apply save_Ok; [by rewrite Hfile|done].
  - assert (operations.load J (<[filePath := written J io (mkMap data1) 2]> fs)
              filePath = Ok (mkMap data1)) as Hload1.
    { apply load_Ok. eexists. rewrite lookup_insert_eq.
      split_and!; [done|done|]. by apply (Hback (mkMap m) value data1). }
    unfold operations.RemoveKey.
    rewrite Hload1, ValidatePath_None by done.
    change (toValue (mkMap data1)) with (VObject data1).
    change (entries (mkMap data1)) with data1.
    rewrite (KeyExists_vle m data1 oldPath), Hrem;
      [|by eapply SetValueAtPath_create_vle|done].
    cbn [negb].
    assert (operations.save J io (<[filePath := written J io (mkMap data1) 2]> fs)
              filePath (mkMap data2) operations.ErrRemoveKeyError
            = (Ok (), <[filePath := written J io (mkMap data2) 2]> fs)) as ->; [|done].
    apply save_Ok; [by rewrite lookup_insert_eq|].
    split_and!; [done|by rewrite lookup_insert_ne|by rewrite insert_insert_eq].
Qed.

Lemma RenameKey_as_get_add_remove_witness :
  operations.RenameKey titleJSON plainWrite (oneFile "doc.json" [x74] 10)
    "doc.json" "title" "title"
  = (Err (Errorf_w OP_ErrSameKey ": Old and new key paths cannot be the same"),
     oneFile "doc.json" [x74] 10)
  ∧ operations.RenameKey titleJSON plainWrite (oneFile "doc.json" [x74] 10)
      "doc.json" "title" "heading"
    = (Ok (), oneFile "doc.json" [x68] 20)
  ∧ ∃ value fs1 removed,
      operations.GetKey titleJSON (oneFile "doc.json" [x74] 10) "doc.json" "title"
      = Ok value
      ∧ operations.AddKey titleJSON plainWrite (oneFile "doc.json" [x74] 10)
          "doc.json" "heading" value = (Ok (), fs1)
      ∧ operations.RemoveKey titleJSON plainWrite fs1 "doc.json" "title"
        = (Ok removed, oneFile "doc.json" [x68] 20).
Proof.
  split_and!.
  - apply (proj1 (RenameKey_as_get_add_remove titleJSON plainWrite
                    (oneFile "doc.json" [x74] 10) "doc.json" "title" "heading")).
  - reflexivity.
  - apply (proj2 (RenameKey_as_get_add_remove titleJSON plainWrite
                    (oneFile "doc.json" [x74] 10) "doc.json" "title" "heading")).
    + intros data value data1 Hload Hnav Hset.
      vm_compute in Hload. injection Hload as <-.
      vm_compute in Hnav. injection Hnav as <-.
      vm_compute in Hset. injection Hset as <-.
      reflexivity.
    + reflexivity.
Defined.

(** ** Updating *)

(** C2 does not hold of the code. A key of the root with dots in it
    exists for [KeyExists] and [GetKey], yet [UpdateKey] on it fails with
    KEY_NOT_FOUND and writes nothing: it looks for the parent "key.with".
    And where the root has the key "a.b" and also an object "a" with a
    key "b", [UpdateKey] on "a.b" succeeds and overwrites the nested
    entry, while [GetKey] on "a.b" goes on returning the entry of the
    root, not the new value. *)
Theorem UpdateKey_misses_literal_key :
  (let fs := oneFile "doc.json" dottedText 10 in
   pathresolver.KeyExists (VObject dottedDoc) "key.with.dots" = true
   ∧ pathresolver.SetValueAtPath dottedDoc "key.with.dots" (VString "new") false
     = Err (Errorf_w PR_ErrKeyNotFound ": Key 'key.with' not found")
   ∧ operations.KeyExists updateJSON fs "doc.json" "key.with.dots" = Ok true
   ∧ operations.GetKey updateJSON fs "doc.json" "key.with.dots"
     = Ok (VString "dotted key value")
   ∧ operations.UpdateKey updateJSON plainWrite fs "doc.json" "key.with.dots"
       (VString "new")
     = (Err (Errorf_w OP_ErrKeyNotFound
               ": Key 'key.with.dots' not found in doc.json"), fs))
  ∧ (let fs := oneFile "i18n.json" bothWaysText 10 in
     let fs' := oneFile "i18n.json" updatedText 20 in
     operations.KeyExists updateJSON fs "i18n.json" "a.b" = Ok true
     ∧ operations.UpdateKey updateJSON plainWrite fs "i18n.json" "a.b"
         (VString "new") = (Ok (), fs')
     ∧ operations.load updateJSON fs' "i18n.json" = Ok (mkMap bothWaysUpdated)
     ∧ operations.GetKey updateJSON fs' "i18n.json" "a.b"
       = Ok (VString "literal")).
Proof. vm_compute. split_and!; done. Qed.

(** ** Pieces of a split string *)

Lemma Split_pieces_no_sep s sep :
  Forall (λ piece, strings.ContainsByte piece sep = false) (strings.Split s sep).
Proof.
  induction s as [|c s IH]; simpl.
  - by repeat constructor.
  - case_decide as Hc.
    + by constructor.
    + destruct (strings.Split s sep) as [|piece pieces].
      * repeat constructor. simpl. by rewrite decide_False.
      * inversion IH; subst. constructor; [|done].
        simpl. by rewrite decide_False.
Qed.

Lemma Split_at_least_two s sep :
  strings.ContainsByte s sep = true → (2 ≤ length (strings.Split s sep))%nat.
Proof.
  induction s as [|c s IH]; simpl; [done|].
  case_decide as Hc.
  - intros _. pose proof (Split_not_nil s sep).
    destruct (strings.Split s sep); simpl; [done|lia].
  - intros Hs. specialize (IH Hs). destruct (strings.Split s sep); simpl in *; lia.
Qed.

Lemma Join_cons_cons e e' rest sep :
  strings.Join (e :: e' :: rest) sep = e +:+ sep +:+ strings.Join (e' :: rest) sep.
Proof. done. Qed.

Lemma Join_Split s sep :
  strings.Join (strings.Split s sep) (String sep "") = s.
Proof.
  induction s as [|c s IH]; [done|].
  cbn [strings.Split]. case_decide as Hc.
  - subst c. pose proof (Split_not_nil s sep).
    destruct (strings.Split s sep) as [|piece pieces]; [done|].
    by rewrite Join_cons_cons, IH.
  - pose proof (Split_not_nil s sep).
    destruct (strings.Split s sep) as [|piece pieces]; [done|].
    rewrite <- IH. by destruct pieces.
Qed.

Lemma string_append_assoc (a b c : string) : (a +:+ b) +:+ c = a +:+ (b +:+ c).
Proof.
  induction a as [|x a IH]; [done|].
  change (String x ((a +:+ b) +:+ c) = String x (a +:+ (b +:+ c))).
  by rewrite IH.
Qed.

Lemma Join_snoc front final sep :
  front ≠ [] →
  strings.Join (front ++ [final]) sep = strings.Join front sep +:+ sep +:+ final.
Proof.
  induction front as [|e [|e' front] IH]; intros Hne; [done|done|].
  change ((e :: e' :: front) ++ [final])%list with (e :: e' :: (front ++ [final]))%list.
  rewrite !Join_cons_cons.
  change (e' :: (front ++ [final]))%list with ((e' :: front) ++ [final])%list.
  rewrite IH by done. by rewrite !string_append_assoc.
Qed.

Lemma append_self_empty (s t : string) : s +:+ t = s → t = "".
Proof. induction s as [|c s IH]; simpl; [done|]. intros [= H]. auto. Qed.

Section LiteralKeyUntouched.
Import pathresolver.
Implicit Types (m : gmap string Value).

Lemma modify_lookup_other m ref f k :
  head ref ≠ Some k → ref ≠ [] → modify ref f m !! k = m !! k.
Proof.
  destruct ref as [|h ref]; [done|]. simpl. intros Hh _.
  destruct (m !! h) as [[| | | | |child]|]; try done.
  rewrite lookup_insert_ne; [done|]. by intros ->.
Qed.

(** The reference [NavigateToParent] returns for a key with a dot in it
    does not start with that key, and is not the root. *)
Lemma NavigateToParent_ref_other m k ref parent finalKey :
  strings.ContainsByte k dot = true →
  NavigateToParent (VObject m) k = Ok (ref, parent, finalKey) →
  head ref ≠ Some k ∧ ref ≠ [].
Proof.
  intros Hdot. unfold NavigateToParent.
  pose proof (ContainsByte_not_empty _ _ Hdot) as Hne.
  rewrite ValidatePath_None by done.
  pose proof (Split_at_least_two _ _ Hdot) as Hlen.
  pose proof (Split_pieces_no_sep k dot) as Hpieces.
  pose proof (Join_Split k dot) as Hjoin.
  assert (SplitPath k = strings.Split k dot) as ->.
  { unfold SplitPath. by rewrite decide_False. }
  destruct (exists_last (Split_not_nil k dot)) as (front & final & Hsplit).
  rewrite Hsplit in *. rewrite length_app in *. simpl in *.
  rewrite decide_False by lia.
  replace (length front + 1 - 1)%nat with (length front) by lia.
  rewrite take_app_length.
  assert (front ≠ []) as Hfront by (destruct front; simpl in *; [lia|done]).
  rewrite Join_snoc in Hjoin by done.
  change (String dot "") with "." in Hjoin.
  set (parentPath := strings.Join front ".") in *.
  unfold NavigateToKeyRef.
  destruct (ValidatePath parentPath) eqn:Hv; [done|].
  destruct (m !! parentPath) as [v|].
  - destruct v; try done. intros [= <- _ _]. split; [|done]. simpl.
    intros [= Heq]. rewrite Heq in Hjoin. by apply append_self_empty in Hjoin.
  - destruct (navigate_loop _ _ _ _ _ _) as [[r x]| |] eqn:Hnav; try done.
    apply navigate_loop_Ok in Hnav as [_ ->]. simpl.
    destruct x; try done. intros [= <- _ _].
    assert (parentPath ≠ "") as Hp.
    { intros Hp. by rewrite Hp, ValidatePath_empty in Hv. }
    unfold SplitPath. rewrite decide_False by done.
    pose proof (Split_not_nil parentPath dot).
    pose proof (Split_pieces_no_sep parentPath dot) as Hpp.
    destruct (strings.Split parentPath dot) as [|h t]; [done|].
    split; [|done]. simpl. intros [= ->].
    inversion Hpp; subst. congruence.
Qed.

Lemma SetValueAtPath_update_keeps_literal m k value m' :
  strings.ContainsByte k dot = true →
  SetValueAtPath m k value false = Ok m' →
  m' !! k = m !! k.
Proof.
  intros Hdot. unfold SetValueAtPath.
  destruct (NavigateToParent (VObject m) k) as [[[ref parent] finalKey]| |] eqn:Hp;
    try done.
  simpl. intros [= <-].
  apply NavigateToParent_ref_other in Hp as [Hhead Hne]; [|done].
  by apply modify_lookup_other.
Qed.

End LiteralKeyUntouched.

(** In every document, a key of the root with a dot in it is never
    written by [UpdateKey] on that path: [GetKey] returns the old value
    afterwards, whether [UpdateKey] failed or succeeded. *)
Lemma UpdateKey_never_writes_literal_key (J : JSON) (io : WriteIO)
    (fs : gmap string Entry) (filePath k : string) (data : GoMap)
    (old value : Value) :
  operations.load J fs filePath = Ok data →
  strings.ContainsByte k dot = true →
  entries data !! k = Some old →
  (∀ data', pathresolver.SetValueAtPath (entries data) k value false = Ok data' →
            reads_back J (mkMap data')) →
  operations.GetKey J fs filePath k = Ok old
  ∧ operations.GetKey J (operations.UpdateKey J io fs filePath k value).2
      filePath k = Ok old.
Proof.
  intros Hload Hdot Hk Hback.
  assert (operations.GetKey J fs filePath k = Ok old) as Hget
    by eauto using GetKey_literal_root_key.
  split; [done|].
  destruct (UpdateKey_fails_unchanged J io fs filePath k value) as [Hok| ->];
    [|done].
  revert Hok. unfold operations.UpdateKey. rewrite Hload.
  destruct (pathresolver.ValidatePath k); [done|].
  destruct (negb _); [done|].
  destruct (pathresolver.SetValueAtPath (entries data) k value false)
    as [data'| |] eqn:Hset; [|by case_match|done].
  destruct (operations.save J io fs filePath (mkMap data') operations.ErrUpdateKeyError)
    as [[[]| |] fs'] eqn:Hsave; try done.
  intros _. simpl.
  pose proof (proj1 (load_Ok J _ _ _) Hload) as (f & Hfile & _).
  apply save_Ok in Hsave as (_ & _ & ->); [|by rewrite Hfile].
  apply (GetKey_literal_root_key J _ _ _ (mkMap data')); [|done|].
  - apply load_Ok. eexists. rewrite lookup_insert_eq. split_and!; [done|done|].
    by apply Hback.
  - simpl. by rewrite (SetValueAtPath_update_keeps_literal _ _ _ _ Hdot Hset).
Qed.

Example UpdateKey_never_writes_literal_key_both_ways :
  operations.GetKey updateJSON
    (operations.UpdateKey updateJSON plainWrite
       (oneFile "i18n.json" bothWaysText 10) "i18n.json" "a.b" (VString "new")).2
    "i18n.json" "a.b" = Ok (VString "literal").
Proof.
  apply (UpdateKey_never_writes_literal_key updateJSON plainWrite
           (oneFile "i18n.json" bothWaysText 10) "i18n.json" "a.b"
           (mkMap bothWays) (VString "literal") (VString "new"));
    try reflexivity.
  intros data' Hset. vm_compute in Hset. injection Hset as <-. reflexivity.
Qed.

(** ** Dotted keys below the root, at any depth *)

Lemma SplitPath_pieces_dot_free keyPath :
  Forall (λ key, strings.ContainsByte key dot = false)
    (pathresolver.SplitPath keyPath).
Proof.
  unfold pathresolver.SplitPath. case_decide; [constructor|].
  apply Split_pieces_no_sep.
Qed.

Section BelowTheRoot.
Import pathresolver.
Implicit Types (m : gmap string Value) (pre rest : list string).

(** The loop over keys none of which is [k] does the same in a document
    and in the document with the entries under [k] of the object at
    [pre] changed, unless the keys stop at that object or above it. *)
Lemma navigate_loop_off_key keyPath keys k f pre :
  (∀ inner k', k' ≠ k → f inner !! k' = inner !! k') →
  ∀ rest i ref m,
    Forall (λ key, key ≠ k) rest →
    ¬ rest `prefix_of` pre →
    navigate_loop keyPath keys i rest ref (VObject (modify pre f m))
    = navigate_loop keyPath keys i rest ref (VObject m).
Proof.
  intros Hf. induction pre as [|e pre IH]; intros rest i ref m Hrest Hstop.
  - destruct rest as [|key rest]; [exfalso; apply Hstop, prefix_nil|].
    inversion Hrest; subst. simpl. by rewrite Hf.
  - destruct rest as [|key rest]; [exfalso; apply Hstop, prefix_nil|].
    inversion Hrest; subst. cbn [modify].
    destruct (m !! e) as [[| | | | |c]|] eqn:He; try done.
    cbn [navigate_loop]. destruct (decide (key = e)) as [->|Hne].
    + rewrite lookup_insert_eq, He. apply IH; [done|].
      intros Hp. apply Hstop. by apply prefix_cons.
    + by rewrite lookup_insert_ne.
Qed.

(** [NavigateToKey] does not see what an object below the root holds
    under a key with a dot in it. *)
Lemma NavigateToKey_off_dotted_key m pre k f keyPath :
  pre ≠ [] →
  strings.ContainsByte k dot = true →
  (∀ inner k', k' ≠ k → f inner !! k' = inner !! k') →
  ¬ [keyPath] `prefix_of` pre →
  ¬ SplitPath keyPath `prefix_of` pre →
  NavigateToKey (VObject (modify pre f m)) keyPath
  = NavigateToKey (VObject m) keyPath.
Proof.
  intros Hpre Hdot Hf Hlit Hstop.
  unfold NavigateToKey, NavigateToKeyRef.
  destruct (ValidatePath keyPath); [done|].
  rewrite modify_lookup_other; [|intros Hhead|done].
  - destruct (m !! keyPath); [done|].
    rewrite (navigate_loop_off_key keyPath (SplitPath keyPath) k f pre);
      [done|done| |done].
    eapply Forall_impl; [apply SplitPath_pieces_dot_free|].
    intros key Hkey ->. simpl in Hkey. congruence.
  - apply Hlit. destruct pre as [|e pre']; [done|].
    injection Hhead as ->. apply prefix_cons, prefix_nil.
Qed.

End BelowTheRoot.

(** C7. The whole-path match is tried on the root only, whatever the
    shape of the document. For a path that is no key of the root,
    [GetKey] returns a value exactly when looking up the segments of the
    path one by one, from the root down, leads to it, and no segment has
    a dot in it. And what an object below the root, at any depth, holds
    under a key with a dot in it is never looked at: the file with that
    entry set, changed or removed gives the same result, value or error,
    for every path but those that are, as a whole or split, the way to
    that object or to one above it. The document with "b.c" inside "a"
    and the path "a.b.c" give what the document with nothing inside "a"
    gives: KEY_NOT_FOUND. *)
Theorem GetKey_nested_dotted_key_unreachable (J : JSON)
    (fs fs' : gmap string Entry) (filePath keyPath k : string)
    (m : gmap string Value) (pre : list string)
    (f : gmap string Value → gmap string Value) :
  operations.load J fs filePath = Ok (mkMap m) →
  operations.load J fs' filePath = Ok (mkMap (pathresolver.modify pre f m)) →
  pre ≠ [] →
  strings.ContainsByte k dot = true →
  (∀ inner k', k' ≠ k → f inner !! k' = inner !! k') →
  ¬ [keyPath] `prefix_of` pre →
  ¬ pathresolver.SplitPath keyPath `prefix_of` pre →
  operations.GetKey J fs' filePath keyPath = operations.GetKey J fs filePath keyPath
  ∧ Forall (λ key, strings.ContainsByte key dot = false)
      (pathresolver.SplitPath keyPath)
  ∧ ∀ v, m !! keyPath = None →
         (operations.GetKey J fs filePath keyPath = Ok v
          ↔ keyPath ≠ ""
            ∧ descend (pathresolver.SplitPath keyPath) (VObject m) = Some v).
Proof.
  intros Hload Hload' Hpre Hdot Hf Hlit Hstop. split_and!.
  - unfold operations.GetKey. rewrite Hload, Hload'.
    change (toValue (mkMap (pathresolver.modify pre f m)))
      with (VObject (pathresolver.modify pre f m)).
    change (toValue (mkMap m)) with (VObject m).
    by rewrite (NavigateToKey_off_dotted_key m pre k f keyPath).
  - apply SplitPath_pieces_dot_free.
  - intros v Hroot. unfold operations.GetKey. rewrite Hload.
    change (toValue (mkMap m)) with (VObject m).
    destruct (decide (keyPath = "")) as [->|Hne].
    { split; [by vm_compute|by intros [? _]]. }
    rewrite NavigateToKey_split by done.
    destruct (pathresolver.navigate_loop _ _ _ _ _ _) as [[r x]|err|msg] eqn:Hnav;
      simpl.
    + apply navigate_loop_Ok in Hnav as [Hd _]. rewrite Hd.
      split; [intros [= ->]; done|intros [_ [= ->]]; done].
    + split; [by repeat case_match|]. intros [_ Hd].
      pose proof (proj2 (navigate_loop_Ok keyPath (pathresolver.SplitPath keyPath) 0
                           (pathresolver.SplitPath keyPath) [] (VObject m) _ v)
                    (conj Hd eq_refl)). congruence.
    + split; [done|]. intros [_ Hd].
      pose proof (proj2 (navigate_loop_Ok keyPath (pathresolver.SplitPath keyPath) 0
                           (pathresolver.SplitPath keyPath) [] (VObject m) _ v)
                    (conj Hd eq_refl)). congruence.
Qed.

Lemma GetKey_nested_dotted_key_unreachable_witness :
  operations.GetKey nestedJSON (oneFile "doc.json" dottedInsideText 10)
    "doc.json" "a.b.c"
  = Err (Errorf_w OP_ErrKeyNotFound ": Key 'a.b.c' not found in doc.json")
  ∧ operations.GetKey nestedJSON (oneFile "doc.json" deepDottedText 10)
      "doc.json" "a.b.c.d"
    = Err (Errorf_w OP_ErrKeyNotFound ": Key 'a.b.c.d' not found in doc.json")
  ∧ operations.GetKey nestedJSON (oneFile "doc.json" besideDottedText 10)
      "doc.json" "a.b.c"
    = Err (Errorf "PATH_ERROR: PATH_ERROR: Cannot navigate through non-object value at 'a.b'").
Proof.
  split_and!.
  - etrans; [|reflexivity].
    apply (GetKey_nested_dotted_key_unreachable nestedJSON
             (oneFile "doc.json" plainInsideText 10)
             (oneFile "doc.json" dottedInsideText 10) "doc.json" "a.b.c" "b.c"
             plainInside ["a"] (<["b.c" := VString "x"]>)); try reflexivity.
    + done.
    + intros inner k' Hk'. by rewrite lookup_insert_ne.
    + intros [rest Hrest]. discriminate Hrest.
    + intros [rest Hrest]. vm_compute in Hrest. discriminate Hrest.
  - etrans; [|reflexivity].
    apply (GetKey_nested_dotted_key_unreachable nestedJSON
             (oneFile "doc.json" deepPlainText 10)
             (oneFile "doc.json" deepDottedText 10) "doc.json" "a.b.c.d" "c.d"
             deepPlain ["a"; "b"] (<["c.d" := VString "x"]>)); try reflexivity.
    + done.
    + intros inner k' Hk'. by rewrite lookup_insert_ne.
    + intros [rest Hrest]. discriminate Hrest.
    + intros [rest Hrest]. vm_compute in Hrest. discriminate Hrest.
  - etrans; [|reflexivity].
    apply (GetKey_nested_dotted_key_unreachable nestedJSON
             (oneFile "doc.json" besidePlainText 10)
             (oneFile "doc.json" besideDottedText 10) "doc.json" "a.b.c" "b.c"
             besidePlain ["a"] (<["b.c" := VString "x"]>)); try reflexivity.
    + done.
    + intros inner k' Hk'. by rewrite lookup_insert_ne.
    + intros [rest Hrest]. discriminate Hrest.
    + intros [rest Hrest]. vm_compute in Hrest. discriminate Hrest.
Defined.

(** * Further properties *)

(** ** Splitting a path and joining its segments *)

Lemma Split_no_sep s sep :
  strings.ContainsByte s sep = false → strings.Split s sep = [s].
Proof.
  induction s as [|c s IH]; simpl; [done|].
  case_decide; [done|]. intros Hs. by rewrite IH.
Qed.

Lemma Join_not_empty e e' rest sep :
  strings.Join (e :: e' :: rest) (String sep "") ≠ "".
Proof. rewrite Join_cons_cons. apply append_sep_not_empty. Qed.

Lemma Split_Join keys sep :
  keys ≠ [] →
  Forall (λ key, strings.ContainsByte key sep = false) keys →
  strings.Split (strings.Join keys (String sep "")) sep = keys.
Proof.
  induction keys as [|e [|e' rest] IH]; intros Hne Hfree; [done| |].
  - simpl. apply Split_no_sep. by inversion Hfree.
  - rewrite Join_cons_cons.
    change (e +:+ String sep "" +:+ strings.Join (e' :: rest) (String sep ""))
      with (e +:+ String sep (strings.Join (e' :: rest) (String sep ""))).
    inversion Hfree; subst. rewrite Split_app_sep by done.
    by rewrite IH.
Qed.

Lemma SplitPath_Split keyPath :
  keyPath ≠ "" → pathresolver.SplitPath keyPath = strings.Split keyPath dot.
Proof. intros Hne. unfold pathresolver.SplitPath. by rewrite decide_False. Qed.

(** What [SplitPath] and joining with dots do to each other. *)
Lemma SplitPath_Join_facts (keyPath : string) :
  strings.Join (pathresolver.SplitPath keyPath) "." = keyPath
  ∧ Forall (λ key, strings.ContainsByte key dot = false)
      (pathresolver.SplitPath keyPath)
  ∧ (pathresolver.SplitPath keyPath = [] ↔ keyPath = "")
  ∧ (∀ keys,
       keys ≠ [] → keys ≠ [""] →
       Forall (λ key, strings.ContainsByte key dot = false) keys →
       pathresolver.SplitPath (strings.Join keys ".") = keys).
Proof.
  split_and!.
  - unfold pathresolver.SplitPath. case_decide as He; [by subst|].
    apply (Join_Split keyPath dot).
  - unfold pathresolver.SplitPath. case_decide; [constructor|].
    apply Split_pieces_no_sep.
  - unfold pathresolver.SplitPath. case_decide as He; [done|].
    split; [|done]. intros Hs. by apply Split_not_nil in Hs.
  - intros keys Hne Hne' Hfree.
    rewrite SplitPath_Split.
    + by apply (Split_Join keys dot).
    + destruct keys as [|e [|e' rest]]; [done| |apply (Join_not_empty e e' rest dot)].
      simpl. intros ->. done.
Qed.

(** X1. Joining the segments of a path with dots gives the path back, no
    segment has a dot in it, and only the empty path has no segment. The
    other way round, a list of dot-free keys, other than the empty list
    and the list of the empty key, is what [SplitPath] returns for the
    keys joined with dots. *)
Theorem SplitPath_round_trip (keyPath : string) :
  strings.Join (pathresolver.SplitPath keyPath) "." = keyPath
  ∧ Forall (λ key, strings.ContainsByte key dot = false)
      (pathresolver.SplitPath keyPath)
  ∧ (pathresolver.SplitPath keyPath = [] ↔ keyPath = "")
  ∧ (∀ keys,
       keys ≠ [] → keys ≠ [""] →
       Forall (λ key, strings.ContainsByte key dot = false) keys →
       pathresolver.SplitPath (strings.Join keys ".") = keys).
Proof. apply SplitPath_Join_facts. Qed.

Lemma SplitPath_round_trip_witness :
  pathresolver.SplitPath (strings.Join ["a"; ""; "b"] ".") = ["a"; ""; "b"].
Proof.
  apply (proj2 (proj2 (proj2 (SplitPath_round_trip "")))); [done|done|].
  repeat constructor.
Defined.

(** ** Adding a key *)

Section Adding.
Import pathresolver.
Implicit Types (m c : gmap string Value) (keys inner : list string).

(** After the inner objects are there and the value is stored, the
    whole path leads to the value. *)
Lemma create_loop_descend keys finalKey value inner :
  ∀ i m m',
    create_loop keys i inner m = Ok m' →
    descend (inner ++ [finalKey])
      (VObject (modify inner (<[finalKey := value]>) m')) = Some value.
Proof.
  induction inner as [|k inner IH]; intros i m m' Hc.
  - simpl in *. injection Hc as <-. by rewrite lookup_insert_eq.
  - assert (∃ c child, create_loop keys (S i) inner c = Ok child
                       ∧ m' = <[k := VObject child]> m) as (c & child & Hchild & ->).
    { simpl in Hc. destruct (m !! k) as [[| | | | |c]|]; try done.
      - destruct (create_loop keys (S i) inner c) as [child| |] eqn:Hchild;
          try done. injection Hc as <-. eauto.
      - destruct (create_loop keys (S i) inner ∅) as [child| |] eqn:Hchild;
          try done. injection Hc as <-. eauto. }
    rewrite modify_insert_child.
    change ((k :: inner) ++ [finalKey])%list with (k :: (inner ++ [finalKey]))%list.
    cbn [descend]. rewrite lookup_insert_eq. by eapply IH.
Qed.

(** The root keeps its other entries. *)
Lemma create_loop_root_other keys inner :
  ∀ i m m' k,
    create_loop keys i inner m = Ok m' → head inner ≠ Some k → m' !! k = m !! k.
Proof.
  destruct inner as [|h inner]; intros i m m' k Hc Hh; simpl in *.
  - by injection Hc as <-.
  - assert (h ≠ k) by congruence.
    destruct (m !! h) as [[| | | | |c]|]; try done.
    + destruct (create_loop keys (S i) inner c); try done.
      injection Hc as <-. by rewrite lookup_insert_ne.
    + destruct (create_loop keys (S i) inner ∅); try done.
      injection Hc as <-. by rewrite lookup_insert_ne.
Qed.

Lemma modify_root_other m ref f k :
  head ref ≠ Some k → ref ≠ [] → modify ref f m !! k = m !! k.
Proof. apply modify_lookup_other. Qed.

(** [SetValueAtPath] with creation: the split path leads to the value,
    and a key of the root other than the first segment is as before. *)
Lemma SetValueAtPath_create_descend m keyPath value m' :
  SetValueAtPath m keyPath value true = Ok m' →
  keyPath ≠ ""
  ∧ descend (SplitPath keyPath) (VObject m') = Some value
  ∧ ∀ k, head (SplitPath keyPath) ≠ Some k → m' !! k = m !! k.
Proof.
  intros Hset. unfold SetValueAtPath, CreateNestedPath in Hset.
  destruct (ValidatePath keyPath) as [err|] eqn:Hv; [done|].
  assert (keyPath ≠ "") as Hne.
  { intros ->. by rewrite ValidatePath_empty in Hv. }
  pose proof (snoc_take_last _ (SplitPath_not_nil _ Hne)) as Hsnoc.
  split; [done|].
  case_decide as Hlen; simpl in Hset.
  - injection Hset as <-.
    destruct (SplitPath keyPath) as [|k [|??]]; try done. simpl.
    rewrite lookup_insert_eq. split; [done|].
    intros k' Hk'. rewrite lookup_insert_ne; [done|congruence].
  - destruct (create_loop _ _ _ _) as [data'| |] eqn:Hc; try done.
    simpl in Hset. injection Hset as <-. split.
    + rewrite <- Hsnoc at 1. by eapply create_loop_descend.
    + intros k Hk.
      assert (head (take (length (SplitPath keyPath) - 1) (SplitPath keyPath))
              ≠ Some k) as Hk'.
      { by destruct (SplitPath keyPath) as [|a [|b l]]. }
      assert (take (length (SplitPath keyPath) - 1) (SplitPath keyPath) ≠ [])
        as Hinner.
      { by destruct (SplitPath keyPath) as [|a [|b l]]. }
      rewrite modify_root_other by done.
      by eapply create_loop_root_other.
Qed.

(** The first segment of a dotted path is not the path. *)
Lemma head_SplitPath_dotted keyPath :
  strings.ContainsByte keyPath dot = true →
  head (SplitPath keyPath) ≠ Some keyPath.
Proof.
  intros Hdot Hhead.
  pose proof (proj1 (proj2 (SplitPath_Join_facts keyPath))) as Hfree.
  destruct (SplitPath keyPath) as [|h t]; [done|].
  injection Hhead as ->. inversion Hfree; subst. congruence.
Qed.

Lemma SplitPath_dot_free keyPath :
  keyPath ≠ "" → strings.ContainsByte keyPath dot = false →
  SplitPath keyPath = [keyPath].
Proof. intros Hne Hfree. rewrite SplitPath_Split by done. by apply Split_no_sep. Qed.

(** The lookup of a path, from what holds under the whole path as a key
    and what the split path leads to. *)
Lemma NavigateToKey_descend m keyPath v :
  keyPath ≠ "" → m !! keyPath = None →
  descend (SplitPath keyPath) (VObject m) = Some v →
  NavigateToKey (VObject m) keyPath = Ok v.
Proof.
  intros Hne Hlit Hd. rewrite NavigateToKey_split by done.
  pose proof (proj2 (navigate_loop_Ok keyPath (SplitPath keyPath) 0
                       (SplitPath keyPath) [] (VObject m) _ v)
                (conj Hd eq_refl)) as ->. done.
Qed.

Lemma NavigateToKey_Ok_inv m keyPath v :
  NavigateToKey (VObject m) keyPath = Ok v →
  keyPath ≠ ""
  ∧ (m !! keyPath = Some v
     ∨ (m !! keyPath = None
        ∧ descend (SplitPath keyPath) (VObject m) = Some v)).
Proof.
  unfold NavigateToKey, NavigateToKeyRef.
  destruct (ValidatePath keyPath) eqn:Hv; [done|].
  assert (keyPath ≠ "") as Hne.
  { intros ->. by rewrite ValidatePath_empty in Hv. }
  destruct (m !! keyPath) as [x|] eqn:Hm; simpl.
  - intros [= ->]. auto.
  - destruct (navigate_loop _ _ _ _ _ _) as [[r x]| |] eqn:Hnav; try done.
    simpl. intros [= ->]. apply navigate_loop_Ok in Hnav as [Hd _]. auto.
Qed.

(** After [SetValueAtPath] with creation at a path that did not exist,
    the lookup of the path returns the value. *)
Lemma SetValueAtPath_create_lookup m keyPath value m' :
  KeyExists (VObject m) keyPath = false →
  SetValueAtPath m keyPath value true = Ok m' →
  NavigateToKey (VObject m') keyPath = Ok value.
Proof.
  intros Hex Hset.
  apply SetValueAtPath_create_descend in Hset as (Hne & Hd & Hother).
  destruct (strings.ContainsByte keyPath dot) eqn:Hdot.
  - apply NavigateToKey_descend; [done| |done].
    rewrite Hother by by apply head_SplitPath_dotted.
    destruct (m !! keyPath) eqn:Hm; [|done].
    assert (KeyExists (VObject m) keyPath = true); [|congruence].
    apply KeyExists_descend; eauto.
  - rewrite SplitPath_dot_free in Hd by done. simpl in Hd.
    destruct (m' !! keyPath) as [x|] eqn:Hm'; [|done].
    simpl in Hd. injection Hd as ->. by apply NavigateToKey_literal.
Qed.

(** After [SetValueAtPath] with creation at a path that did not exist,
    the lookup of a path that succeeded before succeeds, with the value
    it had or, for an object, with that object grown. *)
Lemma SetValueAtPath_create_lookup_other m keyPath value m' q x :
  KeyExists (VObject m) keyPath = false →
  SetValueAtPath m keyPath value true = Ok m' →
  NavigateToKey (VObject m) q = Ok x →
  ∃ x', NavigateToKey (VObject m') q = Ok x' ∧ vle x x'.
Proof.
  intros Hex Hset Hnav.
  pose proof (SetValueAtPath_create_vle _ _ _ _ Hex Hset) as Hle.
  apply SetValueAtPath_create_descend in Hset as (Hne & _ & Hother).
  apply NavigateToKey_Ok_inv in Hnav as (Hq & Hcases).
  pose proof Hle as Hle'.
  apply vle_object_inv in Hle' as (m0 & [= <-] & Hsub).
  destruct Hcases as [Hlit|[Hlit Hd]].
  - destruct (Hsub _ _ Hlit) as (x' & Hx' & Hvle).
    exists x'. split; [|done]. by apply NavigateToKey_literal.
  - destruct (descend_vle _ _ _ _ Hle Hd) as (x' & Hd' & Hvle).
    exists x'. split; [|done]. apply NavigateToKey_descend; [done| |done].
    destruct (decide (head (SplitPath keyPath) = Some q)) as [Hhead|Hhead].
    + (* [q] is the first segment of the new path: it has no dot, and was
         not found as a single segment *)
      exfalso.
      assert (strings.ContainsByte q dot = false) as Hfree.
      { pose proof (proj1 (proj2 (SplitPath_Join_facts keyPath))) as Hall.
        destruct (SplitPath keyPath) as [|h t]; [done|].
        injection Hhead as ->. by inversion Hall. }
      rewrite SplitPath_dot_free in Hd by done. simpl in Hd.
      by rewrite Hlit in Hd.
    + by rewrite Hother.
Qed.

Lemma vle_not_object x x' : vle x x' → is_object x = false → x' = x.
Proof. by inversion 1. Qed.

End Adding.

Section AddKeyFacts.
Context (J : JSON).
Implicit Types (fs : gmap string Entry) (io : WriteIO).

(** A file just written by an operation loads as the document written,
    when the encoder reads it back. *)
Lemma load_written io fs filePath d :
  reads_back J d →
  operations.load J (<[filePath := written J io d 2]> fs) filePath = Ok d.
Proof.
  intros Hback. apply load_Ok. eexists. rewrite lookup_insert_eq.
  split_and!; [done|done|]. apply Hback.
Qed.

(** What has happened when [AddKey] returns no error. *)
Lemma AddKey_Ok io fs filePath keyPath value fs' :
  operations.AddKey J io fs filePath keyPath value = (Ok (), fs') →
  ∃ m m',
    operations.load J fs filePath = Ok (mkMap m)
    ∧ pathresolver.KeyExists (VObject m) keyPath = false
    ∧ pathresolver.SetValueAtPath m keyPath value true = Ok m'
    ∧ failure io = None ∧ fs !! tempName io = None
    ∧ fs' = <[filePath := written J io (mkMap m') 2]> fs.
Proof.
  unfold operations.AddKey.
  destruct (operations.load J fs filePath) as [data| |] eqn:Hload; [|done..].
  destruct (pathresolver.KeyExists (toValue data) keyPath) eqn:Hex; [done|].
  destruct data as [|m].
  { cbn [isNil andb entries]. case_bool_decide as Hp; cbn [negb]; [|done].
    subst keyPath. by vm_compute. }
  change (isNil (mkMap m)) with false. cbn [andb].
  change (entries (mkMap m)) with m.
  destruct (pathresolver.SetValueAtPath m keyPath value true) as [m'| |] eqn:Hset;
    [|by case_match|done].
  intros Hsave.
  pose proof (proj1 (load_Ok J _ _ _) Hload) as (f & Hfile & _).
  apply save_Ok in Hsave as (Hfail & Htemp & ->); [|by rewrite Hfile].
  exists m, m'. by split_and!.
Qed.

End AddKeyFacts.

(** X2. When [AddKey] returns no error, the encoder reading back the
    document it wrote, [GetKey] on the same path returns the value that
    was added, [KeyExists] answers true, and adding at the path once more
    fails with KEY_EXISTS and changes nothing. *)
Theorem AddKey_then_GetKey (J : JSON) (io io' : WriteIO) (fs fs' : gmap string Entry)
    (filePath keyPath : string) (value value' : Value) :
  (∀ data data',
     operations.load J fs filePath = Ok data →
     pathresolver.SetValueAtPath (entries data) keyPath value true = Ok data' →
     reads_back J (mkMap data')) →
  operations.AddKey J io fs filePath keyPath value = (Ok (), fs') →
  operations.GetKey J fs' filePath keyPath = Ok value
  ∧ operations.KeyExists J fs' filePath keyPath = Ok true
  ∧ operations.AddKey J io' fs' filePath keyPath value'
    = (Err (Errorf_w OP_ErrKeyExists
              (": Key '" +:+ keyPath +:+ "' already exists in " +:+ filePath)),
       fs').
Proof.
  intros Hback Hadd.
  apply AddKey_Ok in Hadd as (m & m' & Hload & Hex & Hset & _ & _ & ->).
  pose proof (load_written J io fs filePath (mkMap m')
                (Hback (mkMap m) m' Hload Hset)) as Hload'.
  pose proof (SetValueAtPath_create_lookup _ _ _ _ Hex Hset) as Hnav.
  assert (operations.KeyExists J (<[filePath := written J io (mkMap m') 2]> fs)
            filePath keyPath = Ok true) as Hexists.
  { unfold operations.KeyExists. rewrite Hload'.
    change (toValue (mkMap m')) with (VObject m').
    by rewrite KeyExists_spec, Hnav. }
  split_and!; [|done|].
  - unfold operations.GetKey. rewrite Hload'.
    change (toValue (mkMap m')) with (VObject m'). by rewrite Hnav.
  - unfold operations.AddKey. rewrite Hload'.
    change (toValue (mkMap m')) with (VObject m').
    by rewrite KeyExists_spec, Hnav.
Qed.

Lemma AddKey_then_GetKey_witness :
  operations.AddKey sampleJSON plainWrite sampleFS "i18n.json"
    "dashboard.subtitle" (VString "Overview")
  = (Ok (), oneFile "i18n.json" [x61; x64] 20)
  ∧ operations.GetKey sampleJSON (oneFile "i18n.json" [x61; x64] 20)
      "i18n.json" "dashboard.subtitle" = Ok (VString "Overview").
Proof.
  split; [reflexivity|].
  apply (AddKey_then_GetKey sampleJSON plainWrite plainWrite sampleFS
           (oneFile "i18n.json" [x61; x64] 20) "i18n.json" "dashboard.subtitle"
           (VString "Overview") VNull).
  - intros data data' Hload Hset.
    vm_compute in Hload. injection Hload as <-.
    vm_compute in Hset. injection Hset as <-. reflexivity.
  - reflexivity.
Defined.

(** X3. When [AddKey] returns no error, the encoder reading back the
    document it wrote, every path [GetKey] found before is found after:
    with the same value when that is not an object, and for an object
    with the object as it was or with entries added at some depth. *)
Theorem AddKey_keeps_other_paths (J : JSON) (io : WriteIO)
    (fs fs' : gmap string Entry) (filePath keyPath other : string)
    (value x : Value) :
  (∀ data data',
     operations.load J fs filePath = Ok data →
     pathresolver.SetValueAtPath (entries data) keyPath value true = Ok data' →
     reads_back J (mkMap data')) →
  operations.AddKey J io fs filePath keyPath value = (Ok (), fs') →
  operations.GetKey J fs filePath other = Ok x →
  ∃ x', operations.GetKey J fs' filePath other = Ok x'
        ∧ vle x x' ∧ (is_object x = false → x' = x).
Proof.
  intros Hback Hadd Hget.
  apply AddKey_Ok in Hadd as (m & m' & Hload & Hex & Hset & _ & _ & ->).
  pose proof (load_written J io fs filePath (mkMap m')
                (Hback (mkMap m) m' Hload Hset)) as Hload'.
  unfold operations.GetKey in *. rewrite Hload in Hget. rewrite Hload'.
  change (toValue (mkMap m)) with (VObject m) in Hget.
  change (toValue (mkMap m')) with (VObject m').
  destruct (pathresolver.NavigateToKey (VObject m) other) as [y| |] eqn:Hnav;
    [|by repeat case_match|done].
  injection Hget as ->.
  destruct (SetValueAtPath_create_lookup_other _ _ _ _ _ _ Hex Hset Hnav)
    as (x' & -> & Hle).
  exists x'. split_and!; [done|done|]. by apply vle_not_object.
Qed.

Lemma AddKey_keeps_other_paths_witness :
  ∃ x', operations.GetKey sampleJSON (oneFile "i18n.json" [x61; x64] 20)
          "i18n.json" "dashboard.title" = Ok x'
        ∧ vle (VString "Dashboard") x'
        ∧ (is_object (VString "Dashboard") = false → x' = VString "Dashboard").
Proof.
  apply (AddKey_keeps_other_paths sampleJSON plainWrite sampleFS
           (oneFile "i18n.json" [x61; x64] 20) "i18n.json" "dashboard.subtitle"
           "dashboard.title" (VString "Overview") (VString "Dashboard")).
  - intros data data' Hload Hset.
    vm_compute in Hload. injection Hload as <-.
    vm_compute in Hset. injection Hset as <-. reflexivity.
  - reflexivity.
  - reflexivity.
Defined.

(** ** A value that is not an object where a new path has to go *)




(** ** Updating and removing where no key of the root has a dot *)

Lemma ContainsByte_append_sep a b sep :
  strings.ContainsByte (a +:+ String sep b) sep = true.
Proof.
  induction a as [|c a IH].
  - simpl. by rewrite decide_True.
  - change (String c a +:+ String sep b) with (String c (a +:+ String sep b)).
    simpl. by case_decide.
Qed.

Lemma ContainsByte_Join e e' rest sep :
  strings.ContainsByte (strings.Join (e :: e' :: rest) (String sep "")) sep = true.
Proof. rewrite Join_cons_cons. apply ContainsByte_append_sep. Qed.

Section EditInPlace.
Import pathresolver.
Implicit Types (m parent : gmap string Value) (front : list string).

(** A value that keys lead through is an object. *)
Lemma descend_cons_object key keys v x :
  descend (key :: keys) v = Some x → ∃ c, v = VObject c.
Proof. destruct v; try done. eauto. Qed.

Lemma descend_to_object_inv front v parent :
  descend front v = Some (VObject parent) → ∃ c, v = VObject c.
Proof.
  destruct front as [|k front]; simpl.
  - intros [= ->]. eauto.
  - destruct v; try done. eauto.
Qed.

(** Writing through the reference of the parent: the final key then
    holds what was written there. *)
Lemma modify_descend front :
  ∀ m parent f,
    descend front (VObject m) = Some (VObject parent) →
    descend front (VObject (modify front f m)) = Some (VObject (f parent)).
Proof.
  induction front as [|k front IH]; intros m parent f Hd.
  - simpl in *. by injection Hd as ->.
  - cbn [descend] in Hd. destruct (m !! k) as [child|] eqn:Hk; [|done].
    destruct (descend_to_object_inv _ _ _ Hd) as [c ->].
    cbn [modify descend]. rewrite Hk, lookup_insert_eq. by apply IH.
Qed.

(** With no dotted key in the root, and a path that exists and does not
    start with a dot, [NavigateToParent] finds the object the split path
    leads to before its last segment. *)
Lemma NavigateToParent_dot_free m keyPath x :
  dot_free_keys m →
  firstSegment keyPath ≠ "" →
  descend (SplitPath keyPath) (VObject m) = Some x →
  ∃ front final parent,
    SplitPath keyPath = (front ++ [final])%list
    ∧ descend front (VObject m) = Some (VObject parent)
    ∧ parent !! final = Some x
    ∧ NavigateToParent (VObject m) keyPath = Ok (front, parent, final).
Proof.
  intros Hfree Hfirst Hd.
  assert (keyPath ≠ "") as Hne by (intros ->; done).
  pose proof (SplitPath_Split _ Hne) as Hsplit.
  destruct (exists_last (SplitPath_not_nil _ Hne)) as (front & final & Hkeys).
  exists front, final.
  rewrite Hkeys, descend_app in Hd.
  destruct (descend front (VObject m)) as [y|] eqn:Hfront; [|done].
  simpl in Hd. destruct y as [| | | | |parent]; try done.
  destruct (parent !! final) as [z|] eqn:Hfinal; [|done]. injection Hd as ->.
  exists parent. split_and!; try done.
  unfold NavigateToParent. rewrite ValidatePath_None, Hkeys by done.
  rewrite length_app, last_snoc. simpl.
  replace (length front + 1 - 1)%nat with (length front) by lia.
  rewrite take_app_length.
  destruct front as [|e front].
  { simpl in Hfront. injection Hfront as ->. by rewrite decide_True. }
  rewrite decide_False by (simpl; lia).
  pose proof (proj1 (proj2 (SplitPath_Join_facts keyPath))) as Hpieces.
  rewrite Hkeys in Hpieces. apply Forall_app in Hpieces as [Hpieces _].
  assert (e ≠ "") as He.
  { unfold firstSegment in Hfirst. rewrite <- Hsplit, Hkeys in Hfirst. done. }
  assert (strings.Join (e :: front) "." ≠ "") as Hparent.
  { destruct front; [done|]. apply (Join_not_empty e _ _ dot). }
  unfold NavigateToKeyRef. rewrite ValidatePath_None by done.
  destruct (m !! strings.Join (e :: front) ".") as [v|] eqn:Hlit.
  - assert (front = []) as ->.
    { destruct front as [|e' rest]; [done|].
      pose proof (Hfree _ (mk_is_Some _ _ Hlit)) as Hno.
      pose proof (ContainsByte_Join e e' rest dot) as Hyes.
      change (String dot "") with "." in Hyes. congruence. }
    simpl in *. rewrite Hlit in Hfront. by injection Hfront as ->.
  - rewrite (proj2 (proj2 (proj2 (SplitPath_Join_facts ""))) (e :: front))
      by (try done; by intros [= ->]).
    pose proof (proj2 (navigate_loop_Ok (strings.Join (e :: front) ".")
                         (e :: front) 0 (e :: front) [] (VObject m) _ _)
                  (conj Hfront eq_refl)) as ->. done.
Qed.

(** A dotted path is no key of a root without dotted keys, before and
    after a write through a reference that starts with a segment. *)
Lemma dotted_path_not_a_key m keyPath :
  dot_free_keys m → strings.ContainsByte keyPath dot = true → m !! keyPath = None.
Proof.
  intros Hfree Hdot. destruct (m !! keyPath) eqn:Hm; [|done].
  pose proof (Hfree _ (mk_is_Some _ _ Hm)). congruence.
Qed.

Lemma SplitPath_two_dotted keyPath e front final :
  SplitPath keyPath = ((e :: front) ++ [final])%list →
  strings.ContainsByte keyPath dot = true.
Proof.
  intros Hkeys.
  pose proof (proj1 (SplitPath_Join_facts keyPath)) as Hjoin.
  rewrite Hkeys in Hjoin. rewrite <- Hjoin.
  destruct front; apply (ContainsByte_Join _ _ _ dot).
Qed.

Lemma SplitPath_single keyPath final :
  SplitPath keyPath = [final] → keyPath = final.
Proof.
  intros Hkeys. pose proof (proj1 (SplitPath_Join_facts keyPath)) as Hjoin.
  by rewrite Hkeys in Hjoin.
Qed.

(** [SetValueAtPath] without creation, in such a document: afterwards the
    lookup of the path returns the new value. *)
Lemma SetValueAtPath_update_lookup m keyPath value :
  dot_free_keys m →
  firstSegment keyPath ≠ "" →
  KeyExists (VObject m) keyPath = true →
  ∃ m', SetValueAtPath m keyPath value false = Ok m'
        ∧ NavigateToKey (VObject m') keyPath = Ok value.
Proof.
  intros Hfree Hfirst Hex.
  assert (keyPath ≠ "") as Hne by (intros ->; done).
  assert (is_Some (descend (SplitPath keyPath) (VObject m))) as [x Hd].
  { apply KeyExists_descend in Hex as [[y Hy]|Hd]; [|done|done].
    rewrite SplitPath_dot_free; [|done|by apply Hfree].
    simpl. rewrite Hy. eauto. }
  destruct (NavigateToParent_dot_free _ _ _ Hfree Hfirst Hd)
    as (front & final & parent & Hkeys & Hfront & Hfinal & Hparent).
  unfold SetValueAtPath. rewrite Hparent. simpl. eexists. split; [done|].
  pose proof (modify_descend _ _ _ (<[final := value]>) Hfront) as Hd'.
  destruct front as [|e front].
  - simpl in *. apply SplitPath_single in Hkeys as ->.
    apply NavigateToKey_literal; [done|]. by rewrite lookup_insert_eq.
  - pose proof (SplitPath_two_dotted _ _ _ _ Hkeys) as Hdot.
    apply NavigateToKey_descend; [done| |].
    + rewrite modify_lookup_other; [by apply dotted_path_not_a_key| |done].
      simpl. intros [= ->].
      pose proof (proj1 (proj2 (SplitPath_Join_facts keyPath))) as Hpieces.
      rewrite Hkeys in Hpieces. inversion Hpieces; subst. congruence.
    + rewrite Hkeys, descend_app, Hd'. simpl. by rewrite lookup_insert_eq.
Qed.

(** [RemoveKeyAtPath] in such a document: it returns the value the
    lookup returns, and afterwards the path does not exist. *)
Lemma RemoveKeyAtPath_lookup m keyPath :
  dot_free_keys m →
  firstSegment keyPath ≠ "" →
  KeyExists (VObject m) keyPath = true →
  ∃ removed m', RemoveKeyAtPath m keyPath = Ok (removed, m')
                ∧ NavigateToKey (VObject m) keyPath = Ok removed
                ∧ KeyExists (VObject m') keyPath = false.
Proof.
  intros Hfree Hfirst Hex.
  assert (keyPath ≠ "") as Hne by (intros ->; done).
  assert (is_Some (descend (SplitPath keyPath) (VObject m))) as [x Hd].
  { apply KeyExists_descend in Hex as [[y Hy]|Hd]; [|done|done].
    rewrite SplitPath_dot_free; [|done|by apply Hfree].
    simpl. rewrite Hy. eauto. }
  destruct (NavigateToParent_dot_free _ _ _ Hfree Hfirst Hd)
    as (front & final & parent & Hkeys & Hfront & Hfinal & Hparent).
  unfold RemoveKeyAtPath. rewrite ValidatePath_None by done.
  destruct front as [|e front].
  - simpl in *. pose proof (SplitPath_single _ _ Hkeys) as ->.
    injection Hfront as <-. rewrite Hfinal.
    exists x, (delete final m). split_and!; [done|by apply NavigateToKey_literal|].
    destruct (KeyExists (VObject (delete final m)) final) eqn:Hex'; [|done].
    apply KeyExists_descend in Hex' as [[y Hy]|[y Hy]]; [| |done].
    + by rewrite lookup_delete_eq in Hy.
    + rewrite Hkeys in Hy. simpl in Hy. by rewrite lookup_delete_eq in Hy.
  - pose proof (SplitPath_two_dotted _ _ _ _ Hkeys) as Hdot.
    pose proof (dotted_path_not_a_key _ _ Hfree Hdot) as Hlit.
    rewrite Hlit, Hparent. simpl. rewrite Hfinal.
    exists x, (modify (e :: front) (delete final) m).
    split_and!; [done|by apply NavigateToKey_descend|].
    pose proof (modify_descend _ _ _ (delete final) Hfront) as Hd'.
    destruct (KeyExists (VObject (modify (e :: front) (delete final) m)) keyPath)
      eqn:Hex'; [|done].
    apply KeyExists_descend in Hex' as [[y Hy]|[y Hy]]; [| |done].
    + rewrite modify_lookup_other in Hy; [congruence| |done].
      simpl. intros [= ->].
      pose proof (proj1 (proj2 (SplitPath_Join_facts keyPath))) as Hpieces.
      rewrite Hkeys in Hpieces. inversion Hpieces; subst. congruence.
    + rewrite Hkeys, descend_app, Hd' in Hy. simpl in Hy.
      by rewrite lookup_delete_eq in Hy.
Qed.

End EditInPlace.

Lemma dot_free_keys_decide (m : gmap string Value) :
  bool_decide (map_Forall (λ k _, strings.ContainsByte k dot = false) m) = true →
  dot_free_keys m.
Proof.
  intros Hall%bool_decide_eq_true k [v Hk]. by apply (Hall k v).
Qed.

(** X5. In a document whose root has no key with a dot in it, for a path
    that exists and does not start with a dot, and a save during which
    nothing fails: [UpdateKey] returns no error, and, the encoder reading
    back the document it wrote, [GetKey] on the path then returns the
    new value. *)
Theorem UpdateKey_then_GetKey (J : JSON) (io : WriteIO) (fs : gmap string Entry)
    (filePath keyPath : string) (value : Value) (m : gmap string Value) :
  operations.load J fs filePath = Ok (mkMap m) →
  dot_free_keys m →
  firstSegment keyPath ≠ "" →
  pathresolver.KeyExists (VObject m) keyPath = true →
  failure io = None →
  fs !! tempName io = None →
  (∀ m', pathresolver.SetValueAtPath m keyPath value false = Ok m' →
         reads_back J (mkMap m')) →
  ∃ fs', operations.UpdateKey J io fs filePath keyPath value = (Ok (), fs')
         ∧ operations.GetKey J fs' filePath keyPath = Ok value.
Proof.
  intros Hload Hfree Hfirst Hex Hfail Htemp Hback.
  destruct (SetValueAtPath_update_lookup m keyPath value Hfree Hfirst Hex)
    as (m' & Hset & Hnav).
  pose proof (proj1 (load_Ok J _ _ _) Hload) as (f & Hfile & _).
  exists (<[filePath := written J io (mkMap m') 2]> fs). split.
  - unfold operations.UpdateKey. rewrite Hload.
    rewrite ValidatePath_None by (intros ->; done).
    change (toValue (mkMap m)) with (VObject m). rewrite Hex. cbn [negb].
    change (entries (mkMap m)) with m. rewrite Hset.
    apply save_Ok; [by rewrite Hfile|done].
  - unfold operations.GetKey.
    rewrite (load_written J io fs filePath (mkMap m') (Hback m' Hset)).
    change (toValue (mkMap m')) with (VObject m'). by rewrite Hnav.
Qed.

Lemma UpdateKey_then_GetKey_witness :
  ∃ fs', operations.UpdateKey sampleJSON plainWrite sampleFS "i18n.json"
           "dashboard.title" (VString "Control Panel") = (Ok (), fs')
         ∧ operations.GetKey sampleJSON fs' "i18n.json" "dashboard.title"
           = Ok (VString "Control Panel").
Proof.
  apply (UpdateKey_then_GetKey sampleJSON plainWrite sampleFS "i18n.json"
           "dashboard.title" (VString "Control Panel") sampleDoc);
    try reflexivity.
  - by apply dot_free_keys_decide.
  - by vm_compute.
  - intros m' Hset. vm_compute in Hset. injection Hset as <-. reflexivity.
Defined.

(** X6. In a document whose root has no key with a dot in it, for a path
    that exists and does not start with a dot, and a save during which
    nothing fails: [RemoveKey] returns the value [GetKey] returned for
    the path, and, the encoder reading back the document it wrote,
    [KeyExists] on the path then answers false. *)
Theorem RemoveKey_then_gone (J : JSON) (io : WriteIO) (fs : gmap string Entry)
    (filePath keyPath : string) (m : gmap string Value) :
  operations.load J fs filePath = Ok (mkMap m) →
  dot_free_keys m →
  firstSegment keyPath ≠ "" →
  pathresolver.KeyExists (VObject m) keyPath = true →
  failure io = None →
  fs !! tempName io = None →
  (∀ removed m', pathresolver.RemoveKeyAtPath m keyPath = Ok (removed, m') →
                 reads_back J (mkMap m')) →
  ∃ removed fs',
    operations.RemoveKey J io fs filePath keyPath = (Ok removed, fs')
    ∧ operations.GetKey J fs filePath keyPath = Ok removed
    ∧ operations.KeyExists J fs' filePath keyPath = Ok false.
Proof.
  intros Hload Hfree Hfirst Hex Hfail Htemp Hback.
  destruct (RemoveKeyAtPath_lookup m keyPath Hfree Hfirst Hex)
    as (removed & m' & Hrem & Hnav & Hgone).
  pose proof (proj1 (load_Ok J _ _ _) Hload) as (f & Hfile & _).
  exists removed, (<[filePath := written J io (mkMap m') 2]> fs). split_and!.
  - unfold operations.RemoveKey. rewrite Hload.
    rewrite ValidatePath_None by (intros ->; done).
    change (toValue (mkMap m)) with (VObject m). rewrite Hex. cbn [negb].
    change (entries (mkMap m)) with m. rewrite Hrem.
    assert (operations.save J io fs filePath (mkMap m') operations.ErrRemoveKeyError
            = (Ok (), <[filePath := written J io (mkMap m') 2]> fs)) as ->; [|done].
    apply save_Ok; [by rewrite Hfile|done].
  - unfold operations.GetKey. rewrite Hload.
    change (toValue (mkMap m)) with (VObject m). by rewrite Hnav.
  - unfold operations.KeyExists.
    rewrite (load_written J io fs filePath (mkMap m') (Hback removed m' Hrem)).
    change (toValue (mkMap m')) with (VObject m'). by rewrite Hgone.
Qed.

Lemma RemoveKey_then_gone_witness :
  ∃ removed fs',
    operations.RemoveKey sampleJSON plainWrite sampleFS "i18n.json"
      "dashboard.title" = (Ok removed, fs')
    ∧ operations.GetKey sampleJSON sampleFS "i18n.json" "dashboard.title"
      = Ok removed
    ∧ operations.KeyExists sampleJSON fs' "i18n.json" "dashboard.title" = Ok false.
Proof.
  apply (RemoveKey_then_gone sampleJSON plainWrite sampleFS "i18n.json"
           "dashboard.title" sampleDoc); try reflexivity.
  - by apply dot_free_keys_decide.
  - by vm_compute.
  - intros removed m' Hrem. vm_compute in Hrem. injection Hrem as <- <-.
    reflexivity.
Defined.

(** ** The empty path, and a file that is not there *)

(** X7. On a file that loads, with the empty path: [GetKey],
    [UpdateKey] and [RemoveKey] fail with INVALID_PATH; [AddKey] fails
    with ADD_KEY_ERROR, the INVALID_PATH message inside it; [ListKeys]
    returns the error of [pathresolver] as it is; and [RenameKey] with
    an empty old or new path (the other one not empty) fails with
    INVALID_PATH on any directory, before the file is looked at. None of
    them changes the directory. *)
Theorem empty_path_errors (J : JSON) (io : WriteIO) (fs : gmap string Entry)
    (filePath other : string) (value : Value) (data : GoMap)
    (visit : gmap string Value → list string) :
  let invalid := Errorf_w OP_ErrInvalidPath
                   ": INVALID_PATH: Key path cannot be empty" in
  operations.load J fs filePath = Ok data →
  other ≠ "" →
  operations.GetKey J fs filePath "" = Err invalid
  ∧ operations.UpdateKey J io fs filePath "" value = (Err invalid, fs)
  ∧ operations.RemoveKey J io fs filePath "" = (Err invalid, fs)
  ∧ operations.AddKey J io fs filePath "" value
    = (Err (Errorf_w OP_ErrAddKeyError
              ": Failed to add key '': INVALID_PATH: Key path cannot be empty"),
       fs)
  ∧ operations.ListKeys J visit fs filePath (Some "")
    = Err (Errorf_w PR_ErrInvalidPath ": Key path cannot be empty")
  ∧ (∀ fs0, operations.RenameKey J io fs0 filePath "" other = (Err invalid, fs0))
  ∧ (∀ fs0, operations.RenameKey J io fs0 filePath other "" = (Err invalid, fs0)).
Proof.
  intros invalid Hload Hother. split_and!.
  - unfold operations.GetKey. by rewrite Hload.
  - unfold operations.UpdateKey. by rewrite Hload.
  - unfold operations.RemoveKey. by rewrite Hload.
  - unfold operations.AddKey. rewrite Hload.
    assert (pathresolver.KeyExists (toValue data) "" = false) as -> by done.
    by destruct data.
  - unfold operations.ListKeys. by rewrite Hload.
  - intros fs0. unfold operations.RenameKey. by rewrite decide_False.
  - intros fs0. unfold operations.RenameKey. rewrite decide_False by done.
    by rewrite ValidatePath_None.
Qed.

Lemma empty_path_errors_witness :
  operations.AddKey sampleJSON plainWrite sampleFS "i18n.json" "" (VString "value")
  = (Err (Errorf_w OP_ErrAddKeyError
            ": Failed to add key '': INVALID_PATH: Key path cannot be empty"),
     sampleFS)
  ∧ operations.RenameKey sampleJSON plainWrite ∅ "i18n.json" "" "new.key"
    = (Err (Errorf_w OP_ErrInvalidPath
              ": INVALID_PATH: Key path cannot be empty"), ∅).
Proof.
  pose proof (empty_path_errors sampleJSON plainWrite sampleFS "i18n.json"
                "new.key" (VString "value") (mkMap sampleDoc) listedVisit
                eq_refl ltac:(done)) as (_ & _ & _ & Hadd & _ & Hrename & _).
  split; [exact Hadd|apply Hrename].
Defined.



(** ** What a save touches, and reading back *)

Section SaveFacts.
Context (J : JSON).
Implicit Types (fs : gmap string Entry) (h : jsonhandler.JSONHandler).

Lemma SaveJSON_other io h fs data indent q :
  q ≠ jsonhandler.filePath h →
  (jsonhandler.SaveJSON J io h fs data indent).2 !! q = fs !! q.
Proof.
  intros Hq.
  destruct (jsonhandler.SaveJSON J io h fs data indent) as [[[err|] h'] fs'] eqn:E;
    simpl.
  - by apply SaveJSON_error in E as [-> _].
  - apply SaveJSON_success in E as (_ & Ht & -> & _).
    destruct (decide (q = tempName io)) as [->|Hne].
    + by rewrite lookup_delete_eq.
    + by rewrite lookup_delete_ne, lookup_insert_ne.
Qed.

Lemma save_other io fs filePath data opError q :
  q ≠ filePath →
  (operations.save J io fs filePath data opError).2 !! q = fs !! q.
Proof.
  intros Hq. unfold operations.save.
  pose proof (SaveJSON_other io (operations.loadedHandler J fs filePath) fs data 2 q)
    as Hs.
  rewrite loadedHandler_filePath in Hs.
  destruct (jsonhandler.SaveJSON _ _ _ _ _ _) as [[[err|] h'] fs'];
    simpl in *; by apply Hs.
Qed.

End SaveFacts.

(** X9. Whatever happens during the save, [SaveJSON] leaves every path
    other than the path of the handler as it was: no other file is
    changed, and the temporary file it writes is not left behind. The
    same holds for the four mutating operations and the file they are
    called on. *)
Theorem writes_touch_only_the_file (J : JSON) (io : WriteIO)
    (fs : gmap string Entry) (filePath other : string) :
  other ≠ filePath →
  (∀ h data indent,
     jsonhandler.filePath h = filePath →
     (jsonhandler.SaveJSON J io h fs data indent).2 !! other = fs !! other)
  ∧ (∀ keyPath value,
       (operations.AddKey J io fs filePath keyPath value).2 !! other = fs !! other)
  ∧ (∀ keyPath value,
       (operations.UpdateKey J io fs filePath keyPath value).2 !! other = fs !! other)
  ∧ (∀ oldPath newPath,
       (operations.RenameKey J io fs filePath oldPath newPath).2 !! other = fs !! other)
  ∧ (∀ keyPath,
       (operations.RemoveKey J io fs filePath keyPath).2 !! other = fs !! other).
Proof.
  intros Hother. split_and!.
  - intros h data indent <-. by apply SaveJSON_other.
  - intros keyPath value. unfold operations.AddKey.
    repeat case_match; simpl; try done; by apply save_other.
  - intros keyPath value. unfold operations.UpdateKey.
    repeat case_match; simpl; try done; by apply save_other.
  - intros oldPath newPath. unfold operations.RenameKey.
    repeat case_match; simpl; try done; by apply save_other.
  - intros keyPath. unfold operations.RemoveKey.
    repeat case_match; simpl; try done;
      match goal with
      | H : operations.save J io fs filePath ?d ?e = (_, ?fs') |- ?fs' !! _ = _ =>
          pose proof (save_other J io fs filePath d e other Hother) as Hs;
          rewrite H in Hs; exact Hs
      end.
Qed.

Lemma writes_touch_only_the_file_witness :
  (operations.AddKey sampleJSON plainWrite sampleFS "i18n.json"
     "dashboard.subtitle" (VString "Overview")).2 !! "1234.tmp" = None.
Proof.
  apply (writes_touch_only_the_file sampleJSON plainWrite sampleFS "i18n.json"
           "1234.tmp"); done.
Defined.

(** X10. After a [SaveJSON] that returns no error, the temporary name
    not being the path of the handler, the file at that path holds the
    encoded document; when the decoder reads that text back as the
    document, [LoadJSON] on a new handler for the path, with or without
    the cache, reads the file and returns the document, and so does
    [LoadJSON(false)] on the handler that saved. *)
Theorem SaveJSON_then_LoadJSON (J : JSON) (io : WriteIO)
    (h h' : jsonhandler.JSONHandler) (fs fs' : gmap string Entry)
    (data : GoMap) (indent : Z) (useCache : bool) :
  jsonhandler.SaveJSON J io h fs data indent = (None, h', fs') →
  tempName io ≠ jsonhandler.filePath h →
  Unmarshal_map J (Encode J data (jsonhandler.getIndentString indent))
  = UnmarshalledMap data →
  onDisk fs' (jsonhandler.filePath h)
  = Some (Encode J data (jsonhandler.getIndentString indent))
  ∧ (let l := jsonhandler.LoadJSON J
                (jsonhandler.NewJSONHandler (jsonhandler.filePath h)) fs' useCache in
     jsonhandler.loadResult l = Ok data ∧ jsonhandler.didRead l = true)
  ∧ jsonhandler.LoadJSON J h' fs' false = jsonhandler.mkLoaded (Ok data) h' true.
Proof.
  intros Hsave Hne Hback.
  apply SaveJSON_success in Hsave as (_ & _ & -> & ->).
  assert ((delete (tempName io)
             (<[jsonhandler.filePath h := written J io data indent]> fs))
          !! jsonhandler.filePath h = Some (written J io data indent)) as Hfile.
  { by rewrite lookup_delete_ne, lookup_insert_eq. }
  split_and!.
  - unfold onDisk. by rewrite Hfile.
  - unfold jsonhandler.LoadJSON, os_Stat, os_ReadFile. simpl.
    rewrite Hfile. simpl. rewrite andb_false_r. simpl. rewrite Hback.
    by destruct useCache.
  - unfold jsonhandler.LoadJSON, os_Stat, os_ReadFile. simpl.
    rewrite Hfile. simpl. by rewrite Hback.
Qed.

Lemma SaveJSON_then_LoadJSON_witness :
  jsonhandler.loadResult
    (jsonhandler.LoadJSON sampleJSON (jsonhandler.NewJSONHandler "i18n.json")
       (oneFile "i18n.json" [x61; x64] 20) false)
  = Ok (mkMap sampleAdded).
Proof.
  apply (SaveJSON_then_LoadJSON sampleJSON plainWrite
           (jsonhandler.NewJSONHandler "i18n.json")
           (jsonhandler.mkJSONHandler "i18n.json" (mkMap sampleAdded) 20)
           sampleFS (oneFile "i18n.json" [x61; x64] 20) (mkMap sampleAdded) 2 false);
    [reflexivity|done|reflexivity].
Defined.

(** X11. [LoadJSON(false)] never answers from the cache and never
    changes the handler: its result is the result of a new handler for
    the same path. A load that fails, with or without the cache, leaves
    the handler as it was, and no load changes the path of the handler.
    After [ClearCache] a [LoadJSON(true)] returns what [LoadJSON(false)]
    returns, and the handler reports no cache entry. *)
Theorem LoadJSON_without_cache (J : JSON) (h : jsonhandler.JSONHandler)
    (fs : gmap string Entry) (useCache : bool) :
  let fresh := jsonhandler.NewJSONHandler (jsonhandler.filePath h) in
  jsonhandler.loadHandler (jsonhandler.LoadJSON J h fs false) = h
  ∧ jsonhandler.loadResult (jsonhandler.LoadJSON J h fs false)
    = jsonhandler.loadResult (jsonhandler.LoadJSON J fresh fs false)
  ∧ jsonhandler.loadResult (jsonhandler.LoadJSON J (jsonhandler.ClearCache h) fs true)
    = jsonhandler.loadResult (jsonhandler.LoadJSON J h fs false)
  ∧ jsonhandler.IsCached (jsonhandler.GetFileInfo (jsonhandler.ClearCache h) fs) = false
  ∧ jsonhandler.filePath (jsonhandler.loadHandler (jsonhandler.LoadJSON J h fs useCache))
    = jsonhandler.filePath h
  ∧ (if is_Ok (jsonhandler.loadResult (jsonhandler.LoadJSON J h fs useCache))
     then True
     else jsonhandler.loadHandler (jsonhandler.LoadJSON J h fs useCache) = h).
Proof.
  unfold jsonhandler.LoadJSON, jsonhandler.GetFileInfo, os_ReadFile, os_Stat.
  simpl.
  destruct (fs !! jsonhandler.filePath h) as [[f|msg]|]; simpl; try done.
  all: split_and!; try done.
  all: try (destruct (useCache && _ && _); [done|]).
  all: try (destruct (readError f); [done|]).
  all: try (destruct (Unmarshal_map J (content f)); [done|]).
  all: by destruct useCache.
Qed.

(** ** Lines and columns *)

Lemma countLF_afterLastLF bs :
  countLF bs + Z.of_nat (length (afterLastLF bs)) ≤ Z.of_nat (length bs).
Proof.
  induction bs as [|b bs IH]; simpl; [done|].
  pose proof (countLF_nonneg bs).
  destruct (Z.eqb_spec (countLF bs) 0) as [H0|H0];
    destruct (Byte.eqb b x0a); simpl; lia.
Qed.

(** X12. [getLineColumn] on any bytes and any offset, negative or past
    the end: the offset counts as the nearest one from 0 to the length of
    the data; the line and the column are at least 1; and together they
    are at most two more than that offset, so neither exceeds the length
    of the data plus one. *)
Theorem getLineColumn_bounds (data : list byte) (offset : Z) :
  let reached := Z.min (Z.max offset 0) (Z.of_nat (length data)) in
  let '(line, col) := jsonhandler.getLineColumn data offset in
  jsonhandler.getLineColumn data reached = (line, col)
  ∧ 1 ≤ line ∧ 1 ≤ col ∧ line + col ≤ reached + 2.
Proof.
  intros reached. rewrite !getLineColumn_spec.
  unfold lineAt, columnAt, upTo.
  assert (take (Z.to_nat reached) data = take (Z.to_nat offset) data) as Htake.
  { unfold reached.
    destruct (Z.le_gt_cases (Z.of_nat (length data)) offset) as [Hle|Hgt].
    - rewrite !take_ge by lia. done.
    - f_equal. lia. }
  rewrite Htake.
  pose proof (countLF_afterLastLF (take (Z.to_nat offset) data)) as Hsum.
  pose proof (countLF_nonneg (take (Z.to_nat offset) data)).
  rewrite length_take in Hsum.
  split_and!; [done|lia|lia|unfold reached; lia].
Qed.

(** ** Validation *)

(** X13. [ValidateJSON] returns no error. Its result names the file; it
    is valid exactly when the file is there, can be read, is not empty
    and parses, and it then carries no error, an empty error type and
    the size of the file in bytes; a result that is not valid carries an
    error, no size, and one of the error types FILE_NOT_FOUND,
    PARSE_ERROR and FILE_READ_ERROR. It panics exactly when [os.Stat]
    fails on the path for another reason than the file not being
    there. *)
Theorem ValidateJSON_result (J : JSON) (fs : gmap string Entry)
    (filePath : string) :
  match operations.ValidateJSON J fs filePath with
  | Err _ => False
  | Panic _ => ∃ msg, fs !! filePath = Some (Inaccessible msg)
  | Ok r =>
      jsonhandler.File r = filePath
      ∧ (∀ msg, fs !! filePath ≠ Some (Inaccessible msg))
      ∧ if jsonhandler.Valid r then
          jsonhandler.Error r = None ∧ jsonhandler.ErrorType r = ""
          ∧ ∃ f v, fs !! filePath = Some (Regular f) ∧ readError f = None
                   ∧ content f ≠ []
                   ∧ Unmarshal_any J (content f) = Unmarshalled v
                   ∧ jsonhandler.Performance r
                     = Some (jsonhandler.mkPerformanceMetrics
                               (Z.of_nat (length (content f))))
        else
          is_Some (jsonhandler.Error r) ∧ jsonhandler.Performance r = None
          ∧ jsonhandler.ErrorType r
            ∈ ["FILE_NOT_FOUND"; "PARSE_ERROR"; "FILE_READ_ERROR"]
          ∧ ¬ ∃ f v, fs !! filePath = Some (Regular f) ∧ readError f = None
                     ∧ content f ≠ []
                     ∧ Unmarshal_any J (content f) = Unmarshalled v
  end.
Proof.
  unfold operations.ValidateJSON, jsonhandler.ValidateJSONSyntax,
    jsonhandler.GetFileInfo, os_Stat, os_ReadFile. simpl.
  destruct (fs !! filePath) as [[f|msg]|] eqn:Hfile; simpl.
  - repeat match goal with
           | |- context [bool_decide ?P] => destruct (bool_decide_reflect P); simpl
           | |- context [readError f] => destruct (readError f) eqn:?; simpl
           | |- context [Unmarshal_any J (content f)] =>
               destruct (Unmarshal_any J (content f)) eqn:?; simpl
           | |- context [jsonhandler.getLineColumn ?d ?o] =>
               destruct (jsonhandler.getLineColumn d o); simpl
           end.
    all: split; [done|]; split; [done|].
    all: try (split; [by eexists|]; split; [done|];
              split; [rewrite !elem_of_cons; auto|]).
    all: try (intros (f' & v' & Hf & Hr & Hne & Hp); simplify_eq;
              try congruence;
              try (destruct (content f'); simpl in *; done || lia)).
    split; [done|]. split; [done|]. eexists f, _. split_and!; try done.
    by destruct (content f).
  - by exists msg.
  - split; [done|]. split; [done|]. split; [by eexists|]. split; [done|].
    split; [rewrite !elem_of_cons; auto|]. by intros (f' & v' & [=] & _).
Qed.

(** ** Listing keys *)

Lemma visit_length (visit : gmap string Value → list string)
    (m : gmap string Value) :
  visits_each_key_once visit → length (visit m) = size m.
Proof.
  intros Hvisit. destruct (Hvisit m) as [Hnodup Hin].
  rewrite <-(length_map_to_list m), <-(length_fmap fst (map_to_list m)).
  apply Permutation_length, NoDup_Permutation;
    [done|apply NoDup_fst_map_to_list|].
  intros k. rewrite Hin, list_elem_of_fmap. split.
  - intros [v Hv]. exists (k, v). by rewrite elem_of_map_to_list.
  - intros [[k' v] [-> Hv]]. apply elem_of_map_to_list in Hv. by exists v.
Qed.

Lemma listedVisit_visits : visits_each_key_once listedVisit.
Proof.
  intros m. unfold listedVisit. split; [apply NoDup_fst_map_to_list|].
  intros k. rewrite list_elem_of_fmap. split.
  - intros [[k' v] [-> Hv]]. apply elem_of_map_to_list in Hv. by exists v.
  - intros [v Hv]. exists (k, v). by rewrite elem_of_map_to_list.
Qed.

Lemma GetKey_Ok_inv (J : JSON) (fs : gmap string Entry)
    (filePath keyPath : string) (data : GoMap) (v : Value) :
  operations.load J fs filePath = Ok data →
  operations.GetKey J fs filePath keyPath = Ok v ↔
  pathresolver.NavigateToKey (toValue data) keyPath = Ok v.
Proof.
  intros Hload. unfold operations.GetKey. rewrite Hload.
  destruct (pathresolver.NavigateToKey (toValue data) keyPath) as [x|err|];
    [split; congruence|by repeat case_match|done].
Qed.

(** X14. On a file that loads, whatever the order in which [range]
    goes over a map: [ListKeys] without a path returns the keys of the
    document, each one once, and every one of them that is not the empty
    string exists as a path, dots in it or not; [ListKeys] with a path
    at which [GetKey] returns an object returns the keys of that object,
    each one once. *)
Theorem ListKeys_each_key_once (J : JSON)
    (visit : gmap string Value → list string) (fs : gmap string Entry)
    (filePath : string) (data : GoMap) :
  visits_each_key_once visit →
  operations.load J fs filePath = Ok data →
  (∃ keys, operations.ListKeys J visit fs filePath None = Ok keys
           ∧ NoDup keys ∧ length keys = size (entries data)
           ∧ (∀ k, k ∈ keys ↔ is_Some (entries data !! k))
           ∧ ∀ k, k ∈ keys → k ≠ "" →
                  operations.KeyExists J fs filePath k = Ok true)
  ∧ ∀ keyPath target,
      operations.GetKey J fs filePath keyPath = Ok (VObject target) →
      ∃ keys, operations.ListKeys J visit fs filePath (Some keyPath) = Ok keys
              ∧ NoDup keys ∧ length keys = size target
              ∧ ∀ k, k ∈ keys ↔ is_Some (target !! k).
Proof.
  intros Hvisit Hload. split.
  - exists (visit (entries data)).
    destruct (Hvisit (entries data)) as [Hnodup Hin].
    split_and!; [|done|by apply visit_length|done|].
    + unfold operations.ListKeys. by rewrite Hload.
    + intros k Hk Hne. apply Hin in Hk as [v Hv].
      unfold operations.KeyExists. rewrite Hload. f_equal.
      rewrite KeyExists_spec. unfold toValue.
      by rewrite (NavigateToKey_literal _ _ v).
  - intros keyPath target Hget. exists (visit target).
    destruct (Hvisit target) as [Hnodup Hin].
    split_and!; [|done|by apply visit_length|done].
    apply (GetKey_Ok_inv J fs filePath keyPath data) in Hget; [|done].
    unfold operations.ListKeys, pathresolver.GetAllKeysAtPath.
    rewrite Hload. simpl. by rewrite Hget.
Qed.

Lemma ListKeys_each_key_once_witness :
  ∃ keys, operations.ListKeys sampleJSON listedVisit sampleFS "i18n.json"
            (Some "dashboard") = Ok keys
          ∧ NoDup keys ∧ length keys = 2%nat
          ∧ ∀ k, k ∈ keys ↔ k = "title" ∨ k = "stats".
Proof.
  destruct (proj2 (ListKeys_each_key_once sampleJSON listedVisit sampleFS
                     "i18n.json" (mkMap sampleDoc) listedVisit_visits eq_refl)
              "dashboard"
              {[ "title" := VString "Dashboard";
                 "stats" := VObject {[ "users" := VString "Total Users" ]} ]}
              eq_refl) as (keys & Hlist & Hnodup & Hlen & Hin).
  exists keys. split_and!; [done|done|done|].
  intros k. rewrite Hin. split.
  - intros [v Hv].
    destruct (decide (k = "title")) as [->|Ht]; [by left|].
    destruct (decide (k = "stats")) as [->|Hs]; [by right|].
    by rewrite lookup_insert_ne, lookup_singleton_ne in Hv.
  - by intros [->| ->].
Defined.

Lemma navigate_loop_not_Panic keyPath keys i rest ref current msg :
  pathresolver.navigate_loop keyPath keys i rest ref current ≠ Panic msg.
Proof.
  revert i ref current.
  induction rest as [|key rest IH]; intros i ref current; simpl; [done|].
  destruct current as [| | | | |m]; try done.
  destruct (m !! key); [apply IH|done].
Qed.

Lemma NavigateToKey_not_Panic data keyPath msg :
  pathresolver.NavigateToKey data keyPath ≠ Panic msg.
Proof.
  unfold pathresolver.NavigateToKey, pathresolver.NavigateToKeyRef.
  destruct (pathresolver.ValidatePath keyPath); [done|].
  destruct data as [| | | | |m]; try done.
  destruct (m !! keyPath); [done|].
  destruct (pathresolver.navigate_loop _ _ _ _ _ _) as [[r x]|e|msg'] eqn:E;
    try done.
  by apply navigate_loop_not_Panic in E.
Qed.

(** X15. On a file that loads, [ListKeys] with a path returns keys
    exactly when [GetKey] returns an object at that path, and it never
    panics. Where [GetKey] returns a value that is not an object, it
    fails with an error that wraps no sentinel and whose text has the
    code NOT_OBJECT twice; where [GetKey] fails with the KEY_NOT_FOUND
    sentinel of [operations], it fails with the same error. *)
Theorem ListKeys_errors (J : JSON) (visit : gmap string Value → list string)
    (fs : gmap string Entry) (filePath keyPath : string) (data : GoMap) :
  operations.load J fs filePath = Ok data →
  is_Ok (operations.ListKeys J visit fs filePath (Some keyPath))
  = match operations.GetKey J fs filePath keyPath with
    | Ok v => is_object v
    | _ => false
    end
  ∧ (∀ msg, operations.ListKeys J visit fs filePath (Some keyPath) ≠ Panic msg)
  ∧ (∀ v, operations.GetKey J fs filePath keyPath = Ok v →
          is_object v = false →
          operations.ListKeys J visit fs filePath (Some keyPath)
          = Err {| wraps := None;
                   message := "NOT_OBJECT: NOT_OBJECT: Value at '" +:+ keyPath
                              +:+ "' is not an object, cannot list keys" |})
  ∧ (∀ err, operations.GetKey J fs filePath keyPath = Err err →
            errors_Is err OP_ErrKeyNotFound = true →
            operations.ListKeys J visit fs filePath (Some keyPath) = Err err).
Proof.
  intros Hload.
  unfold operations.ListKeys, operations.GetKey, pathresolver.GetAllKeysAtPath.
  rewrite Hload. simpl.
  destruct (pathresolver.NavigateToKey (toValue data) keyPath) as [v|err|] eqn:Hnav;
    simpl.
  - split_and!.
    + by destruct v.
    + by destruct v.
    + intros v' [= <-] Hobj.
      destruct v; try done; simpl; by rewrite !string_append_assoc.
    + done.
  - destruct (errors_Is err pathresolver.ErrKeyNotFound) eqn:Hk; simpl.
    + split_and!; try done. intros err' [= <-] _.
      by rewrite !string_append_assoc.
    + destruct (errors_Is err pathresolver.ErrInvalidPath) eqn:Hi; simpl;
        destruct (errors_Is err pathresolver.ErrNotObject) eqn:Hn; simpl;
        split_and!; try done; by intros err' [= <-] H'.
  - by apply NavigateToKey_not_Panic in Hnav.
Qed.

Lemma ListKeys_errors_witness :
  operations.ListKeys sampleJSON listedVisit sampleFS "i18n.json" (Some "count")
  = Err (Errorf "NOT_OBJECT: NOT_OBJECT: Value at 'count' is not an object, cannot list keys").
Proof.
  apply (proj1 (proj2 (proj2 (ListKeys_errors sampleJSON listedVisit sampleFS
                  "i18n.json" "count" (mkMap sampleDoc) eq_refl)))
           (number 42)); reflexivity.
Defined.

(** ** Renaming where no key of the root has a dot *)

Section Renaming.
Import pathresolver.
Implicit Types (m : gmap string Value) (front keys : list string).

(** A write at the end of one path leaves what another path leads to,
    when neither path runs through the other. *)
Lemma modify_descend_apart front final f :
  (∀ parent k, k ≠ final → f parent !! k = parent !! k) →
  ∀ keys m,
    ¬ (front ++ [final])%list `prefix_of` keys →
    ¬ keys `prefix_of` (front ++ [final])%list →
    descend keys (VObject (modify front f m)) = descend keys (VObject m).
Proof.
  intros Hf. induction front as [|e front IH]; intros keys m Hn1 Hn2.
  - destruct keys as [|k rest]; [exfalso; apply Hn2, prefix_nil|].
    simpl. rewrite Hf; [done|]. intros ->. apply Hn1. simpl.
    apply prefix_cons, prefix_nil.
  - destruct keys as [|k rest]; [exfalso; apply Hn2, prefix_nil|].
    cbn [modify]. destruct (m !! e) as [[| | | | |c]|] eqn:He; try done.
    cbn [descend]. destruct (decide (k = e)) as [->|Hke].
    + rewrite lookup_insert_eq, He. apply IH.
      * intros Hp. apply Hn1. simpl. by apply prefix_cons.
      * intros Hp. apply Hn2. simpl. by apply prefix_cons.
    + by rewrite lookup_insert_ne.
Qed.

(** In a document without dotted keys in the root, a path that exists
    is one the split path leads down. *)
Lemma KeyExists_dot_free_descend m keyPath :
  dot_free_keys m → keyPath ≠ "" →
  KeyExists (VObject m) keyPath = true →
  is_Some (descend (SplitPath keyPath) (VObject m)).
Proof.
  intros Hfree Hne Hex.
  apply KeyExists_descend in Hex as [[y Hy]|Hd]; [|done|done].
  rewrite SplitPath_dot_free; [|done|by apply Hfree].
  simpl. rewrite Hy. eauto.
Qed.

(** The document [RemoveKeyAtPath] leaves, in such a document. *)
Lemma RemoveKeyAtPath_shape m keyPath :
  dot_free_keys m →
  firstSegment keyPath ≠ "" →
  KeyExists (VObject m) keyPath = true →
  ∃ front final removed,
    SplitPath keyPath = (front ++ [final])%list
    ∧ RemoveKeyAtPath m keyPath = Ok (removed, modify front (delete final) m).
Proof.
  intros Hfree Hfirst Hex.
  assert (keyPath ≠ "") as Hne by (intros ->; done).
  destruct (KeyExists_dot_free_descend _ _ Hfree Hne Hex) as [x Hd].
  destruct (NavigateToParent_dot_free _ _ _ Hfree Hfirst Hd)
    as (front & final & parent & Hkeys & Hfront & Hfinal & Hparent).
  exists front, final, x. split; [done|].
  unfold RemoveKeyAtPath. rewrite ValidatePath_None by done.
  destruct front as [|e front].
  - simpl in *. pose proof (SplitPath_single _ _ Hkeys) as ->.
    injection Hfront as <-. by rewrite Hfinal.
  - pose proof (SplitPath_two_dotted _ _ _ _ Hkeys) as Hdot.
    rewrite (dotted_path_not_a_key _ _ Hfree Hdot), Hparent. simpl.
    by rewrite Hfinal.
Qed.

(** A write at the end of one path keeps the value another path has,
    when neither runs through the other. *)
Lemma modify_keeps m keyPath front final f q x :
  dot_free_keys m →
  SplitPath keyPath = (front ++ [final])%list →
  (∀ parent k, k ≠ final → f parent !! k = parent !! k) →
  NavigateToKey (VObject m) q = Ok x →
  ¬ SplitPath keyPath `prefix_of` SplitPath q →
  ¬ SplitPath q `prefix_of` SplitPath keyPath →
  NavigateToKey (VObject (modify front f m)) q = Ok x.
Proof.
  intros Hfree Hkeys Hf Hnav Hn1 Hn2.
  apply NavigateToKey_Ok_inv in Hnav as (Hq & Hcases).
  assert (descend (SplitPath q) (VObject m) = Some x) as Hd.
  { destruct Hcases as [Hlit|[_ Hd]]; [|done].
    rewrite SplitPath_dot_free; [|done|by apply Hfree].
    simpl. by rewrite Hlit. }
  assert (descend (SplitPath q) (VObject (modify front f m)) = Some x) as Hd'.
  { rewrite (modify_descend_apart front final f); [done|done|by rewrite <- Hkeys..]. }
  pose proof (proj1 (proj2 (SplitPath_Join_facts keyPath))) as Hpieces.
  rewrite Hkeys in Hpieces.
  destruct (strings.ContainsByte q dot) eqn:Hdot.
  - apply NavigateToKey_descend; [done| |done].
    pose proof (dotted_path_not_a_key _ _ Hfree Hdot) as Hlit.
    destruct front as [|e front].
    + simpl. rewrite Hf; [done|]. intros ->.
      inversion Hpieces; subst. congruence.
    + rewrite modify_lookup_other; [done| |done].
      simpl. intros [= ->]. inversion Hpieces; subst. congruence.
  - rewrite SplitPath_dot_free in Hd' by done. simpl in Hd'.
    destruct (modify front f m !! q) as [y|] eqn:Hy; [|done].
    simpl in Hd'. injection Hd' as ->. by apply NavigateToKey_literal.
Qed.

(** The document [SetValueAtPath] without creation leaves, in such a
    document. *)
Lemma SetValueAtPath_update_shape m keyPath value :
  dot_free_keys m →
  firstSegment keyPath ≠ "" →
  KeyExists (VObject m) keyPath = true →
  ∃ front final,
    SplitPath keyPath = (front ++ [final])%list
    ∧ SetValueAtPath m keyPath value false
      = Ok (modify front (<[final := value]>) m).
Proof.
  intros Hfree Hfirst Hex.
  assert (keyPath ≠ "") as Hne by (intros ->; done).
  destruct (KeyExists_dot_free_descend _ _ Hfree Hne Hex) as [x Hd].
  destruct (NavigateToParent_dot_free _ _ _ Hfree Hfirst Hd)
    as (front & final & parent & Hkeys & Hfront & Hfinal & Hparent).
  exists front, final. split; [done|].
  unfold SetValueAtPath. by rewrite Hparent.
Qed.

Lemma RemoveKeyAtPath_keeps m keyPath removed m' q x :
  dot_free_keys m →
  firstSegment keyPath ≠ "" →
  KeyExists (VObject m) keyPath = true →
  RemoveKeyAtPath m keyPath = Ok (removed, m') →
  NavigateToKey (VObject m) q = Ok x →
  ¬ SplitPath keyPath `prefix_of` SplitPath q →
  ¬ SplitPath q `prefix_of` SplitPath keyPath →
  NavigateToKey (VObject m') q = Ok x.
Proof.
  intros Hfree Hfirst Hex Hrem Hnav Hn1 Hn2.
  destruct (RemoveKeyAtPath_shape _ _ Hfree Hfirst Hex)
    as (front & final & r & Hkeys & Hrem').
  rewrite Hrem' in Hrem. injection Hrem as _ <-.
  apply (modify_keeps m keyPath front final); try done.
  intros parent k Hk. by rewrite lookup_delete_ne.
Qed.

Lemma SetValueAtPath_update_keeps m keyPath value m' q x :
  dot_free_keys m →
  firstSegment keyPath ≠ "" →
  KeyExists (VObject m) keyPath = true →
  SetValueAtPath m keyPath value false = Ok m' →
  NavigateToKey (VObject m) q = Ok x →
  ¬ SplitPath keyPath `prefix_of` SplitPath q →
  ¬ SplitPath q `prefix_of` SplitPath keyPath →
  NavigateToKey (VObject m') q = Ok x.
Proof.
  intros Hfree Hfirst Hex Hset Hnav Hn1 Hn2.
  destruct (SetValueAtPath_update_shape _ _ value Hfree Hfirst Hex)
    as (front & final & Hkeys & Hset').
  rewrite Hset' in Hset. injection Hset as <-.
  apply (modify_keeps m keyPath front final); try done.
  intros parent k Hk. by rewrite lookup_insert_ne.
Qed.

(** Creating a path adds no dotted key to the root. *)
Lemma SetValueAtPath_create_dot_free m keyPath value m' :
  dot_free_keys m →
  SetValueAtPath m keyPath value true = Ok m' →
  dot_free_keys m'.
Proof.
  intros Hfree Hset k Hk.
  apply SetValueAtPath_create_descend in Hset as (Hne & _ & Hother).
  destruct (decide (head (SplitPath keyPath) = Some k)) as [Hhead|Hhead].
  - pose proof (proj1 (proj2 (SplitPath_Join_facts keyPath))) as Hpieces.
    destruct (SplitPath keyPath) as [|h t]; [done|].
    injection Hhead as ->. by inversion Hpieces.
  - apply Hfree. by rewrite <- Hother.
Qed.

(** In a document without dotted keys in the root, a value is read at
    the place its split path leads to. *)
Lemma NavigateToKeyRef_dot_free m keyPath r v :
  dot_free_keys m →
  NavigateToKeyRef (VObject m) keyPath = Ok (r, v) →
  r = SplitPath keyPath.
Proof.
  intros Hfree. unfold NavigateToKeyRef.
  destruct (ValidatePath keyPath) eqn:Hv; [done|].
  assert (keyPath ≠ "") as Hne.
  { intros ->. by rewrite ValidatePath_empty in Hv. }
  destruct (m !! keyPath) as [x|] eqn:Hm.
  - intros [= <- <-]. symmetry. apply SplitPath_dot_free; [done|].
    apply Hfree. by rewrite Hm.
  - intros Hnav. by apply navigate_loop_Ok in Hnav as [_ ->].
Qed.

End Renaming.

(** There, a new path that does not run through the old one leaves no
    map that holds itself. *)
Lemma holdsItself_dot_free m oldPath newPath data1 :
  dot_free_keys m →
  ¬ pathresolver.SplitPath oldPath `prefix_of` pathresolver.SplitPath newPath →
  operations.holdsItself (VObject m) oldPath newPath data1 = false.
Proof.
  intros Hfree Hunder. unfold operations.holdsItself.
  destruct (pathresolver.NavigateToKeyRef (VObject m) oldPath)
    as [[r v]| |] eqn:Hnav; [|done..].
  destruct v; try done.
  apply NavigateToKeyRef_dot_free in Hnav as ->; [|done].
  rewrite bool_decide_false; [done|].
  intros Hp. apply Hunder. etrans; [exact Hp|apply prefix_take].
Qed.

(** Renaming a key of the root that holds an object to a path inside
    that object. The object is stored in itself and then taken out of
    the document with its key: what is saved is the document without
    the key, and the object is nowhere. *)
Lemma RenameKey_into_own_value (J : JSON) (io : WriteIO) (fs : gmap string Entry)
    (filePath a b : string) (m inner : gmap string Value) :
  operations.load J fs filePath = Ok (mkMap m) →
  a ≠ "" →
  strings.ContainsByte a dot = false →
  strings.ContainsByte b dot = false →
  m !! a = Some (VObject inner) →
  inner !! b = None →
  m !! (a +:+ "." +:+ b) = None →
  failure io = None →
  fs !! tempName io = None →
  operations.RenameKey J io fs filePath a (a +:+ "." +:+ b)
  = (Ok (), <[filePath := written J io (mkMap (delete a m)) 2]> fs).
Proof.
  intros Hload Ha Hadot Hbdot Hroot Hinner Hwhole Hfail Htemp.
  pose proof (proj1 (load_Ok J _ _ _) Hload) as (file & Hfile & _).
  assert (a +:+ "." +:+ b ≠ "") as Hnew by apply append_sep_not_empty.
  assert (pathresolver.SplitPath (a +:+ "." +:+ b) = [a; b]) as Hkeys.
  { rewrite SplitPath_app_dot by done. unfold firstSegment.
    by rewrite (Split_no_sep b dot). }
  assert (pathresolver.NavigateToKey (VObject m) (a +:+ "." +:+ b)
          = Err (Errorf_w PR_ErrKeyNotFound
                   (": Key '" +:+ (a +:+ "." +:+ b) +:+ "' not found"))) as Hmiss.
  { rewrite NavigateToKey_split, Hkeys by done. simpl. by rewrite Hroot, Hinner. }
  unfold operations.RenameKey.
  rewrite decide_False; [|intros Heq].
  2:{ pose proof (ContainsByte_append_sep a b dot) as Hyes.
      change (a +:+ String dot b) with (a +:+ "." +:+ b) in Hyes.
      rewrite <- Heq in Hyes. congruence. }
  rewrite !ValidatePath_None, Hload by done.
  change (toValue (mkMap m)) with (VObject m).
  change (entries (mkMap m)) with m.
  rewrite (NavigateToKey_literal m a (VObject inner)) by done.
  assert (pathresolver.KeyExists (VObject m) a = true) as ->.
  { rewrite KeyExists_spec. by rewrite (NavigateToKey_literal m a (VObject inner)). }
  assert (pathresolver.KeyExists (VObject m) (a +:+ "." +:+ b) = false) as ->.
  { by rewrite KeyExists_spec, Hmiss. }
  cbn [negb].
  assert (pathresolver.SetValueAtPath m (a +:+ "." +:+ b) (VObject inner) true
          = Ok (<[a := VObject (<[b := VObject inner]> inner)]> m)) as ->.
  { unfold pathresolver.SetValueAtPath, pathresolver.CreateNestedPath.
    rewrite ValidatePath_None, Hkeys by done. simpl. rewrite Hroot. simpl.
    by rewrite lookup_insert_eq, !insert_insert_eq. }
  unfold pathresolver.RemoveKeyAtPath.
  rewrite ValidatePath_None, lookup_insert_eq, delete_insert_eq by done.
  assert (operations.holdsItself (VObject m) a (a +:+ "." +:+ b)
            (<[a := VObject (<[b := VObject inner]> inner)]> m) = false) as ->.
  { unfold operations.holdsItself, pathresolver.NavigateToKeyRef,
      pathresolver.removedEntry.
    rewrite ValidatePath_None, Hroot, Hkeys, lookup_insert_eq by done. simpl.
    rewrite (bool_decide_true ([a] `prefix_of` [a])) by done.
    by rewrite andb_false_r. }
  apply save_Ok; [by rewrite Hfile|done].
Qed.

(** X16. In a document whose root has no key with a dot in it: when the
    old path exists and does not start with a dot, the new path does not
    exist, can be created and does not run through the old one, and
    nothing fails during the save, [RenameKey] returns no error; and,
    the encoder reading back the document it wrote, [GetKey] on the new
    path then returns the value [GetKey] returned on the old one, and
    the old path does not exist any more. *)
Theorem RenameKey_moves_the_value (J : JSON) (io : WriteIO)
    (fs : gmap string Entry) (filePath oldPath newPath : string)
    (m m1 : gmap string Value) (value : Value) :
  operations.load J fs filePath = Ok (mkMap m) →
  dot_free_keys m →
  firstSegment oldPath ≠ "" →
  operations.GetKey J fs filePath oldPath = Ok value →
  pathresolver.KeyExists (VObject m) newPath = false →
  pathresolver.SetValueAtPath m newPath value true = Ok m1 →
  ¬ pathresolver.SplitPath oldPath `prefix_of` pathresolver.SplitPath newPath →
  failure io = None →
  fs !! tempName io = None →
  (∀ removed m2, pathresolver.RemoveKeyAtPath m1 oldPath = Ok (removed, m2) →
                 reads_back J (mkMap m2)) →
  ∃ fs',
    operations.RenameKey J io fs filePath oldPath newPath = (Ok (), fs')
    ∧ operations.GetKey J fs' filePath newPath = Ok value
    ∧ operations.KeyExists J fs' filePath oldPath = Ok false.
Proof.
  intros Hload Hfree Hfirst Hget Hnew Hset Hunder Hfail Htemp Hback.
  apply (GetKey_Ok_inv J fs filePath oldPath (mkMap m)) in Hget; [|done].
  change (toValue (mkMap m)) with (VObject m) in Hget.
  assert (oldPath ≠ "") as Hold by (intros ->; done).
  assert (pathresolver.KeyExists (VObject m) oldPath = true) as Hex.
  { by rewrite KeyExists_spec, Hget. }
  assert (oldPath ≠ newPath) as Hdiff by (intros ->; congruence).
  pose proof (SetValueAtPath_create_dot_free _ _ _ _ Hfree Hset) as Hfree1.
  pose proof (SetValueAtPath_create_lookup _ _ _ _ Hnew Hset) as Hnew1.
  destruct (SetValueAtPath_create_lookup_other _ _ _ _ _ _ Hnew Hset Hget)
    as (value' & Hold1 & _).
  assert (pathresolver.KeyExists (VObject m1) oldPath = true) as Hex1.
  { by rewrite KeyExists_spec, Hold1. }
  destruct (RemoveKeyAtPath_lookup m1 oldPath Hfree1 Hfirst Hex1)
    as (removed & m2 & Hrem & _ & Hgone).
  assert (newPath ≠ "") as Hnewne.
  { by apply SetValueAtPath_create_descend in Hset as (? & _). }
  assert (pathresolver.NavigateToKey (VObject m2) newPath = Ok value) as Hnew2.
  { apply (RemoveKeyAtPath_keeps m1 oldPath removed m2 newPath value); try done.
    intros [rest Hrest].
    destruct (KeyExists_dot_free_descend _ _ Hfree Hold Hex) as [y Hy].
    rewrite Hrest, descend_app in Hy.
    destruct (descend (pathresolver.SplitPath newPath) (VObject m)) as [z|] eqn:Hz;
      [|done].
    assert (pathresolver.KeyExists (VObject m) newPath = true); [|congruence].
    apply KeyExists_descend; eauto. }
  pose proof (proj1 (load_Ok J _ _ _) Hload) as (f & Hfile & _).
  exists (<[filePath := written J io (mkMap m2) 2]> fs). split_and!.
  - unfold operations.RenameKey.
    rewrite decide_False, !ValidatePath_None, Hload by done.
    change (toValue (mkMap m)) with (VObject m). rewrite Hex, Hnew. cbn [negb].
    rewrite Hget. change (entries (mkMap m)) with m. rewrite Hset, Hrem.
    rewrite holdsItself_dot_free by done.
    apply save_Ok; [by rewrite Hfile|done].
  - unfold operations.GetKey.
    rewrite (load_written J io fs filePath (mkMap m2) (Hback removed m2 Hrem)).
    change (toValue (mkMap m2)) with (VObject m2). by rewrite Hnew2.
  - unfold operations.KeyExists.
    rewrite (load_written J io fs filePath (mkMap m2) (Hback removed m2 Hrem)).
    change (toValue (mkMap m2)) with (VObject m2). by rewrite Hgone.
Qed.

Lemma RenameKey_moves_the_value_witness :
  ∃ fs',
    operations.RenameKey sampleRenameJSON plainWrite sampleFS "i18n.json"
      "dashboard.title" "dashboard.heading" = (Ok (), fs')
    ∧ operations.GetKey sampleRenameJSON fs' "i18n.json" "dashboard.heading"
      = Ok (VString "Dashboard")
    ∧ operations.KeyExists sampleRenameJSON fs' "i18n.json" "dashboard.title"
      = Ok false.
Proof.
  apply (RenameKey_moves_the_value sampleRenameJSON plainWrite sampleFS "i18n.json"
           "dashboard.title" "dashboard.heading" sampleDoc
           {[ "dashboard" := VObject {[ "title" := VString "Dashboard";
                                        "heading" := VString "Dashboard";
                                        "stats" := VObject {[ "users" := VString "Total Users" ]} ]};
              "alerts" := VObject {[ "success" := VString "Operation completed successfully" ]};
              "count" := number 42 ]}
           (VString "Dashboard")); try reflexivity.
  - by apply dot_free_keys_decide.
  - by vm_compute.
  - intros [rest Hrest]. vm_compute in Hrest. discriminate Hrest.
  - intros removed m2 Hrem. vm_compute in Hrem. injection Hrem as <- <-.
    reflexivity.
Defined.

(** ** Edits and the other paths *)

(** X17. In a document whose root has no key with a dot in it, for an
    edited path that does not start with a dot and another path of
    which neither runs through the other: when [UpdateKey] or
    [RemoveKey] on the edited path returns no error, the encoder
    reading back the document it wrote, [GetKey] on the other path
    returns the value it returned before. *)
Theorem edits_keep_other_paths (J : JSON) (io : WriteIO) (fs : gmap string Entry)
    (filePath keyPath other : string) (m : gmap string Value) (x : Value) :
  operations.load J fs filePath = Ok (mkMap m) →
  dot_free_keys m →
  firstSegment keyPath ≠ "" →
  operations.GetKey J fs filePath other = Ok x →
  ¬ pathresolver.SplitPath keyPath `prefix_of` pathresolver.SplitPath other →
  ¬ pathresolver.SplitPath other `prefix_of` pathresolver.SplitPath keyPath →
  (∀ value fs',
     operations.UpdateKey J io fs filePath keyPath value = (Ok (), fs') →
     (∀ m', pathresolver.SetValueAtPath m keyPath value false = Ok m' →
            reads_back J (mkMap m')) →
     operations.GetKey J fs' filePath other = Ok x)
  ∧ (∀ removed fs',
       operations.RemoveKey J io fs filePath keyPath = (Ok removed, fs') →
       (∀ r m', pathresolver.RemoveKeyAtPath m keyPath = Ok (r, m') →
                reads_back J (mkMap m')) →
       operations.GetKey J fs' filePath other = Ok x).
Proof.
  intros Hload Hfree Hfirst Hget Hn1 Hn2.
  apply (GetKey_Ok_inv J fs filePath other (mkMap m)) in Hget; [|done].
  change (toValue (mkMap m)) with (VObject m) in Hget.
  pose proof (proj1 (load_Ok J _ _ _) Hload) as (f & Hfile & _).
  split.
  - intros value fs' Hupdate Hback. revert Hupdate.
    unfold operations.UpdateKey. rewrite Hload.
    destruct (pathresolver.ValidatePath keyPath); [done|].
    change (toValue (mkMap m)) with (VObject m).
    destruct (pathresolver.KeyExists (VObject m) keyPath) eqn:Hex; [|done].
    cbn [negb]. change (entries (mkMap m)) with m.
    destruct (pathresolver.SetValueAtPath m keyPath value false) as [m'| |] eqn:Hset;
      [|by case_match|done].
    intros Hsave. apply save_Ok in Hsave as (_ & _ & ->); [|by rewrite Hfile].
    unfold operations.GetKey.
    rewrite (load_written J io fs filePath (mkMap m') (Hback m' eq_refl)).
    change (toValue (mkMap m')) with (VObject m').
    by rewrite (SetValueAtPath_update_keeps m keyPath value m' other x).
  - intros removed fs' Hremove Hback. revert Hremove.
    unfold operations.RemoveKey. rewrite Hload.
    destruct (pathresolver.ValidatePath keyPath); [done|].
    change (toValue (mkMap m)) with (VObject m).
    destruct (pathresolver.KeyExists (VObject m) keyPath) eqn:Hex; [|done].
    cbn [negb]. change (entries (mkMap m)) with m.
    destruct (pathresolver.RemoveKeyAtPath m keyPath) as [[r m']| |] eqn:Hrem;
      [|done..].
    destruct (operations.save J io fs filePath (mkMap m') operations.ErrRemoveKeyError)
      as [[[]| |] fs''] eqn:Hsave; [|done..].
    intros [= <- <-].
    apply save_Ok in Hsave as (_ & _ & ->); [|by rewrite Hfile].
    unfold operations.GetKey.
    rewrite (load_written J io fs filePath (mkMap m') (Hback r m' eq_refl)).
    change (toValue (mkMap m')) with (VObject m').
    by rewrite (RemoveKeyAtPath_keeps m keyPath r m' other x).
Qed.

Lemma edits_keep_other_paths_witness :
  operations.GetKey sampleJSON
    (<[ "i18n.json" := written sampleJSON plainWrite (mkMap sampleUpdated) 2 ]> sampleFS)
    "i18n.json" "dashboard.stats.users" = Ok (VString "Total Users").
Proof.
  apply (proj1 (edits_keep_other_paths sampleJSON plainWrite sampleFS "i18n.json"
                  "dashboard.title" "dashboard.stats.users" sampleDoc
                  (VString "Total Users") eq_refl
                  (dot_free_keys_decide sampleDoc eq_refl)
                  ltac:(by vm_compute) eq_refl
                  ltac:(intros [rest Hrest]; vm_compute in Hrest; discriminate Hrest)
                  ltac:(intros [rest Hrest]; vm_compute in Hrest; discriminate Hrest))
           (VString "Control Panel")).
  - reflexivity.
  - intros m' Hset. vm_compute in Hset. injection Hset as <-. reflexivity.
Defined.

(** ** A document that is null *)

(** X18. A file that holds [null] loads as a nil map. On it, with a
    path that is not empty: nothing exists; [GetKey], [UpdateKey] and
    [RemoveKey] fail with KEY_NOT_FOUND; [ListKeys] without a path
    returns no key; and [AddKey] panics in its write to the nil map.
    The directory stays as it is. *)
Theorem null_document (J : JSON) (io : WriteIO) (fs : gmap string Entry)
    (filePath keyPath : string) (value : Value)
    (visit : gmap string Value → list string) :
  let notFound := Errorf_w OP_ErrKeyNotFound
                    (": Key '" +:+ keyPath +:+ "' not found in " +:+ filePath) in
  operations.load J fs filePath = Ok nilMap →
  keyPath ≠ "" →
  visits_each_key_once visit →
  operations.KeyExists J fs filePath keyPath = Ok false
  ∧ operations.GetKey J fs filePath keyPath = Err notFound
  ∧ operations.UpdateKey J io fs filePath keyPath value = (Err notFound, fs)
  ∧ operations.RemoveKey J io fs filePath keyPath = (Err notFound, fs)
  ∧ operations.ListKeys J visit fs filePath None = Ok []
  ∧ operations.AddKey J io fs filePath keyPath value
    = (Panic "assignment to entry in nil map", fs).
Proof.
  intros notFound Hload Hne Hvisit.
  pose proof (KeyExists_nil keyPath) as Hex.
  split_and!.
  - unfold operations.KeyExists. by rewrite Hload, Hex.
  - unfold operations.GetKey. rewrite Hload.
    pose proof (KeyExists_spec (toValue nilMap) keyPath) as Hspec.
    rewrite Hex in Hspec.
    unfold pathresolver.NavigateToKey, pathresolver.NavigateToKeyRef, toValue in *.
    simpl in *. rewrite ValidatePath_None, lookup_empty in * by done.
    pose proof (SplitPath_not_nil _ Hne) as Hkeys.
    destruct (pathresolver.SplitPath keyPath) as [|k rest]; [done|].
    simpl. by rewrite lookup_empty.
  - unfold operations.UpdateKey.
    by rewrite Hload, ValidatePath_None, Hex by done.
  - unfold operations.RemoveKey.
    by rewrite Hload, ValidatePath_None, Hex by done.
  - unfold operations.ListKeys. rewrite Hload. simpl.
    destruct (Hvisit ∅) as [_ Hin].
    destruct (visit ∅) as [|k l]; [done|].
    destruct (proj1 (Hin k)) as [v Hv]; [by left|].
    by rewrite lookup_empty in Hv.
  - unfold operations.AddKey. rewrite Hload, Hex. simpl.
    by rewrite bool_decide_false.
Qed.

Lemma null_document_witness :
  operations.AddKey nullJSON plainWrite nullFS "null.json" "a.b" (VString "x")
  = (Panic "assignment to entry in nil map", nullFS).
Proof.
  apply (null_document nullJSON plainWrite nullFS "null.json" "a.b" (VString "x")
           listedVisit eq_refl); [done|apply listedVisit_visits].
Defined.

(** ** A file that does not load *)

(** X19. When the load of an operation fails, the operation returns
    the error of the load as it is and the directory stays as it is
    ([RenameKey] for two different paths that are not empty). The error
    is one of [jsonhandler]: FILE_NOT_FOUND exactly for a file that is
    not there, FILE_READ_ERROR for one that cannot be reached or read,
    INVALID_JSON for one that is read and does not parse; it is never
    the FILE_NOT_FOUND or the INVALID_JSON sentinel that [operations]
    declares. *)
Theorem load_error_reaches_the_caller (J : JSON) (io : WriteIO)
    (fs : gmap string Entry) (filePath keyPath newPath : string)
    (value : Value) (visit : gmap string Value → list string) (err : error) :
  operations.load J fs filePath = Err err →
  keyPath ≠ "" → newPath ≠ "" → keyPath ≠ newPath →
  (operations.GetKey J fs filePath keyPath = Err err
   ∧ operations.AddKey J io fs filePath keyPath value = (Err err, fs)
   ∧ operations.UpdateKey J io fs filePath keyPath value = (Err err, fs)
   ∧ operations.RenameKey J io fs filePath keyPath newPath = (Err err, fs)
   ∧ operations.RemoveKey J io fs filePath keyPath = (Err err, fs)
   ∧ operations.ListKeys J visit fs filePath (Some keyPath) = Err err
   ∧ operations.ListKeys J visit fs filePath None = Err err
   ∧ operations.KeyExists J fs filePath keyPath = Err err)
  ∧ ((wraps err = Some JH_ErrFileNotFound ∧ fs !! filePath = None)
     ∨ (wraps err = Some JH_ErrFileReadError
        ∧ ((∃ msg, fs !! filePath = Some (Inaccessible msg))
           ∨ ∃ f msg, fs !! filePath = Some (Regular f)
                      ∧ readError f = Some msg))
     ∨ (wraps err = Some JH_ErrInvalidJSON
        ∧ ∃ f msg, fs !! filePath = Some (Regular f) ∧ readError f = None
                   ∧ Unmarshal_map J (content f) = UnmarshalMapError msg))
  ∧ errors_Is err OP_ErrFileNotFound = false
  ∧ errors_Is err OP_ErrInvalidJSON = false.
Proof.
  intros Hload Hkey Hnew Hdiff. split; [|split].
  - split_and!.
    + unfold operations.GetKey. by rewrite Hload.
    + unfold operations.AddKey. by rewrite Hload.
    + unfold operations.UpdateKey. by rewrite Hload.
    + unfold operations.RenameKey.
      by rewrite decide_False, !ValidatePath_None, Hload.
    + unfold operations.RemoveKey. by rewrite Hload.
    + unfold operations.ListKeys. by rewrite Hload.
    + unfold operations.ListKeys. by rewrite Hload.
    + unfold operations.KeyExists. by rewrite Hload.
  - revert Hload.
    unfold operations.load, jsonhandler.LoadJSON, os_Stat, os_ReadFile; simpl.
    destruct (fs !! filePath) as [[f|msg]|]; simpl.
    + destruct (readError f) as [msg|] eqn:Hread; simpl.
      { intros [= <-]. right. left. split; [done|]. right. by exists f, msg. }
      destruct (Unmarshal_map J (content f)) as [msg|d] eqn:Hparse; simpl; [|done].
      intros [= <-]. right. right. split; [done|]. by exists f, msg.
    + intros [= <-]. right. left. split; [done|]. left. by exists msg.
    + intros [= <-]. by left.
  - apply load_Err in Hload. unfold errors_Is.
    split; apply bool_decide_eq_false; intros Hw; rewrite Hw in Hload;
      by destruct Hload as [|[|]].
Qed.

Lemma load_error_reaches_the_caller_witness :
  operations.UpdateKey sampleJSON plainWrite (oneFile "broken.json" [x7b] 10)
    "broken.json" "dashboard.title" (VString "Control Panel")
  = (Err (Errorf_w JH_ErrInvalidJSON
            ": File broken.json contains invalid JSON: invalid character"),
     oneFile "broken.json" [x7b] 10).
Proof.
  apply (load_error_reaches_the_caller sampleJSON plainWrite
           (oneFile "broken.json" [x7b] 10) "broken.json" "dashboard.title"
           "dashboard.heading" (VString "Control Panel") listedVisit);
    [reflexivity|done..].
Defined.
